(** * Versions.cpp: profile, version and extension gating of the GLSL front end

    A shallow embedding of
    [renderdoc/3rdparty/glslang/glslang/MachineIndependent/Versions.cpp]:
    the [TParseVersions] member functions become state-passing functions on a
    record holding the members they read and write.  The diagnostic sink is
    a collaborator outside that file; what is recorded here is the sequence
    of calls the gate makes on it. *)

From Stdlib Require Import ZArith List Bool Lia Ascii String DecimalString.
From stdpp Require Import gmap strings list fin_maps.

(** ** Enumerations *)

(** Modelled from the spec: the [EProfile] enumeration is declared in
    Versions.h, which is not part of the sources at hand.  The spec describes
    it as a bit set over NoProfile, Core, Compatibility and ES in which the
    active profile is exactly one bit; the bits are numbered in that order. *)
Inductive EProfile : Set :=
| ENoProfile
| ECoreProfile
| ECompatibilityProfile
| EEsProfile.

Definition profile_index (p : EProfile) : Z :=
  match p with
  | ENoProfile => 0
  | ECoreProfile => 1
  | ECompatibilityProfile => 2
  | EEsProfile => 3
  end%Z.

Definition profile_bits (p : EProfile) : Z := Z.shiftl 1 (profile_index p).

Definition EProfile_eqb (p q : EProfile) : bool :=
  match p, q with
  | ENoProfile, ENoProfile
  | ECoreProfile, ECoreProfile
  | ECompatibilityProfile, ECompatibilityProfile
  | EEsProfile, EEsProfile => true
  | _, _ => false
  end.

(** Modelled from the spec: the stage enumeration [EShLanguage] comes from the
    public interface header; the spec lists vertex, tessellation control,
    tessellation evaluation, geometry, fragment and compute, in that order. *)
Inductive EShLanguage : Set :=
| EShLangVertex
| EShLangTessControl
| EShLangTessEvaluation
| EShLangGeometry
| EShLangFragment
| EShLangCompute.

Definition language_index (l : EShLanguage) : Z :=
  match l with
  | EShLangVertex => 0
  | EShLangTessControl => 1
  | EShLangTessEvaluation => 2
  | EShLangGeometry => 3
  | EShLangFragment => 4
  | EShLangCompute => 5
  end%Z.

(** The behaviours of an extension.  [EBhMissing] is what a query answers for
    an identifier that has no entry in the table. *)
Inductive TExtensionBehavior : Set :=
| EBhMissing
| EBhRequire
| EBhEnable
| EBhWarn
| EBhDisable
| EBhDisablePartial.

Definition TExtensionBehavior_eqb (a b : TExtensionBehavior) : bool :=
  match a, b with
  | EBhMissing, EBhMissing
  | EBhRequire, EBhRequire
  | EBhEnable, EBhEnable
  | EBhWarn, EBhWarn
  | EBhDisable, EBhDisable
  | EBhDisablePartial, EBhDisablePartial => true
  | _, _ => false
  end.

(** ** The diagnostic sink *)

Definition TSourceLoc : Set := Z.

Inductive TPrefixType : Set :=
| EPrefixNone
| EPrefixWarning
| EPrefixError.

(** One constructor per entry point of the sink that Versions.cpp calls:
    [error], [ppError] and [warn] (pure virtual in [TParseVersions]) and
    [infoSink.info.message], with or without a location. *)
Inductive SinkCall : Set :=
| CallError (loc : TSourceLoc) (szReason szToken szExtraInfo : string)
| CallPpError (loc : TSourceLoc) (szReason szToken szExtraInfo : string)
| CallWarn (loc : TSourceLoc) (szReason szToken szExtraInfo : string)
| CallMessage (prefix : TPrefixType) (msg : string) (loc : option TSourceLoc).

Definition is_error (c : SinkCall) : bool :=
  match c with
  | CallError _ _ _ _ | CallPpError _ _ _ _ => true
  | _ => false
  end.

Definition is_warning (c : SinkCall) : bool :=
  match c with
  | CallWarn _ _ _ _ | CallMessage EPrefixWarning _ _ => true
  | _ => false
  end.

(** ** The state of a compile unit *)

Record SpvVersion : Set := mkSpvVersion {
  spv : Z;
  vulkanGlsl : Z;
  vulkan : Z;
  openGl : Z
}.

(** The members of [TParseVersions] that Versions.cpp touches.
    [suppressWarnings] and [relaxedErrors] are queries on the message flags
    of the compile configuration; [requestedExtensions] is the set that
    [intermediate.addRequestedExtension] fills; [infoSink] is the sequence of
    calls made on the sink, oldest first. *)
Record TParseVersions : Type := mkTParseVersions {
  profile : EProfile;
  version : Z;
  language : EShLanguage;
  spvVersion : SpvVersion;
  forwardCompatible : bool;
  suppressWarnings : bool;
  relaxedErrors : bool;
  currentLoc : TSourceLoc;
  extensionBehavior : gmap string TExtensionBehavior;
  requestedExtensions : gset string;
  infoSink : list SinkCall
}.

Definition set_extensionBehavior (m : gmap string TExtensionBehavior)
    (st : TParseVersions) : TParseVersions :=
  mkTParseVersions (profile st) (version st) (language st) (spvVersion st)
    (forwardCompatible st) (suppressWarnings st) (relaxedErrors st)
    (currentLoc st) m (requestedExtensions st) (infoSink st).

Definition set_requestedExtensions (r : gset string)
    (st : TParseVersions) : TParseVersions :=
  mkTParseVersions (profile st) (version st) (language st) (spvVersion st)
    (forwardCompatible st) (suppressWarnings st) (relaxedErrors st)
    (currentLoc st) (extensionBehavior st) r (infoSink st).

Definition set_infoSink (s : list SinkCall)
    (st : TParseVersions) : TParseVersions :=
  mkTParseVersions (profile st) (version st) (language st) (spvVersion st)
    (forwardCompatible st) (suppressWarnings st) (relaxedErrors st)
    (currentLoc st) (extensionBehavior st) (requestedExtensions st) s.

Definition emit (c : SinkCall) (st : TParseVersions) : TParseVersions :=
  set_infoSink (infoSink st ++ [c]) st.

Definition error (loc : TSourceLoc) (szReason szToken szExtraInfo : string) :=
  emit (CallError loc szReason szToken szExtraInfo).

Definition ppError (loc : TSourceLoc) (szReason szToken szExtraInfo : string) :=
  emit (CallPpError loc szReason szToken szExtraInfo).

Definition warn (loc : TSourceLoc) (szReason szToken szExtraInfo : string) :=
  emit (CallWarn loc szReason szToken szExtraInfo).

Definition message (prefix : TPrefixType) (msg : string) (loc : TSourceLoc) :=
  emit (CallMessage prefix msg (Some loc)).

Definition message_noloc (prefix : TPrefixType) (msg : string) :=
  emit (CallMessage prefix msg None).

Definition getCurrentLoc (st : TParseVersions) : TSourceLoc := currentLoc st.

(** ** Text helpers *)

Definition newline : ascii := ascii_of_nat 10.

(** A string literal of the source that ends in a new-line. *)
Definition ln (s : string) : string := s +:+ String newline EmptyString.

Fixpoint string_take (n : nat) (s : string) : string :=
  match n, s with
  | S n', String c s' => String c (string_take n' s')
  | _, _ => EmptyString
  end.

(** The text ["%d"] prints for an integer. *)
Definition String_of_int (n : Z) : string := NilEmpty.string_of_int (Z.to_int n).

(** [snprintf(buf, size, "%d", n)]: at most [size - 1] characters are kept. *)
Definition snprintf_d (size : nat) (n : Z) : string :=
  string_take (size - 1) (String_of_int n).

(** The lines of a text: it is cut at every new-line; a last line that is
    not terminated counts as a line. *)
Fixpoint lines (s : string) : list string :=
  match s with
  | EmptyString => []
  | String c s' =>
      if Ascii.eqb c newline then EmptyString :: lines s'
      else match lines s' with
           | [] => [String c EmptyString]
           | l :: ls => String c l :: ls
           end
  end.

(** ** Extension names *)

(** Modelled from the spec: the extension name constants are declared at the
    bottom of Versions.h, which is not part of the sources at hand.  Following
    the convention stated at the head of Versions.cpp, the constant of an
    extension holds the extension's name as its text; the names are the ones
    that the preamble and the propagation code of Versions.cpp spell out. *)
Module Ext.

Definition E_GL_OES_texture_3D : string := "GL_OES_texture_3D".
Definition E_GL_OES_standard_derivatives : string := "GL_OES_standard_derivatives".
Definition E_GL_EXT_frag_depth : string := "GL_EXT_frag_depth".
Definition E_GL_OES_EGL_image_external : string := "GL_OES_EGL_image_external".
Definition E_GL_EXT_shader_texture_lod : string := "GL_EXT_shader_texture_lod".
Definition E_GL_EXT_shadow_samplers : string := "GL_EXT_shadow_samplers".
Definition E_GL_ARB_texture_rectangle : string := "GL_ARB_texture_rectangle".
Definition E_GL_3DL_array_objects : string := "GL_3DL_array_objects".
Definition E_GL_ARB_shading_language_420pack : string := "GL_ARB_shading_language_420pack".
Definition E_GL_ARB_texture_gather : string := "GL_ARB_texture_gather".
Definition E_GL_ARB_gpu_shader5 : string := "GL_ARB_gpu_shader5".
Definition E_GL_ARB_separate_shader_objects : string := "GL_ARB_separate_shader_objects".
Definition E_GL_ARB_compute_shader : string := "GL_ARB_compute_shader".
Definition E_GL_ARB_tessellation_shader : string := "GL_ARB_tessellation_shader".
Definition E_GL_ARB_enhanced_layouts : string := "GL_ARB_enhanced_layouts".
Definition E_GL_ARB_texture_cube_map_array : string := "GL_ARB_texture_cube_map_array".
Definition E_GL_ARB_shader_texture_lod : string := "GL_ARB_shader_texture_lod".
Definition E_GL_ARB_explicit_attrib_location : string := "GL_ARB_explicit_attrib_location".
Definition E_GL_ARB_shader_image_load_store : string := "GL_ARB_shader_image_load_store".
Definition E_GL_ARB_shader_atomic_counters : string := "GL_ARB_shader_atomic_counters".
Definition E_GL_ARB_shader_draw_parameters : string := "GL_ARB_shader_draw_parameters".
Definition E_GL_ARB_shader_group_vote : string := "GL_ARB_shader_group_vote".
Definition E_GL_ARB_derivative_control : string := "GL_ARB_derivative_control".
Definition E_GL_ARB_shader_texture_image_samples : string := "GL_ARB_shader_texture_image_samples".
Definition E_GL_ARB_viewport_array : string := "GL_ARB_viewport_array".
Definition E_GL_ARB_gpu_shader_int64 : string := "GL_ARB_gpu_shader_int64".
Definition E_GL_ARB_shader_ballot : string := "GL_ARB_shader_ballot".
Definition E_GL_ARB_sparse_texture2 : string := "GL_ARB_sparse_texture2".
Definition E_GL_ARB_sparse_texture_clamp : string := "GL_ARB_sparse_texture_clamp".
Definition E_GL_ARB_shader_stencil_export : string := "GL_ARB_shader_stencil_export".
Definition E_GL_ARB_post_depth_coverage : string := "GL_ARB_post_depth_coverage".
Definition E_GL_ARB_shader_viewport_layer_array : string := "GL_ARB_shader_viewport_layer_array".
Definition E_GL_EXT_shader_non_constant_global_initializers : string := "GL_EXT_shader_non_constant_global_initializers".
Definition E_GL_EXT_shader_image_load_formatted : string := "GL_EXT_shader_image_load_formatted".
Definition E_GL_EXT_post_depth_coverage : string := "GL_EXT_post_depth_coverage".
Definition E_GL_GOOGLE_cpp_style_line_directive : string := "GL_GOOGLE_cpp_style_line_directive".
Definition E_GL_GOOGLE_include_directive : string := "GL_GOOGLE_include_directive".
Definition E_GL_AMD_shader_ballot : string := "GL_AMD_shader_ballot".
Definition E_GL_AMD_shader_trinary_minmax : string := "GL_AMD_shader_trinary_minmax".
Definition E_GL_AMD_shader_explicit_vertex_parameter : string := "GL_AMD_shader_explicit_vertex_parameter".
Definition E_GL_AMD_gcn_shader : string := "GL_AMD_gcn_shader".
Definition E_GL_AMD_gpu_shader_half_float : string := "GL_AMD_gpu_shader_half_float".
Definition E_GL_AMD_texture_gather_bias_lod : string := "GL_AMD_texture_gather_bias_lod".
Definition E_GL_AMD_gpu_shader_int16 : string := "GL_AMD_gpu_shader_int16".
Definition E_GL_AMD_shader_image_load_store_lod : string := "GL_AMD_shader_image_load_store_lod".
Definition E_GL_NV_sample_mask_override_coverage : string := "GL_NV_sample_mask_override_coverage".
Definition E_SPV_NV_geometry_shader_passthrough : string := "GL_NV_geometry_shader_passthrough".
Definition E_GL_NV_viewport_array2 : string := "GL_NV_viewport_array2".
Definition E_GL_NV_stereo_view_rendering : string := "GL_NV_stereo_view_rendering".
Definition E_GL_NVX_multiview_per_view_attributes : string := "GL_NVX_multiview_per_view_attributes".
Definition E_GL_ANDROID_extension_pack_es31a : string := "GL_ANDROID_extension_pack_es31a".
Definition E_GL_KHR_blend_equation_advanced : string := "GL_KHR_blend_equation_advanced".
Definition E_GL_OES_sample_variables : string := "GL_OES_sample_variables".
Definition E_GL_OES_shader_image_atomic : string := "GL_OES_shader_image_atomic".
Definition E_GL_OES_shader_multisample_interpolation : string := "GL_OES_shader_multisample_interpolation".
Definition E_GL_OES_texture_storage_multisample_2d_array : string := "GL_OES_texture_storage_multisample_2d_array".
Definition E_GL_EXT_geometry_shader : string := "GL_EXT_geometry_shader".
Definition E_GL_EXT_geometry_point_size : string := "GL_EXT_geometry_point_size".
Definition E_GL_EXT_gpu_shader5 : string := "GL_EXT_gpu_shader5".
Definition E_GL_EXT_primitive_bounding_box : string := "GL_EXT_primitive_bounding_box".
Definition E_GL_EXT_shader_io_blocks : string := "GL_EXT_shader_io_blocks".
Definition E_GL_EXT_tessellation_shader : string := "GL_EXT_tessellation_shader".
Definition E_GL_EXT_tessellation_point_size : string := "GL_EXT_tessellation_point_size".
Definition E_GL_EXT_texture_buffer : string := "GL_EXT_texture_buffer".
Definition E_GL_EXT_texture_cube_map_array : string := "GL_EXT_texture_cube_map_array".
Definition E_GL_OES_geometry_shader : string := "GL_OES_geometry_shader".
Definition E_GL_OES_geometry_point_size : string := "GL_OES_geometry_point_size".
Definition E_GL_OES_gpu_shader5 : string := "GL_OES_gpu_shader5".
Definition E_GL_OES_primitive_bounding_box : string := "GL_OES_primitive_bounding_box".
Definition E_GL_OES_shader_io_blocks : string := "GL_OES_shader_io_blocks".
Definition E_GL_OES_tessellation_shader : string := "GL_OES_tessellation_shader".
Definition E_GL_OES_tessellation_point_size : string := "GL_OES_tessellation_point_size".
Definition E_GL_OES_texture_buffer : string := "GL_OES_texture_buffer".
Definition E_GL_OES_texture_cube_map_array : string := "GL_OES_texture_cube_map_array".
Definition E_GL_EXT_device_group : string := "GL_EXT_device_group".
Definition E_GL_EXT_multiview : string := "GL_EXT_multiview".
Definition E_GL_OVR_multiview : string := "GL_OVR_multiview".
Definition E_GL_OVR_multiview2 : string := "GL_OVR_multiview2".
End Ext.
Import Ext.

(** ** The default behaviours (initializeExtensionBehavior) *)

(** Lines 153 to 193: the assignments made in every build. *)
Definition defaults_base : list (string * TExtensionBehavior) :=
  [ (E_GL_OES_texture_3D, EBhDisable);
    (E_GL_OES_standard_derivatives, EBhDisable);
    (E_GL_EXT_frag_depth, EBhDisable);
    (E_GL_OES_EGL_image_external, EBhDisable);
    (E_GL_EXT_shader_texture_lod, EBhDisable);
    (E_GL_EXT_shadow_samplers, EBhDisable);
    (E_GL_ARB_texture_rectangle, EBhDisable);
    (E_GL_3DL_array_objects, EBhDisable);
    (E_GL_ARB_shading_language_420pack, EBhDisable);
    (E_GL_ARB_texture_gather, EBhDisable);
    (E_GL_ARB_gpu_shader5, EBhDisablePartial);
    (E_GL_ARB_separate_shader_objects, EBhDisable);
    (E_GL_ARB_compute_shader, EBhDisable);
    (E_GL_ARB_tessellation_shader, EBhDisable);
    (E_GL_ARB_enhanced_layouts, EBhDisable);
    (E_GL_ARB_texture_cube_map_array, EBhDisable);
    (E_GL_ARB_shader_texture_lod, EBhDisable);
    (E_GL_ARB_explicit_attrib_location, EBhDisable);
    (E_GL_ARB_shader_image_load_store, EBhDisable);
    (E_GL_ARB_shader_atomic_counters, EBhDisable);
    (E_GL_ARB_shader_draw_parameters, EBhDisable);
    (E_GL_ARB_shader_group_vote, EBhDisable);
    (E_GL_ARB_derivative_control, EBhDisable);
    (E_GL_ARB_shader_texture_image_samples, EBhDisable);
    (E_GL_ARB_viewport_array, EBhDisable);
    (E_GL_ARB_gpu_shader_int64, EBhDisable);
    (E_GL_ARB_shader_ballot, EBhDisable);
    (E_GL_ARB_sparse_texture2, EBhDisable);
    (E_GL_ARB_sparse_texture_clamp, EBhDisable);
    (E_GL_ARB_shader_stencil_export, EBhDisable);
    (E_GL_ARB_post_depth_coverage, EBhDisable);
    (E_GL_ARB_shader_viewport_layer_array, EBhDisable);
    (E_GL_EXT_shader_non_constant_global_initializers, EBhDisable);
    (E_GL_EXT_shader_image_load_formatted, EBhDisable);
    (E_GL_EXT_post_depth_coverage, EBhDisable);
    (E_GL_GOOGLE_cpp_style_line_directive, EBhDisable);
    (E_GL_GOOGLE_include_directive, EBhDisable) ].

(** Lines 196 to 203: the assignments under [AMD_EXTENSIONS]. *)
Definition defaults_AMD : list (string * TExtensionBehavior) :=
  [ (E_GL_AMD_shader_ballot, EBhDisable);
    (E_GL_AMD_shader_trinary_minmax, EBhDisable);
    (E_GL_AMD_shader_explicit_vertex_parameter, EBhDisable);
    (E_GL_AMD_gcn_shader, EBhDisable);
    (E_GL_AMD_gpu_shader_half_float, EBhDisable);
    (E_GL_AMD_texture_gather_bias_lod, EBhDisable);
    (E_GL_AMD_gpu_shader_int16, EBhDisable);
    (E_GL_AMD_shader_image_load_store_lod, EBhDisable) ].

(** Lines 207 to 211: the assignments under [NV_EXTENSIONS]. *)
Definition defaults_NV : list (string * TExtensionBehavior) :=
  [ (E_GL_NV_sample_mask_override_coverage, EBhDisable);
    (E_SPV_NV_geometry_shader_passthrough, EBhDisable);
    (E_GL_NV_viewport_array2, EBhDisable);
    (E_GL_NV_stereo_view_rendering, EBhDisable);
    (E_GL_NVX_multiview_per_view_attributes, EBhDisable) ].

(** Lines 215 to 248: AEP, OES matching AEP, EXT and OVR extensions. *)
Definition defaults_tail : list (string * TExtensionBehavior) :=
  [ (E_GL_ANDROID_extension_pack_es31a, EBhDisable);
    (E_GL_KHR_blend_equation_advanced, EBhDisable);
    (E_GL_OES_sample_variables, EBhDisable);
    (E_GL_OES_shader_image_atomic, EBhDisable);
    (E_GL_OES_shader_multisample_interpolation, EBhDisable);
    (E_GL_OES_texture_storage_multisample_2d_array, EBhDisable);
    (E_GL_EXT_geometry_shader, EBhDisable);
    (E_GL_EXT_geometry_point_size, EBhDisable);
    (E_GL_EXT_gpu_shader5, EBhDisable);
    (E_GL_EXT_primitive_bounding_box, EBhDisable);
    (E_GL_EXT_shader_io_blocks, EBhDisable);
    (E_GL_EXT_tessellation_shader, EBhDisable);
    (E_GL_EXT_tessellation_point_size, EBhDisable);
    (E_GL_EXT_texture_buffer, EBhDisable);
    (E_GL_EXT_texture_cube_map_array, EBhDisable);
    (E_GL_OES_geometry_shader, EBhDisable);
    (E_GL_OES_geometry_point_size, EBhDisable);
    (E_GL_OES_gpu_shader5, EBhDisable);
    (E_GL_OES_primitive_bounding_box, EBhDisable);
    (E_GL_OES_shader_io_blocks, EBhDisable);
    (E_GL_OES_tessellation_shader, EBhDisable);
    (E_GL_OES_tessellation_point_size, EBhDisable);
    (E_GL_OES_texture_buffer, EBhDisable);
    (E_GL_OES_texture_cube_map_array, EBhDisable);
    (E_GL_EXT_device_group, EBhDisable);
    (E_GL_EXT_multiview, EBhDisable);
    (E_GL_OVR_multiview, EBhDisable);
    (E_GL_OVR_multiview2, EBhDisable) ].

(** ** The preamble texts (getPreamble) *)

(** Lines 257 to 293: the text assigned under the ES profile. *)
Definition preamble_es : string :=
  ln "#define GL_ES 1" +:+
  ln "#define GL_FRAGMENT_PRECISION_HIGH 1" +:+
  ln "#define GL_OES_texture_3D 1" +:+
  ln "#define GL_OES_standard_derivatives 1" +:+
  ln "#define GL_EXT_frag_depth 1" +:+
  ln "#define GL_OES_EGL_image_external 1" +:+
  ln "#define GL_EXT_shader_texture_lod 1" +:+
  ln "#define GL_EXT_shadow_samplers 1" +:+
  ln "#define GL_ANDROID_extension_pack_es31a 1" +:+
  ln "#define GL_KHR_blend_equation_advanced 1" +:+
  ln "#define GL_OES_sample_variables 1" +:+
  ln "#define GL_OES_shader_image_atomic 1" +:+
  ln "#define GL_OES_shader_multisample_interpolation 1" +:+
  ln "#define GL_OES_texture_storage_multisample_2d_array 1" +:+
  ln "#define GL_EXT_geometry_shader 1" +:+
  ln "#define GL_EXT_geometry_point_size 1" +:+
  ln "#define GL_EXT_gpu_shader5 1" +:+
  ln "#define GL_EXT_primitive_bounding_box 1" +:+
  ln "#define GL_EXT_shader_io_blocks 1" +:+
  ln "#define GL_EXT_tessellation_shader 1" +:+
  ln "#define GL_EXT_tessellation_point_size 1" +:+
  ln "#define GL_EXT_texture_buffer 1" +:+
  ln "#define GL_EXT_texture_cube_map_array 1" +:+
  ln "#define GL_OES_geometry_shader 1" +:+
  ln "#define GL_OES_geometry_point_size 1" +:+
  ln "#define GL_OES_gpu_shader5 1" +:+
  ln "#define GL_OES_primitive_bounding_box 1" +:+
  ln "#define GL_OES_shader_io_blocks 1" +:+
  ln "#define GL_OES_tessellation_shader 1" +:+
  ln "#define GL_OES_tessellation_point_size 1" +:+
  ln "#define GL_OES_texture_buffer 1" +:+
  ln "#define GL_OES_texture_cube_map_array 1" +:+
  ln "#define GL_EXT_shader_non_constant_global_initializers 1".

(** Lines 297 to 325: the text assigned under the other profiles. *)
Definition preamble_desktop : string :=
  ln "#define GL_FRAGMENT_PRECISION_HIGH 1" +:+
  ln "#define GL_ARB_texture_rectangle 1" +:+
  ln "#define GL_ARB_shading_language_420pack 1" +:+
  ln "#define GL_ARB_texture_gather 1" +:+
  ln "#define GL_ARB_gpu_shader5 1" +:+
  ln "#define GL_ARB_separate_shader_objects 1" +:+
  ln "#define GL_ARB_compute_shader 1" +:+
  ln "#define GL_ARB_tessellation_shader 1" +:+
  ln "#define GL_ARB_enhanced_layouts 1" +:+
  ln "#define GL_ARB_texture_cube_map_array 1" +:+
  ln "#define GL_ARB_shader_texture_lod 1" +:+
  ln "#define GL_ARB_explicit_attrib_location 1" +:+
  ln "#define GL_ARB_shader_image_load_store 1" +:+
  ln "#define GL_ARB_shader_atomic_counters 1" +:+
  ln "#define GL_ARB_shader_draw_parameters 1" +:+
  ln "#define GL_ARB_shader_group_vote 1" +:+
  ln "#define GL_ARB_derivative_control 1" +:+
  ln "#define GL_ARB_shader_texture_image_samples 1" +:+
  ln "#define GL_ARB_viewport_array 1" +:+
  ln "#define GL_ARB_gpu_shader_int64 1" +:+
  ln "#define GL_ARB_shader_ballot 1" +:+
  ln "#define GL_ARB_sparse_texture2 1" +:+
  ln "#define GL_ARB_sparse_texture_clamp 1" +:+
  ln "#define GL_ARB_shader_stencil_export 1" +:+
  ln "#define GL_ARB_post_depth_coverage 1" +:+
  ln "#define GL_EXT_shader_non_constant_global_initializers 1" +:+
  ln "#define GL_EXT_shader_image_load_formatted 1" +:+
  ln "#define GL_EXT_post_depth_coverage 1".

(** Lines 328 to 335: continued under [AMD_EXTENSIONS]. *)
Definition preamble_AMD : string :=
  ln "#define GL_AMD_shader_ballot 1" +:+
  ln "#define GL_AMD_shader_trinary_minmax 1" +:+
  ln "#define GL_AMD_shader_explicit_vertex_parameter 1" +:+
  ln "#define GL_AMD_gcn_shader 1" +:+
  ln "#define GL_AMD_gpu_shader_half_float 1" +:+
  ln "#define GL_AMD_texture_gather_bias_lod 1" +:+
  ln "#define GL_AMD_gpu_shader_int16 1" +:+
  ln "#define GL_AMD_shader_image_load_store_lod 1".

(** Lines 339 to 341: continued under [NV_EXTENSIONS]. *)
Definition preamble_NV : string :=
  ln "#define GL_NV_sample_mask_override_coverage 1" +:+
  ln "#define GL_NV_geometry_shader_passthrough 1" +:+
  ln "#define GL_NV_viewport_array2 1".

(** An instance of the profile-to-text map of Versions.h, for the examples. *)
Definition profile_names (p : EProfile) : string :=
  match p with
  | ENoProfile => "none"
  | ECoreProfile => "core"
  | ECompatibilityProfile => "compatibility"
  | EEsProfile => "es"
  end.

(** ** The member functions *)

Section Versions.

(** The two preprocessor switches of the build, and [ProfileName], the
    profile-to-text map that Versions.h declares next to [EProfile]. *)
Variables AMD_EXTENSIONS NV_EXTENSIONS : bool.
Variable ProfileName : EProfile -> string.

Definition defaults : list (string * TExtensionBehavior) :=
  defaults_base
    ++ (if AMD_EXTENSIONS then defaults_AMD else [])
    ++ (if NV_EXTENSIONS then defaults_NV else [])
    ++ defaults_tail.

(** [extensionBehavior[X] = b;] for every pair of the list, in order. *)
Definition assign_all (l : list (string * TExtensionBehavior))
    (m : gmap string TExtensionBehavior) : gmap string TExtensionBehavior :=
  fold_left (fun m kv => <[kv.1 := kv.2]> m) l m.

Definition initializeExtensionBehavior (st : TParseVersions) : TParseVersions :=
  set_extensionBehavior (assign_all defaults (extensionBehavior st)) st.

(** [getPreamble(std::string& preamble)]: the second argument is the content
    of the string the caller passes in, the result its content on return. *)
Definition getPreamble (st : TParseVersions) (preamble : string) : string :=
  let es := EProfile_eqb (profile st) EEsProfile in
  let preamble :=
    if es then preamble_es
    else
      let preamble :=
        preamble_desktop
          +:+ (if AMD_EXTENSIONS then preamble_AMD else "")
          +:+ (if NV_EXTENSIONS then preamble_NV else "") in
      if (150 <=? version st)%Z then
        let preamble := preamble +:+ ln "#define GL_core_profile 1" in
        if EProfile_eqb (profile st) ECompatibilityProfile
        then preamble +:+ ln "#define GL_compatibility_profile 1"
        else preamble
      else preamble in
  let preamble :=
    if (negb es && (140 <=? version st)%Z) || (es && (310 <=? version st)%Z)
    then preamble +:+ ln "#define GL_EXT_device_group 1"
                  +:+ ln "#define GL_EXT_multiview 1"
    else preamble in
  let preamble :=
    if (300 <=? version st)%Z
    then preamble +:+ ln "#define GL_OVR_multiview 1"
                  +:+ ln "#define GL_OVR_multiview2 1"
    else preamble in
  let preamble :=
    preamble +:+ ln "#define GL_GOOGLE_cpp_style_line_directive 1"
             +:+ ln "#define GL_GOOGLE_include_directive 1" in
  let numberBufSize := 12%nat in
  let preamble :=
    if (0 <? vulkanGlsl (spvVersion st))%Z
    then preamble +:+ "#define VULKAN "
                  +:+ ln (snprintf_d numberBufSize (vulkanGlsl (spvVersion st)))
    else preamble in
  if (0 <? openGl (spvVersion st))%Z
  then preamble +:+ "#define GL_SPIRV "
                +:+ ln (snprintf_d numberBufSize (openGl (spvVersion st)))
  else preamble.

(** [profile & profileMask], as a truth value. *)
Definition profile_in_mask (st : TParseVersions) (profileMask : Z) : bool :=
  negb (Z.land (profile_bits (profile st)) profileMask =? 0)%Z.

Definition requireProfile (loc : TSourceLoc) (profileMask : Z)
    (featureDesc : string) (st : TParseVersions) : TParseVersions :=
  if negb (profile_in_mask st profileMask)
  then error loc "not supported with this profile:" featureDesc
         (ProfileName (profile st)) st
  else st.

Definition StageName (stage : EShLanguage) : string :=
  match stage with
  | EShLangVertex => "vertex"
  | EShLangTessControl => "tessellation control"
  | EShLangTessEvaluation => "tessellation evaluation"
  | EShLangGeometry => "geometry"
  | EShLangFragment => "fragment"
  | EShLangCompute => "compute"
  end.

Definition getExtensionBehavior (extension : string)
    (st : TParseVersions) : TExtensionBehavior :=
  match extensionBehavior st !! extension with
  | None => EBhMissing
  | Some b => b
  end.

(** The [for] loop of [profileRequires]: [okay] is the flag it updates. *)
Fixpoint profileRequires_loop (loc : TSourceLoc) (extensions : list string)
    (featureDesc : string) (okay : bool) (st : TParseVersions)
    : bool * TParseVersions :=
  match extensions with
  | [] => (okay, st)
  | e :: rest =>
      match getExtensionBehavior e st with
      | EBhWarn =>
          profileRequires_loop loc rest featureDesc true
            (message EPrefixWarning
               ("extension " +:+ e +:+ " is being used for " +:+ featureDesc)
               loc st)
      | EBhRequire | EBhEnable =>
          profileRequires_loop loc rest featureDesc true st
      | _ => profileRequires_loop loc rest featureDesc okay st
      end
  end.

(** The entry point that takes several extensions: the list stands for the
    array together with [numExtensions]. *)
Definition profileRequires (loc : TSourceLoc) (profileMask minVersion : Z)
    (extensions : list string) (featureDesc : string)
    (st : TParseVersions) : TParseVersions :=
  if profile_in_mask st profileMask then
    let okay := (0 <? minVersion)%Z && (minVersion <=? version st)%Z in
    let '(okay, st) := profileRequires_loop loc extensions featureDesc okay st in
    if negb okay
    then error loc "not supported for this version or the enabled extensions"
           featureDesc "" st
    else st
  else st.

(** The entry point that takes one extension, which may be the null
    pointer: [extension ? 1 : 0] extensions are passed on. *)
Definition profileRequires_single (loc : TSourceLoc) (profileMask minVersion : Z)
    (extension : option string) (featureDesc : string)
    (st : TParseVersions) : TParseVersions :=
  profileRequires loc profileMask minVersion
    (match extension with Some e => [e] | None => [] end) featureDesc st.

Definition requireStage (loc : TSourceLoc) (languageMask : Z)
    (featureDesc : string) (st : TParseVersions) : TParseVersions :=
  if (Z.land (Z.shiftl 1 (language_index (language st))) languageMask =? 0)%Z
  then error loc "not supported in this stage:" featureDesc
         (StageName (language st)) st
  else st.

Definition requireStage_single (loc : TSourceLoc) (stage : EShLanguage)
    (featureDesc : string) (st : TParseVersions) : TParseVersions :=
  requireStage loc (Z.shiftl 1 (language_index stage)) featureDesc st.

Definition checkDeprecated (loc : TSourceLoc) (profileMask depVersion : Z)
    (featureDesc : string) (st : TParseVersions) : TParseVersions :=
  if profile_in_mask st profileMask then
    if (depVersion <=? version st)%Z then
      if forwardCompatible st
      then error loc "deprecated, may be removed in future release"
             featureDesc "" st
      else if negb (suppressWarnings st)
      then message EPrefixWarning
             (featureDesc +:+ " deprecated in version "
                +:+ String_of_int depVersion
                +:+ "; may be removed in future release") loc st
      else st
    else st
  else st.

Definition requireNotRemoved (loc : TSourceLoc) (profileMask removedVersion : Z)
    (featureDesc : string) (st : TParseVersions) : TParseVersions :=
  if profile_in_mask st profileMask then
    if (removedVersion <=? version st)%Z then
      let maxSize := 60%nat in
      let buf :=
        string_take (maxSize - 1)
          (ProfileName (profile st) +:+ " profile; removed in version "
             +:+ String_of_int removedVersion) in
      error loc "no longer supported in" featureDesc buf st
    else st
  else st.

Definition unimplemented (loc : TSourceLoc) (featureDesc : string)
    (st : TParseVersions) : TParseVersions :=
  error loc "feature not yet implemented" featureDesc "" st.

(** The second [for] loop of [checkExtensionsRequested]. *)
Fixpoint checkExtensionsRequested_warn (loc : TSourceLoc)
    (extensions : list string) (featureDesc : string) (warned : bool)
    (st : TParseVersions) : bool * TParseVersions :=
  match extensions with
  | [] => (warned, st)
  | e :: rest =>
      let behavior := getExtensionBehavior e st in
      let promote :=
        TExtensionBehavior_eqb behavior EBhDisable && relaxedErrors st in
      let st :=
        if promote
        then message EPrefixWarning
               "The following extension must be enabled to use this feature:"
               loc st
        else st in
      let behavior := if promote then EBhWarn else behavior in
      if TExtensionBehavior_eqb behavior EBhWarn
      then checkExtensionsRequested_warn loc rest featureDesc true
             (message EPrefixWarning
                ("extension " +:+ e +:+ " is being used for " +:+ featureDesc)
                loc st)
      else checkExtensionsRequested_warn loc rest featureDesc warned st
  end.

Definition checkExtensionsRequested (loc : TSourceLoc)
    (extensions : list string) (featureDesc : string)
    (st : TParseVersions) : bool * TParseVersions :=
  if existsb
       (fun e =>
          let behavior := getExtensionBehavior e st in
          TExtensionBehavior_eqb behavior EBhEnable
          || TExtensionBehavior_eqb behavior EBhRequire)
       extensions
  then (true, st)
  else checkExtensionsRequested_warn loc extensions featureDesc false st.

(** The closing loop of [requireExtensions]: one line per extension. *)
Definition list_extensions (extensions : list string)
    (st : TParseVersions) : TParseVersions :=
  fold_left (fun st e => message_noloc EPrefixNone e st) extensions st.

Definition requireExtensions (loc : TSourceLoc) (extensions : list string)
    (featureDesc : string) (st : TParseVersions) : TParseVersions :=
  let '(requested, st) :=
    checkExtensionsRequested loc extensions featureDesc st in
  if requested then st
  else
    match extensions with
    | [e] => error loc "required extension not requested:" featureDesc e st
    | _ =>
        list_extensions extensions
          (error loc "required extension not requested:" featureDesc
             "Possible extensions include:" st)
    end.

Definition ppRequireExtensions (loc : TSourceLoc) (extensions : list string)
    (featureDesc : string) (st : TParseVersions) : TParseVersions :=
  let '(requested, st) :=
    checkExtensionsRequested loc extensions featureDesc st in
  if requested then st
  else
    match extensions with
    | [e] => ppError loc "required extension not requested:" featureDesc e st
    | _ =>
        list_extensions extensions
          (ppError loc "required extension not requested:" featureDesc
             "Possible extensions include:" st)
    end.

Definition extensionTurnedOn (extension : string) (st : TParseVersions) : bool :=
  match getExtensionBehavior extension st with
  | EBhEnable | EBhRequire | EBhWarn => true
  | _ => false
  end.

Definition extensionsTurnedOn (extensions : list string)
    (st : TParseVersions) : bool :=
  existsb (fun e => extensionTurnedOn e st) extensions.

(** The overload of [updateExtensionBehavior] that takes the behaviour as a
    [TExtensionBehavior].  In the
    branch of an identifier without an entry, the [default] case only holds
    an [assert]; nothing is emitted there. *)
Definition updateExtensionBehavior (extension : string)
    (behavior : TExtensionBehavior) (st : TParseVersions) : TParseVersions :=
  if String.eqb extension "all" then
    if TExtensionBehavior_eqb behavior EBhRequire
       || TExtensionBehavior_eqb behavior EBhEnable
    then error (getCurrentLoc st)
           "extension 'all' cannot have 'require' or 'enable' behavior"
           "#extension" "" st
    else set_extensionBehavior ((fun _ => behavior) <$> extensionBehavior st) st
  else
    match extensionBehavior st !! extension with
    | None =>
        match behavior with
        | EBhRequire =>
            error (getCurrentLoc st) "extension not supported:" "#extension"
              extension st
        | EBhEnable | EBhWarn | EBhDisable =>
            warn (getCurrentLoc st) "extension not supported:" "#extension"
              extension st
        | _ => st
        end
    | Some previous =>
        let st :=
          if TExtensionBehavior_eqb previous EBhDisablePartial
          then warn (getCurrentLoc st) "extension is only partially supported:"
                 "#extension" extension st
          else st in
        let st :=
          if TExtensionBehavior_eqb behavior EBhEnable
             || TExtensionBehavior_eqb behavior EBhRequire
          then set_requestedExtensions ({[extension]} ∪ requestedExtensions st) st
          else st in
        set_extensionBehavior (<[extension := behavior]> (extensionBehavior st)) st
    end.

(** The translation of the behaviour text at the head of the overload of
    [updateExtensionBehavior] that takes the behaviour as text; [None] is
    the branch that reports the text and returns. *)
Definition behavior_of_string (behaviorString : string)
    : option TExtensionBehavior :=
  if String.eqb "require" behaviorString then Some EBhRequire
  else if String.eqb "enable" behaviorString then Some EBhEnable
  else if String.eqb "disable" behaviorString then Some EBhDisable
  else if String.eqb "warn" behaviorString then Some EBhWarn
  else None.

(** The identifiers to which the chain of [strcmp] tests at the end of that
    function passes the directive on, in the order of the calls. *)
Definition propagates_to (extension : string) : list string :=
  if String.eqb extension "GL_ANDROID_extension_pack_es31a" then
    [ "GL_KHR_blend_equation_advanced";
      "GL_OES_sample_variables";
      "GL_OES_shader_image_atomic";
      "GL_OES_shader_multisample_interpolation";
      "GL_OES_texture_storage_multisample_2d_array";
      "GL_EXT_geometry_shader";
      "GL_EXT_gpu_shader5";
      "GL_EXT_primitive_bounding_box";
      "GL_EXT_shader_io_blocks";
      "GL_EXT_tessellation_shader";
      "GL_EXT_texture_buffer";
      "GL_EXT_texture_cube_map_array" ]
  else if String.eqb extension "GL_EXT_geometry_shader" then
    [ "GL_EXT_shader_io_blocks" ]
  else if String.eqb extension "GL_OES_geometry_shader" then
    [ "GL_OES_shader_io_blocks" ]
  else if String.eqb extension "GL_EXT_tessellation_shader" then
    [ "GL_EXT_shader_io_blocks" ]
  else if String.eqb extension "GL_OES_tessellation_shader" then
    [ "GL_OES_shader_io_blocks" ]
  else if String.eqb extension "GL_GOOGLE_include_directive" then
    [ "GL_GOOGLE_cpp_style_line_directive" ]
  else [].

(** The overload of [updateExtensionBehavior] that takes a line number and
    the behaviour as text.  The function
    calls itself on the identifiers of [propagates_to]; [fuel] bounds the
    depth of these calls and [None] means the bound was reached. *)
Fixpoint updateExtensionBehavior_str (fuel : nat) (line : Z)
    (extension behaviorString : string) (st : TParseVersions)
    : option TParseVersions :=
  match fuel with
  | O => None
  | S fuel =>
      match behavior_of_string behaviorString with
      | None =>
          Some (error (getCurrentLoc st) "behavior not supported:" "#extension"
                  behaviorString st)
      | Some behavior =>
          fold_left
            (fun acc e =>
               match acc with
               | Some st => updateExtensionBehavior_str fuel line e behaviorString st
               | None => None
               end)
            (propagates_to extension)
            (Some (updateExtensionBehavior extension behavior st))
      end
  end.

(** Three nested calls are the deepest the chain of tests allows (the
    extension pack, one of its shaders, the io blocks). *)
Definition directive_depth : nat := 3.

(** The directive processor: the function above, run to completion. *)
Definition applyDirective (line : Z) (extension behaviorString : string)
    (st : TParseVersions) : TParseVersions :=
  match updateExtensionBehavior_str directive_depth line extension behaviorString st with
  | Some st' => st'
  | None => st
  end.

Definition fullIntegerCheck (loc : TSourceLoc) (op : string)
    (st : TParseVersions) : TParseVersions :=
  let st := profileRequires_single loc (profile_bits ENoProfile) 130 None op st in
  profileRequires_single loc (profile_bits EEsProfile) 300 None op st.

Definition doubleCheck (loc : TSourceLoc) (op : string)
    (st : TParseVersions) : TParseVersions :=
  let st :=
    requireProfile loc
      (Z.lor (profile_bits ECoreProfile) (profile_bits ECompatibilityProfile))
      op st in
  let st := profileRequires_single loc (profile_bits ECoreProfile) 400 None op st in
  profileRequires_single loc (profile_bits ECompatibilityProfile) 400 None op st.

Definition int64Check (loc : TSourceLoc) (op : string) (builtIn : bool)
    (st : TParseVersions) : TParseVersions :=
  if negb builtIn then
    let st := requireExtensions loc [E_GL_ARB_gpu_shader_int64] "shader int64" st in
    let st :=
      requireProfile loc
        (Z.lor (profile_bits ECoreProfile) (profile_bits ECompatibilityProfile))
        op st in
    let st := profileRequires_single loc (profile_bits ECoreProfile) 450 None op st in
    profileRequires_single loc (profile_bits ECompatibilityProfile) 450 None op st
  else st.

(** [int16Check] and [float16Check] exist under [AMD_EXTENSIONS] only. *)
Definition int16Check (loc : TSourceLoc) (op : string) (builtIn : bool)
    (st : TParseVersions) : TParseVersions :=
  if negb builtIn then
    let st := requireExtensions loc [E_GL_AMD_gpu_shader_int16] "shader int16" st in
    let st :=
      requireProfile loc
        (Z.lor (profile_bits ECoreProfile) (profile_bits ECompatibilityProfile))
        op st in
    let st := profileRequires_single loc (profile_bits ECoreProfile) 450 None op st in
    profileRequires_single loc (profile_bits ECompatibilityProfile) 450 None op st
  else st.

Definition float16Check (loc : TSourceLoc) (op : string) (builtIn : bool)
    (st : TParseVersions) : TParseVersions :=
  if negb builtIn then
    let st :=
      requireExtensions loc [E_GL_AMD_gpu_shader_half_float] "shader half float" st in
    let st :=
      requireProfile loc
        (Z.lor (profile_bits ECoreProfile) (profile_bits ECompatibilityProfile))
        op st in
    let st := profileRequires_single loc (profile_bits ECoreProfile) 450 None op st in
    profileRequires_single loc (profile_bits ECompatibilityProfile) 450 None op st
  else st.

Definition spvRemoved (loc : TSourceLoc) (op : string)
    (st : TParseVersions) : TParseVersions :=
  if negb (spv (spvVersion st) =? 0)%Z
  then error loc "not allowed when generating SPIR-V" op "" st
  else st.

Definition vulkanRemoved (loc : TSourceLoc) (op : string)
    (st : TParseVersions) : TParseVersions :=
  if (100 <=? vulkan (spvVersion st))%Z
  then error loc "not allowed when using GLSL for Vulkan" op "" st
  else st.

Definition requireVulkan (loc : TSourceLoc) (op : string)
    (st : TParseVersions) : TParseVersions :=
  if (vulkan (spvVersion st) =? 0)%Z
  then error loc "only allowed when using GLSL for Vulkan" op "" st
  else st.

Definition requireSpv (loc : TSourceLoc) (op : string)
    (st : TParseVersions) : TParseVersions :=
  if (spv (spvVersion st) =? 0)%Z
  then error loc "only allowed when generating SPIR-V" op "" st
  else st.

(** ** Operations of a compile unit *)

(** The calls a parser can make on the gate and on the directive processor
    between two requests for the preamble. *)
Inductive GateOp : Type :=
| OpInitializeExtensionBehavior
| OpRequireProfile (loc : TSourceLoc) (profileMask : Z) (featureDesc : string)
| OpProfileRequires (loc : TSourceLoc) (profileMask minVersion : Z)
    (extensions : list string) (featureDesc : string)
| OpProfileRequiresSingle (loc : TSourceLoc) (profileMask minVersion : Z)
    (extension : option string) (featureDesc : string)
| OpRequireStage (loc : TSourceLoc) (languageMask : Z) (featureDesc : string)
| OpCheckDeprecated (loc : TSourceLoc) (profileMask depVersion : Z)
    (featureDesc : string)
| OpRequireNotRemoved (loc : TSourceLoc) (profileMask removedVersion : Z)
    (featureDesc : string)
| OpUnimplemented (loc : TSourceLoc) (featureDesc : string)
| OpRequireExtensions (loc : TSourceLoc) (extensions : list string)
    (featureDesc : string)
| OpPpRequireExtensions (loc : TSourceLoc) (extensions : list string)
    (featureDesc : string)
| OpUpdateExtensionBehavior (extension : string) (behavior : TExtensionBehavior)
| OpApplyDirective (line : Z) (extension behaviorString : string)
| OpFullIntegerCheck (loc : TSourceLoc) (op : string)
| OpDoubleCheck (loc : TSourceLoc) (op : string)
| OpInt64Check (loc : TSourceLoc) (op : string) (builtIn : bool)
| OpInt16Check (loc : TSourceLoc) (op : string) (builtIn : bool)
| OpFloat16Check (loc : TSourceLoc) (op : string) (builtIn : bool)
| OpSpvRemoved (loc : TSourceLoc) (op : string)
| OpVulkanRemoved (loc : TSourceLoc) (op : string)
| OpRequireVulkan (loc : TSourceLoc) (op : string)
| OpRequireSpv (loc : TSourceLoc) (op : string).

Definition run_op (o : GateOp) (st : TParseVersions) : TParseVersions :=
  match o with
  | OpInitializeExtensionBehavior => initializeExtensionBehavior st
  | OpRequireProfile loc m d => requireProfile loc m d st
  | OpProfileRequires loc m v es d => profileRequires loc m v es d st
  | OpProfileRequiresSingle loc m v e d => profileRequires_single loc m v e d st
  | OpRequireStage loc m d => requireStage loc m d st
  | OpCheckDeprecated loc m v d => checkDeprecated loc m v d st
  | OpRequireNotRemoved loc m v d => requireNotRemoved loc m v d st
  | OpUnimplemented loc d => unimplemented loc d st
  | OpRequireExtensions loc es d => requireExtensions loc es d st
  | OpPpRequireExtensions loc es d => ppRequireExtensions loc es d st
  | OpUpdateExtensionBehavior e b => updateExtensionBehavior e b st
  | OpApplyDirective line e b => applyDirective line e b st
  | OpFullIntegerCheck loc op => fullIntegerCheck loc op st
  | OpDoubleCheck loc op => doubleCheck loc op st
  | OpInt64Check loc op b => int64Check loc op b st
  | OpInt16Check loc op b => int16Check loc op b st
  | OpFloat16Check loc op b => float16Check loc op b st
  | OpSpvRemoved loc op => spvRemoved loc op st
  | OpVulkanRemoved loc op => vulkanRemoved loc op st
  | OpRequireVulkan loc op => requireVulkan loc op st
  | OpRequireSpv loc op => requireSpv loc op st
  end.

Definition run_ops (ops : list GateOp) (st : TParseVersions) : TParseVersions :=
  fold_left (fun st o => run_op o st) ops st.

(** ** Vocabulary of the specification *)

(** The Extension Registry: the table that [initializeExtensionBehavior]
    builds from nothing. *)
Definition Registry : gmap string TExtensionBehavior := assign_all defaults ∅.

(** The Behavior State of a compile unit has one slot per registered
    identifier. *)
Definition registered (st : TParseVersions) : Prop :=
  dom (extensionBehavior st) = dom Registry.

(** Membership of a profile in a mask, read off the mask's bits. *)
Definition profile_allowed (p : EProfile) (profileMask : Z) : bool :=
  Z.testbit profileMask (profile_index p).

(** What a call has added to the sink. *)
Definition emitted (before after : TParseVersions) : list SinkCall :=
  drop (length (infoSink before)) (infoSink after).

(** The members that make up the compile configuration. *)
Definition configuration (st : TParseVersions)
    : EProfile * Z * EShLanguage * SpvVersion * bool * bool * bool * TSourceLoc :=
  (profile st, version st, language st, spvVersion st, forwardCompatible st,
   suppressWarnings st, relaxedErrors st, currentLoc st).

(** The diagnostics of the taxonomy, as calls on the sink. *)
Definition ProfileError (loc : TSourceLoc) (featureDesc name : string) : SinkCall :=
  CallError loc "not supported with this profile:" featureDesc name.

Definition VersionOrExtensionError (loc : TSourceLoc) (featureDesc : string)
    : SinkCall :=
  CallError loc "not supported for this version or the enabled extensions"
    featureDesc "".

Definition UsageWarning (loc : TSourceLoc) (featureDesc extension : string)
    : SinkCall :=
  CallMessage EPrefixWarning
    ("extension " +:+ extension +:+ " is being used for " +:+ featureDesc)
    (Some loc).

Definition MustBeEnabledNotice (loc : TSourceLoc) : SinkCall :=
  CallMessage EPrefixWarning
    "The following extension must be enabled to use this feature:" (Some loc).

Definition DeprecationError (loc : TSourceLoc) (featureDesc : string) : SinkCall :=
  CallError loc "deprecated, may be removed in future release" featureDesc "".

Definition DeprecationWarning (loc : TSourceLoc) (featureDesc : string)
    (depVersion : Z) : SinkCall :=
  CallMessage EPrefixWarning
    (featureDesc +:+ " deprecated in version " +:+ String_of_int depVersion
       +:+ "; may be removed in future release") (Some loc).

Definition MissingExtensionError (loc : TSourceLoc)
    (featureDesc extension : string) : SinkCall :=
  CallError loc "required extension not requested:" featureDesc extension.

Definition InvalidAllBehaviorError (loc : TSourceLoc) : SinkCall :=
  CallError loc "extension 'all' cannot have 'require' or 'enable' behavior"
    "#extension" "".

Definition UnsupportedExtensionError (loc : TSourceLoc) (extension : string)
    : SinkCall :=
  CallError loc "extension not supported:" "#extension" extension.

Definition UnsupportedExtensionWarning (loc : TSourceLoc) (extension : string)
    : SinkCall :=
  CallWarn loc "extension not supported:" "#extension" extension.

(** An extension permits a feature when its stored behaviour is Enable,
    Require or Warn. *)
Definition permits (st : TParseVersions) (extension : string) : bool :=
  match extensionBehavior st !! extension with
  | Some EBhEnable | Some EBhRequire | Some EBhWarn => true
  | _ => false
  end.

Definition stored_warn (st : TParseVersions) (extension : string) : bool :=
  match extensionBehavior st !! extension with
  | Some EBhWarn => true
  | _ => false
  end.

(** The condition under which [profileRequires] accepts a feature. *)
Definition permitted (st : TParseVersions) (minVersion : Z)
    (extensions : list string) : bool :=
  ((0 <? minVersion)%Z && (minVersion <=? version st)%Z)
  || existsb (permits st) extensions.

(** The loop over the identifiers a directive is passed on to. *)
Definition pass_on (f : string -> TParseVersions -> option TParseVersions)
    (l : list string) (acc : option TParseVersions) : option TParseVersions :=
  fold_left
    (fun acc e => match acc with Some st => f e st | None => None end) l acc.

(** [stores_only b s s']: from [s] to [s'] a slot of the table either keeps
    its behaviour or receives [b], and no slot is added. *)
Definition stores_only (b : TExtensionBehavior) (s s' : TParseVersions) : Prop :=
  forall k : string,
    extensionBehavior s' !! k = extensionBehavior s !! k
    \/ (is_Some (extensionBehavior s !! k) /\ extensionBehavior s' !! k = Some b).

(** The twelve identifiers that the extension pack passes a directive to. *)
Definition extension_pack_es31a_implied : list string :=
  [ "GL_KHR_blend_equation_advanced";
    "GL_OES_sample_variables";
    "GL_OES_shader_image_atomic";
    "GL_OES_shader_multisample_interpolation";
    "GL_OES_texture_storage_multisample_2d_array";
    "GL_EXT_geometry_shader";
    "GL_EXT_gpu_shader5";
    "GL_EXT_primitive_bounding_box";
    "GL_EXT_shader_io_blocks";
    "GL_EXT_tessellation_shader";
    "GL_EXT_texture_buffer";
    "GL_EXT_texture_cube_map_array" ].

(** What [requireExtensions] goes by: an extension stored as Enable or
    Require is requested; one stored as Warn, or stored as Disable under
    [relaxedErrors], gives warnings and is let through. *)
Definition requested (st : TParseVersions) (extension : string) : bool :=
  match extensionBehavior st !! extension with
  | Some EBhEnable | Some EBhRequire => true
  | _ => false
  end.

Definition promoted (st : TParseVersions) (extension : string) : bool :=
  match extensionBehavior st !! extension with
  | Some EBhDisable => relaxedErrors st
  | _ => false
  end.

Definition let_through (st : TParseVersions) (extension : string) : bool :=
  promoted st extension || stored_warn st extension.

Definition warn_calls (loc : TSourceLoc) (featureDesc : string)
    (st : TParseVersions) (extension : string) : list SinkCall :=
  (if promoted st extension then [MustBeEnabledNotice loc] else [])
    ++ (if let_through st extension
        then [UsageWarning loc featureDesc extension] else []).

(** The report of [requireExtensions] when nothing lets the feature through. *)
Definition missing_report (loc : TSourceLoc) (featureDesc : string)
    (extensions : list string) : list SinkCall :=
  match extensions with
  | [e] => [MissingExtensionError loc featureDesc e]
  | _ =>
      CallError loc "required extension not requested:" featureDesc
        "Possible extensions include:"
      :: map (fun e => CallMessage EPrefixNone e None) extensions
  end.

(** *** Lines of the preamble *)

Fixpoint no_newlineb (s : string) : bool :=
  match s with
  | EmptyString => true
  | String c s' => negb (Ascii.eqb c newline) && no_newlineb s'
  end.

(** A text is terminated when it is empty or ends in a new-line. *)
Fixpoint terminatedb (s : string) : bool :=
  match s with
  | EmptyString => true
  | String c s' =>
      match s' with
      | EmptyString => Ascii.eqb c newline
      | String _ _ => terminatedb s'
      end
  end.

Definition inb (l : string) (ls : list string) : bool :=
  existsb (String.eqb l) ls.

(** Every macro-definition line that a preamble of the ES profile can hold,
    the two target lines apart. *)
Definition es_macro_lines : list string :=
  lines
    (preamble_es
       +:+ ln "#define GL_EXT_device_group 1"
       +:+ ln "#define GL_EXT_multiview 1"
       +:+ ln "#define GL_OVR_multiview 1"
       +:+ ln "#define GL_OVR_multiview2 1"
       +:+ ln "#define GL_GOOGLE_cpp_style_line_directive 1"
       +:+ ln "#define GL_GOOGLE_include_directive 1").

(** The same for the other profiles, over all builds. *)
Definition desktop_macro_lines : list string :=
  lines
    (preamble_desktop +:+ preamble_AMD +:+ preamble_NV
       +:+ ln "#define GL_core_profile 1"
       +:+ ln "#define GL_compatibility_profile 1"
       +:+ ln "#define GL_EXT_device_group 1"
       +:+ ln "#define GL_EXT_multiview 1"
       +:+ ln "#define GL_OVR_multiview 1"
       +:+ ln "#define GL_OVR_multiview2 1"
       +:+ ln "#define GL_GOOGLE_cpp_style_line_directive 1"
       +:+ ln "#define GL_GOOGLE_include_directive 1").

(** The lines that do not depend on the profile being ES or not. *)
Definition shared_macro_lines : list string :=
  [ "#define GL_FRAGMENT_PRECISION_HIGH 1";
    "#define GL_EXT_shader_non_constant_global_initializers 1";
    "#define GL_EXT_device_group 1";
    "#define GL_EXT_multiview 1";
    "#define GL_OVR_multiview 1";
    "#define GL_OVR_multiview2 1";
    "#define GL_GOOGLE_cpp_style_line_directive 1";
    "#define GL_GOOGLE_include_directive 1" ].

(** The lines for the target: [VULKAN] and [GL_SPIRV] with their number. *)
Definition target_line (l : string) : Prop :=
  exists n : string, l = "#define VULKAN " +:+ n \/ l = "#define GL_SPIRV " +:+ n.

(** [covered S p]: the text [p] is terminated and each of its lines is in
    [S] or is a target line. *)
Definition covered (S : list string) (p : string) : Prop :=
  terminatedb p = true
  /\ forall l, In l (lines p) -> In l S \/ target_line l.

(** [starts h p]: the text [p] begins with the text [h]. *)
Definition starts (h p : string) : Prop := exists r : string, p = h +:+ r.

(** A compile unit at its start: the table holds the defaults, nothing has
    been requested and the sink is empty. *)
Definition compile_unit (p : EProfile) (v : Z) (target : SpvVersion)
    (forwardCompat suppress relaxed : bool) : TParseVersions :=
  initializeExtensionBehavior
    (mkTParseVersions p v EShLangFragment target forwardCompat suppress relaxed
       0%Z ∅ ∅ []).

(** The transitive implication set of an identifier: what is reached from
    it along the edges of [propagates_to]. *)
Inductive implies : string -> string -> Prop :=
| implies_edge u e : In e (propagates_to u) -> implies u e
| implies_chain u v e : In v (propagates_to u) -> implies v e -> implies u e.

(** The depth of the calls that a directive on [extension] makes. *)
Definition depth (extension : string) : nat :=
  if String.eqb extension "GL_ANDROID_extension_pack_es31a" then 3
  else match propagates_to extension with
       | [] => 1
       | _ => 2
       end.

(** ** Further vocabulary *)

(** The identifiers on which a directive on [u] calls the single update
    within [fuel] nested calls, [u] itself first. *)
Fixpoint reaches (fuel : nat) (u : string) : list string :=
  match fuel with
  | O => []
  | S fuel => u :: flat_map (reaches fuel) (propagates_to u)
  end.

(** A run of directives, in the order of the source text. *)
Definition apply_directives (ds : list (Z * string * string))
    (st : TParseVersions) : TParseVersions :=
  fold_left (fun st d => applyDirective d.1.1 d.1.2 d.2 st) ds st.

(** No slot of the table holds [EBhMissing]. *)
Definition missing_free (st : TParseVersions) : Prop :=
  forall k : string, extensionBehavior st !! k <> Some EBhMissing.

(** The call [ppError] in place of [error]. *)
Definition to_pp (c : SinkCall) : SinkCall :=
  match c with
  | CallError loc r t e => CallPpError loc r t e
  | _ => c
  end.

(** The operations that only check: all but the three that write the table. *)
Definition is_check (o : GateOp) : bool :=
  match o with
  | OpInitializeExtensionBehavior
  | OpUpdateExtensionBehavior _ _
  | OpApplyDirective _ _ _ => false
  | _ => true
  end.

(** Membership of a stage in a stage mask, read off the mask's bits. *)
Definition stage_allowed (l : EShLanguage) (languageMask : Z) : bool :=
  Z.testbit languageMask (language_index l).

Definition EShLanguage_eqb (a b : EShLanguage) : bool :=
  (language_index a =? language_index b)%Z.

Definition StageError (loc : TSourceLoc) (featureDesc name : string) : SinkCall :=
  CallError loc "not supported in this stage:" featureDesc name.

Definition PartialSupportWarning (loc : TSourceLoc) (extension : string)
    : SinkCall :=
  CallWarn loc "extension is only partially supported:" "#extension" extension.

Definition InvalidBehaviorError (loc : TSourceLoc) (behaviorString : string)
    : SinkCall :=
  CallError loc "behavior not supported:" "#extension" behaviorString.

(** The behaviours that make a directive register its identifier as
    requested. *)
Definition requests (b : TExtensionBehavior) : bool :=
  TExtensionBehavior_eqb b EBhEnable || TExtensionBehavior_eqb b EBhRequire.

(** [requests_only b s s']: from [s] to [s'] the table changes as in
    [stores_only], no identifier leaves the requested set, and one that
    enters it has its slot set to [b], a behaviour that requests. *)
Definition requests_only (b : TExtensionBehavior) (s s' : TParseVersions) : Prop :=
  stores_only b s s'
  /\ requestedExtensions s ⊆ requestedExtensions s'
  /\ forall k : string,
       k ∈ requestedExtensions s' ->
       k ∈ requestedExtensions s
       \/ (requests b = true /\ extensionBehavior s' !! k = Some b).

(** [only_sink s s']: [s'] is [s] with a longer sink and nothing else
    changed. *)
Definition only_sink (s s' : TParseVersions) : Prop :=
  set_infoSink (infoSink s) s' = s
  /\ exists l : list SinkCall, infoSink s' = infoSink s ++ l.

(** [sink_grows s s']: the calls recorded in [s] are still there in [s'], in
    the same order, before anything new. *)
Definition sink_grows (s s' : TParseVersions) : Prop :=
  exists l : list SinkCall, infoSink s' = infoSink s ++ l.

Definition RemovedFeatureError (loc : TSourceLoc) (featureDesc buf : string)
    : SinkCall :=
  CallError loc "no longer supported in" featureDesc buf.

(** What a check of a basic type asks of the profile and the version: an
    error about the profile outside core and compatibility, one about the
    version below [minVersion] inside. *)
Definition type_check_calls (ProfileText : EProfile -> string)
    (loc : TSourceLoc) (op : string) (minVersion : Z)
    (st : TParseVersions) : list SinkCall :=
  match profile st with
  | ECoreProfile | ECompatibilityProfile =>
      if (minVersion <=? version st)%Z then []
      else [VersionOrExtensionError loc op]
  | p => [ProfileError loc op (ProfileText p)]
  end.

(** *** The preamble, line by line *)

(** The lines of the preamble, in the order in which [getPreamble] appends
    them. *)
Definition preamble_lines (st : TParseVersions) : list string :=
  let es := EProfile_eqb (profile st) EEsProfile in
  (if es then lines preamble_es
   else lines preamble_desktop
          ++ (if AMD_EXTENSIONS then lines preamble_AMD else [])
          ++ (if NV_EXTENSIONS then lines preamble_NV else [])
          ++ (if (150 <=? version st)%Z
              then "#define GL_core_profile 1"
                   :: (if EProfile_eqb (profile st) ECompatibilityProfile
                       then ["#define GL_compatibility_profile 1"] else [])
              else []))
  ++ (if (negb es && (140 <=? version st)%Z) || (es && (310 <=? version st)%Z)
      then ["#define GL_EXT_device_group 1"; "#define GL_EXT_multiview 1"]
      else [])
  ++ (if (300 <=? version st)%Z
      then ["#define GL_OVR_multiview 1"; "#define GL_OVR_multiview2 1"]
      else [])
  ++ ["#define GL_GOOGLE_cpp_style_line_directive 1";
      "#define GL_GOOGLE_include_directive 1"]
  ++ (if (0 <? vulkanGlsl (spvVersion st))%Z
      then ["#define VULKAN " +:+ snprintf_d 12 (vulkanGlsl (spvVersion st))]
      else [])
  ++ (if (0 <? openGl (spvVersion st))%Z
      then ["#define GL_SPIRV " +:+ snprintf_d 12 (openGl (spvVersion st))]
      else []).

(** The text made of the given lines, each ended by a new-line. *)
Fixpoint unlines (ls : list string) : string :=
  match ls with
  | [] => EmptyString
  | l :: ls => ln l +:+ unlines ls
  end.

(** [has_lines L p]: the text [p] is terminated and its lines are [L]. *)
Definition has_lines (L : list string) (p : string) : Prop :=
  terminatedb p = true /\ lines p = L.

(** Every line that a preamble can hold, in the order of [preamble_lines],
    with [v] and [g] for the two target lines: for the ES profile and for the
    other profiles. *)
Definition all_es_lines (v g : string) : list string :=
  lines preamble_es
    ++ ["#define GL_EXT_device_group 1"; "#define GL_EXT_multiview 1"]
    ++ ["#define GL_OVR_multiview 1"; "#define GL_OVR_multiview2 1"]
    ++ ["#define GL_GOOGLE_cpp_style_line_directive 1";
        "#define GL_GOOGLE_include_directive 1"]
    ++ [v] ++ [g].

Definition all_desktop_lines (v g : string) : list string :=
  (lines preamble_desktop ++ lines preamble_AMD ++ lines preamble_NV
     ++ ["#define GL_core_profile 1"; "#define GL_compatibility_profile 1"])
    ++ ["#define GL_EXT_device_group 1"; "#define GL_EXT_multiview 1"]
    ++ ["#define GL_OVR_multiview 1"; "#define GL_OVR_multiview2 1"]
    ++ ["#define GL_GOOGLE_cpp_style_line_directive 1";
        "#define GL_GOOGLE_include_directive 1"]
    ++ [v] ++ [g].

Fixpoint nodupb (ls : list string) : bool :=
  match ls with
  | [] => true
  | l :: ls => negb (inb l ls) && nodupb ls
  end.


(** ** Basic facts about the state *)

Lemma infoSink_emit c st : infoSink (emit c st) = infoSink st ++ [c].
Proof. reflexivity. Qed.

Lemma extensionBehavior_emit c st :
  extensionBehavior (emit c st) = extensionBehavior st.
Proof. reflexivity. Qed.

Lemma configuration_emit c st : configuration (emit c st) = configuration st.
Proof. reflexivity. Qed.

Lemma getExtensionBehavior_emit e c st :
  getExtensionBehavior e (emit c st) = getExtensionBehavior e st.
Proof. reflexivity. Qed.

Lemma emitted_extends before after l :
  infoSink after = infoSink before ++ l -> emitted before after = l.
Proof.
  intros H. unfold emitted. rewrite H. apply drop_app_length.
Qed.

Lemma emitted_refl st : emitted st st = [].
Proof. apply emitted_extends. by rewrite app_nil_r. Qed.

Lemma emitted_emit c st : emitted st (emit c st) = [c].
Proof. by apply emitted_extends. Qed.

(** The bit test of the source and membership in the mask agree. *)
Lemma profile_in_mask_allowed st profileMask :
  profile_in_mask st profileMask = profile_allowed (profile st) profileMask.
Proof.
  unfold profile_in_mask, profile_allowed, profile_bits.
  assert (Hi : (0 <= profile_index (profile st))%Z)
    by (destruct (profile st); simpl; lia).
  revert Hi. generalize (profile_index (profile st)). intros i Hi.
  rewrite Z.shiftl_1_l.
  destruct (Z.testbit profileMask i) eqn:Hb.
  - apply negb_true_iff, Z.eqb_neq. intros H0.
    assert (Ht : Z.testbit (Z.land (2 ^ i) profileMask) i = true).
    { rewrite Z.land_spec, Hb, Z.pow2_bits_true; [reflexivity | lia]. }
    rewrite H0, Z.bits_0 in Ht. discriminate.
  - apply negb_false_iff, Z.eqb_eq. apply Z.bits_inj'. intros n Hn.
    rewrite Z.land_spec, Z.bits_0.
    destruct (Z.eq_dec n i) as [-> | Hne].
    + rewrite Hb. apply andb_false_r.
    + rewrite Z.pow2_bits_false; [reflexivity | lia].
Qed.

(** ** requireProfile *)

(** C9: [requireProfile] adds exactly one [ProfileError] to the sink when the
    active profile is not in the mask and adds nothing when it is; the rest
    of the state is left as it was, and neither the version nor the stored
    behaviours take part in the outcome. *)
Theorem requireProfile_error_iff_not_in_mask loc profileMask featureDesc st :
  requireProfile loc profileMask featureDesc st =
    (if profile_allowed (profile st) profileMask then st
     else emit (ProfileError loc featureDesc (ProfileName (profile st))) st)
  /\ emitted st (requireProfile loc profileMask featureDesc st) =
       (if profile_allowed (profile st) profileMask then []
        else [ProfileError loc featureDesc (ProfileName (profile st))])
  /\ (forall st2 : TParseVersions,
        profile st2 = profile st ->
        emitted st2 (requireProfile loc profileMask featureDesc st2) =
        emitted st (requireProfile loc profileMask featureDesc st)).
Proof.
  assert (E : forall s,
    requireProfile loc profileMask featureDesc s =
      (if profile_allowed (profile s) profileMask then s
       else emit (ProfileError loc featureDesc (ProfileName (profile s))) s)).
  { intros s. unfold requireProfile. rewrite profile_in_mask_allowed.
    destruct (profile_allowed (profile s) profileMask); reflexivity. }
  assert (F : forall s,
    emitted s (requireProfile loc profileMask featureDesc s) =
      (if profile_allowed (profile s) profileMask then []
       else [ProfileError loc featureDesc (ProfileName (profile s))])).
  { intros s. rewrite E.
    destruct (profile_allowed (profile s) profileMask);
      [apply emitted_refl | apply emitted_emit]. }
  split; [apply E | split; [apply F |]].
  intros st2 Hp. rewrite !F, Hp. reflexivity.
Qed.

Lemma set_infoSink_same st : set_infoSink (infoSink st) st = st.
Proof. destruct st; reflexivity. Qed.

Lemma set_infoSink_nil st : set_infoSink (infoSink st ++ []) st = st.
Proof. rewrite app_nil_r. apply set_infoSink_same. Qed.

(** ** checkDeprecated *)

(** C7: [checkDeprecated] adds nothing to the sink when the active profile is
    not in the mask or the version is below the deprecation version;
    otherwise it adds a [DeprecationError] under [forwardCompatible], and
    without it a [DeprecationWarning], or nothing when warnings are
    suppressed.  Nothing but the sink changes. *)
Theorem checkDeprecated_outcome loc profileMask depVersion featureDesc st :
  emitted st (checkDeprecated loc profileMask depVersion featureDesc st) =
    (if profile_allowed (profile st) profileMask
        && (depVersion <=? version st)%Z
     then if forwardCompatible st then [DeprecationError loc featureDesc]
          else if suppressWarnings st then []
          else [DeprecationWarning loc featureDesc depVersion]
     else [])
  /\ checkDeprecated loc profileMask depVersion featureDesc st =
       set_infoSink
         (infoSink st
            ++ emitted st (checkDeprecated loc profileMask depVersion featureDesc st))
         st.
Proof.
  assert (E : emitted st (checkDeprecated loc profileMask depVersion featureDesc st) =
    (if profile_allowed (profile st) profileMask
        && (depVersion <=? version st)%Z
     then if forwardCompatible st then [DeprecationError loc featureDesc]
          else if suppressWarnings st then []
          else [DeprecationWarning loc featureDesc depVersion]
     else [])).
  { unfold checkDeprecated. rewrite profile_in_mask_allowed.
    destruct (profile_allowed (profile st) profileMask); simpl;
      [| apply emitted_refl].
    destruct (depVersion <=? version st)%Z; [| apply emitted_refl].
    destruct (forwardCompatible st); [apply emitted_emit |].
    destruct (suppressWarnings st); simpl;
      [apply emitted_refl | apply emitted_emit]. }
  split; [exact E |].
  rewrite E. unfold checkDeprecated. rewrite profile_in_mask_allowed.
  destruct (profile_allowed (profile st) profileMask); simpl;
    [| by rewrite set_infoSink_nil].
  destruct (depVersion <=? version st)%Z; [| by rewrite set_infoSink_nil].
  destruct (forwardCompatible st); [reflexivity |].
  destruct (suppressWarnings st); simpl;
    [by rewrite set_infoSink_nil | reflexivity].
Qed.

(** ** profileRequires *)

Lemma profileRequires_loop_spec loc extensions featureDesc :
  forall okay st,
    profileRequires_loop loc extensions featureDesc okay st =
      (okay || existsb (permits st) extensions,
       set_infoSink
         (infoSink st
            ++ map (UsageWarning loc featureDesc)
                 (List.filter (stored_warn st) extensions))
         st).
Proof.
  induction extensions as [| e rest IH]; intros okay st; simpl.
  - by rewrite orb_false_r, set_infoSink_nil.
  - unfold getExtensionBehavior, permits at 1, stored_warn at 1.
    destruct (extensionBehavior st !! e) as [[]|] eqn:He; simpl;
      rewrite IH; try (rewrite ?orb_true_r; reflexivity).
    rewrite orb_true_r. f_equal. unfold message.
    rewrite infoSink_emit, <- app_assoc. reflexivity.
Qed.

Lemma profileRequires_emitted loc profileMask minVersion extensions featureDesc st :
  emitted st (profileRequires loc profileMask minVersion extensions featureDesc st) =
    (if profile_allowed (profile st) profileMask
     then map (UsageWarning loc featureDesc)
            (List.filter (stored_warn st) extensions)
          ++ (if permitted st minVersion extensions then []
              else [VersionOrExtensionError loc featureDesc])
     else []).
Proof.
  unfold profileRequires. rewrite profile_in_mask_allowed.
  destruct (profile_allowed (profile st) profileMask); [| apply emitted_refl].
  rewrite profileRequires_loop_spec. fold (permitted st minVersion extensions).
  destruct (permitted st minVersion extensions); simpl;
    apply emitted_extends; simpl; [by rewrite app_nil_r | by rewrite <- app_assoc].
Qed.

Lemma filter_is_error_usage loc featureDesc l :
  List.filter is_error (map (UsageWarning loc featureDesc) l) = [].
Proof. induction l; simpl; auto. Qed.

(** C3: [profileRequires] adds nothing to the sink when the active profile
    is not in the mask.  When it is, one usage warning is recorded for each
    listed extension stored as Warn, and the errors recorded are none when
    [minVersion > 0] and [version >= minVersion], or some listed extension is
    stored as Enable, Require or Warn, and exactly one
    [VersionOrExtensionError] otherwise.  The stored behaviours are not
    changed. *)
Theorem profileRequires_outcome loc profileMask minVersion extensions featureDesc st :
  let st' := profileRequires loc profileMask minVersion extensions featureDesc st in
  emitted st st' =
    (if profile_allowed (profile st) profileMask
     then map (UsageWarning loc featureDesc)
            (List.filter (stored_warn st) extensions)
          ++ (if permitted st minVersion extensions then []
              else [VersionOrExtensionError loc featureDesc])
     else [])
  /\ List.filter is_error (emitted st st') =
       (if profile_allowed (profile st) profileMask
           && negb (permitted st minVersion extensions)
        then [VersionOrExtensionError loc featureDesc]
        else [])
  /\ permitted st minVersion extensions =
       ((0 <? minVersion)%Z && (minVersion <=? version st)%Z)
       || existsb
            (fun e =>
               match extensionBehavior st !! e with
               | Some EBhEnable | Some EBhRequire | Some EBhWarn => true
               | _ => false
               end) extensions
  /\ extensionBehavior st' = extensionBehavior st.
Proof.
  intros st'. subst st'.
  split; [apply profileRequires_emitted |].
  split.
  { rewrite profileRequires_emitted.
    destruct (profile_allowed (profile st) profileMask); [| reflexivity].
    rewrite List.filter_app, filter_is_error_usage.
    destruct (permitted st minVersion extensions); reflexivity. }
  split; [reflexivity |].
  unfold profileRequires.
  destruct (profile_in_mask st profileMask); [| reflexivity].
  rewrite profileRequires_loop_spec.
  destruct (_ || _); reflexivity.
Qed.

(** C10: with [minVersion = 0] and the null extension pointer, the
    single-extension entry point records the [VersionOrExtensionError]
    whenever the active profile is in the mask, whatever the version, and
    nothing otherwise; the table of behaviours is neither read nor written:
    replacing it before the call or after the call gives the same state. *)
Theorem profileRequires_zero_null loc profileMask featureDesc st :
  profileRequires_single loc profileMask 0 None featureDesc st =
    (if profile_allowed (profile st) profileMask
     then emit (VersionOrExtensionError loc featureDesc) st
     else st)
  /\ emitted st (profileRequires_single loc profileMask 0 None featureDesc st) =
       (if profile_allowed (profile st) profileMask
        then [VersionOrExtensionError loc featureDesc]
        else [])
  /\ extensionBehavior (profileRequires_single loc profileMask 0 None featureDesc st)
       = extensionBehavior st
  /\ (forall m : gmap string TExtensionBehavior,
        profileRequires_single loc profileMask 0 None featureDesc
          (set_extensionBehavior m st) =
        set_extensionBehavior m
          (profileRequires_single loc profileMask 0 None featureDesc st)).
Proof.
  assert (E : forall s,
    profileRequires_single loc profileMask 0 None featureDesc s =
      (if profile_allowed (profile s) profileMask
       then emit (VersionOrExtensionError loc featureDesc) s else s)).
  { intros s. unfold profileRequires_single, profileRequires.
    rewrite profile_in_mask_allowed.
    destruct (profile_allowed (profile s) profileMask); reflexivity. }
  split; [apply E |]. split; [| split].
  - rewrite E. destruct (profile_allowed (profile st) profileMask);
      [apply emitted_emit | apply emitted_refl].
  - rewrite E. destruct (profile_allowed (profile st) profileMask); reflexivity.
  - intros m. rewrite !E. simpl.
    destruct (profile_allowed (profile st) profileMask); reflexivity.
Qed.

(** ** The directive processor *)

Lemma updateExtensionBehavior_str_unfold fuel line extension behaviorString st :
  updateExtensionBehavior_str (S fuel) line extension behaviorString st =
    match behavior_of_string behaviorString with
    | None =>
        Some (error (getCurrentLoc st) "behavior not supported:" "#extension"
                behaviorString st)
    | Some behavior =>
        pass_on (fun e s => updateExtensionBehavior_str fuel line e behaviorString s)
          (propagates_to extension)
          (Some (updateExtensionBehavior extension behavior st))
    end.
Proof. reflexivity. Qed.

Lemma pass_on_None f l : pass_on f l None = None.
Proof. induction l; simpl; auto. Qed.

Lemma pass_on_cons f e l st :
  pass_on f (e :: l) (Some st) = pass_on f l (f e st).
Proof. reflexivity. Qed.

Lemma pass_on_app f l1 l2 acc :
  pass_on f (l1 ++ l2) acc = pass_on f l2 (pass_on f l1 acc).
Proof. unfold pass_on. apply fold_left_app. Qed.

Lemma pass_on_ext f g l acc :
  (forall e st, In e l -> f e st = g e st) ->
  pass_on f l acc = pass_on g l acc.
Proof.
  revert acc. induction l as [| e l IH]; intros acc H; [reflexivity |].
  destruct acc as [st |]; simpl.
  - rewrite (H e st) by (left; reflexivity).
    apply IH. intros e' st' Hin. apply H. by right.
  - fold (pass_on f l None) (pass_on g l None). by rewrite !pass_on_None.
Qed.

Lemma pass_on_total f l :
  (forall e st, In e l -> is_Some (f e st)) ->
  forall st, is_Some (pass_on f l (Some st)).
Proof.
  induction l as [| e l IH]; intros H st; [by eexists |].
  rewrite pass_on_cons.
  destruct (H e st) as [st' ->]; [by left |].
  apply IH. intros e' s Hin. apply H. by right.
Qed.

(** A reflexive and transitive relation that every call respects is
    respected by the whole loop. *)
Lemma pass_on_invariant (R : TParseVersions -> TParseVersions -> Prop) f l :
  (forall st, R st st) ->
  (forall a b c, R a b -> R b c -> R a c) ->
  (forall e st st', In e l -> f e st = Some st' -> R st st') ->
  forall st st', pass_on f l (Some st) = Some st' -> R st st'.
Proof.
  intros Hrefl Htrans. induction l as [| e l IH]; intros H st st' Hrun.
  - injection Hrun as <-. apply Hrefl.
  - rewrite pass_on_cons in Hrun.
    destruct (f e st) as [s1 |] eqn:Hf; [| by rewrite pass_on_None in Hrun].
    apply Htrans with s1; [apply (H e); auto; by left |].
    apply IH; [| exact Hrun]. intros e' s s' Hin. apply H. by right.
Qed.

Lemma pass_on_split f l1 x l2 st st' :
  pass_on f (l1 ++ x :: l2) (Some st) = Some st' ->
  exists s1 s2,
    pass_on f l1 (Some st) = Some s1 /\ f x s1 = Some s2
    /\ pass_on f l2 (Some s2) = Some st'.
Proof.
  rewrite pass_on_app. intros H.
  destruct (pass_on f l1 (Some st)) as [s1 |] eqn:H1;
    [| by rewrite pass_on_None in H].
  rewrite pass_on_cons in H.
  destruct (f x s1) as [s2 |] eqn:H2; [| by rewrite pass_on_None in H].
  by exists s1, s2.
Qed.

(** *** Termination: the depth of the calls is at most three *)

Lemma propagates_to_depth u e : In e (propagates_to u) -> depth e < depth u.
Proof.
  unfold depth at 2. unfold propagates_to.
  repeat match goal with
         | |- context [String.eqb u ?s] =>
             destruct (String.eqb_spec u s) as [-> | ?];
             [simpl; intros H; intuition (subst; vm_compute; lia) |]
         end.
  intros [].
Qed.

Lemma depth_bounds u : 1 <= depth u <= directive_depth.
Proof.
  unfold depth, directive_depth.
  destruct (String.eqb u _); [lia |].
  destruct (propagates_to u); lia.
Qed.

Lemma updateExtensionBehavior_str_total fuel :
  forall line u tok st,
    depth u <= fuel -> is_Some (updateExtensionBehavior_str fuel line u tok st).
Proof.
  induction fuel as [| fuel IH]; intros line u tok st Hd.
  - pose proof (depth_bounds u). lia.
  - rewrite updateExtensionBehavior_str_unfold.
    destruct (behavior_of_string tok); [| by eexists].
    apply pass_on_total. intros e s Hin. apply IH.
    apply propagates_to_depth in Hin. lia.
Qed.

Lemma updateExtensionBehavior_str_fuel n :
  forall m line u tok st,
    depth u <= n -> depth u <= m ->
    updateExtensionBehavior_str n line u tok st =
    updateExtensionBehavior_str m line u tok st.
Proof.
  induction n as [| n IH]; intros m line u tok st Hn Hm.
  - pose proof (depth_bounds u). lia.
  - destruct m as [| m]; [pose proof (depth_bounds u); lia |].
    rewrite !updateExtensionBehavior_str_unfold.
    destruct (behavior_of_string tok); [| reflexivity].
    apply pass_on_ext. intros e s Hin.
    apply propagates_to_depth in Hin. apply IH; lia.
Qed.

(** Every directive is processed to completion: any bound of at least
    [directive_depth] gives the result of [applyDirective]. *)
Lemma applyDirective_complete n line u tok st :
  directive_depth <= n ->
  updateExtensionBehavior_str n line u tok st = Some (applyDirective line u tok st).
Proof.
  intros Hn. pose proof (depth_bounds u) as Hd.
  rewrite (updateExtensionBehavior_str_fuel n directive_depth) by lia.
  unfold applyDirective.
  destruct (updateExtensionBehavior_str_total directive_depth line u tok st)
    as [st' ->]; [lia | reflexivity].
Qed.

(** *** The identifier "all" *)

(** C5: a directive on "all" with Require or Enable records the
    [InvalidAllBehaviorError] and changes nothing else, so that every stored
    behaviour is what it was; with Disable or Warn it stores that behaviour
    in every slot of the table, and in no other. *)
Theorem all_directive line st :
  applyDirective line "all" "require" st
    = emit (InvalidAllBehaviorError (currentLoc st)) st
  /\ applyDirective line "all" "enable" st
    = emit (InvalidAllBehaviorError (currentLoc st)) st
  /\ updateExtensionBehavior "all" EBhRequire st
    = emit (InvalidAllBehaviorError (currentLoc st)) st
  /\ updateExtensionBehavior "all" EBhEnable st
    = emit (InvalidAllBehaviorError (currentLoc st)) st
  /\ extensionBehavior (applyDirective line "all" "require" st) = extensionBehavior st
  /\ extensionBehavior (applyDirective line "all" "enable" st) = extensionBehavior st
  /\ applyDirective line "all" "disable" st = updateExtensionBehavior "all" EBhDisable st
  /\ applyDirective line "all" "warn" st = updateExtensionBehavior "all" EBhWarn st
  /\ (forall e : string,
        extensionBehavior (applyDirective line "all" "disable" st) !! e
          = (fun _ => EBhDisable) <$> (extensionBehavior st !! e))
  /\ (forall e : string,
        extensionBehavior (applyDirective line "all" "warn" st) !! e
          = (fun _ => EBhWarn) <$> (extensionBehavior st !! e))
  /\ emitted st (applyDirective line "all" "disable" st) = []
  /\ emitted st (applyDirective line "all" "warn" st) = [].
Proof.
  repeat split; try reflexivity.
  - intros e. change (applyDirective line "all" "disable" st)
      with (set_extensionBehavior ((fun _ => EBhDisable) <$> extensionBehavior st) st).
    simpl. apply lookup_fmap.
  - intros e. change (applyDirective line "all" "warn" st)
      with (set_extensionBehavior ((fun _ => EBhWarn) <$> extensionBehavior st) st).
    simpl. apply lookup_fmap.
  - apply emitted_extends. simpl. by rewrite app_nil_r.
  - apply emitted_extends. simpl. by rewrite app_nil_r.
Qed.

(** *** Identifiers without an entry *)

Lemma assign_all_lookup_in l :
  forall m k, In k (map fst l) -> is_Some (assign_all l m !! k).
Proof.
  unfold assign_all. induction l as [| [k' v] l IH] using rev_ind; intros m k Hin.
  - destruct Hin.
  - rewrite fold_left_app. simpl.
    destruct (decide (k' = k)) as [-> | Hne].
    + rewrite lookup_insert_eq. by eexists.
    + rewrite lookup_insert_ne by done. apply IH.
      rewrite map_app, in_app_iff in Hin. destruct Hin as [Hin | [Hin | []]]; auto.
      simpl in Hin. congruence.
Qed.

Lemma assign_all_lookup_notin l :
  forall m k, ~ In k (map fst l) -> assign_all l m !! k = m !! k.
Proof.
  unfold assign_all. induction l as [| [k' v] l IH]; intros m k Hin; [reflexivity |].
  simpl. rewrite IH by (intros H; apply Hin; by right).
  apply lookup_insert_ne. intros ->. apply Hin. by left.
Qed.

Lemma Registry_tail k : In k (map fst defaults_tail) -> is_Some (Registry !! k).
Proof.
  intros H. apply assign_all_lookup_in. unfold defaults.
  rewrite !map_app, !in_app_iff. auto.
Qed.

Lemma Registry_base k : In k (map fst defaults_base) -> is_Some (Registry !! k).
Proof.
  intros H. apply assign_all_lookup_in. unfold defaults.
  rewrite !map_app, !in_app_iff. auto.
Qed.

Lemma Registry_all : Registry !! "all" = None.
Proof.
  unfold Registry. rewrite assign_all_lookup_notin; [apply lookup_empty |].
  unfold defaults. rewrite !map_app, !in_app_iff.
  destruct AMD_EXTENSIONS, NV_EXTENSIONS; vm_compute; intuition discriminate.
Qed.

Ltac in_table := vm_compute; solve [repeat (first [left; reflexivity | right])].

(** The identifiers that pass a directive on have an entry. *)
Lemma propagating_registered u :
  propagates_to u <> [] -> is_Some (Registry !! u).
Proof.
  unfold propagates_to.
  repeat match goal with
         | |- context [String.eqb u ?s] =>
             destruct (String.eqb_spec u s) as [-> | ?];
             [intros _; first [apply Registry_tail; in_table
                              | apply Registry_base; in_table] |]
         end.
  intros H. exfalso. by apply H.
Qed.

(** The identifiers a directive is passed on to have an entry. *)
Lemma propagated_registered u e :
  In e (propagates_to u) -> is_Some (Registry !! e).
Proof.
  unfold propagates_to.
  repeat match goal with
         | |- context [String.eqb u ?s] =>
             destruct (String.eqb_spec u s) as [-> | ?];
             [simpl; intros H;
              intuition (subst; first [apply Registry_tail; in_table
                                      | apply Registry_base; in_table]) |]
         end.
  intros [].
Qed.

Lemma registered_lookup st k :
  registered st -> is_Some (extensionBehavior st !! k) <-> is_Some (Registry !! k).
Proof. intros H. rewrite <- !elem_of_dom. by rewrite H. Qed.

Lemma unregistered_no_propagation st u :
  registered st -> extensionBehavior st !! u = None -> propagates_to u = [].
Proof.
  intros Hreg Hu. destruct (propagates_to u) eqn:Hp; [reflexivity |].
  assert (Hs : is_Some (extensionBehavior st !! u)).
  { apply registered_lookup; [done |]. apply propagating_registered. congruence. }
  rewrite Hu in Hs. by destruct Hs.
Qed.

Lemma applyDirective_leaf line u tok b st :
  behavior_of_string tok = Some b -> propagates_to u = [] ->
  applyDirective line u tok st = updateExtensionBehavior u b st.
Proof.
  intros Hb Hp. unfold applyDirective, directive_depth.
  rewrite updateExtensionBehavior_str_unfold, Hb, Hp. reflexivity.
Qed.

Lemma updateExtensionBehavior_missing u b st :
  u <> "all" -> extensionBehavior st !! u = None ->
  updateExtensionBehavior u b st =
    match b with
    | EBhRequire => emit (UnsupportedExtensionError (currentLoc st) u) st
    | EBhEnable | EBhWarn | EBhDisable =>
        emit (UnsupportedExtensionWarning (currentLoc st) u) st
    | _ => st
    end.
Proof.
  intros Hall Hu. unfold updateExtensionBehavior.
  apply String.eqb_neq in Hall. rewrite Hall, Hu. destruct b; reflexivity.
Qed.

(** C6: for an identifier without an entry in the Registry (and other than
    the special identifier "all"), a directive with Require records an error,
    one with Disable, Enable or Warn records a warning, and in all four cases
    the state is otherwise left as it was: no stored behaviour changes and
    the directive is passed on to no other identifier. *)
Theorem unknown_extension_directive line ext st :
  registered st -> Registry !! ext = None -> ext <> "all" ->
  applyDirective line ext "require" st
    = emit (UnsupportedExtensionError (currentLoc st) ext) st
  /\ applyDirective line ext "disable" st
    = emit (UnsupportedExtensionWarning (currentLoc st) ext) st
  /\ applyDirective line ext "enable" st
    = emit (UnsupportedExtensionWarning (currentLoc st) ext) st
  /\ applyDirective line ext "warn" st
    = emit (UnsupportedExtensionWarning (currentLoc st) ext) st
  /\ is_error (UnsupportedExtensionError (currentLoc st) ext) = true
  /\ is_warning (UnsupportedExtensionWarning (currentLoc st) ext) = true
  /\ propagates_to ext = []
  /\ Forall
       (fun tok =>
          extensionBehavior (applyDirective line ext tok st) = extensionBehavior st
          /\ requestedExtensions (applyDirective line ext tok st)
             = requestedExtensions st)
       ["require"; "disable"; "enable"; "warn"].
Proof.
  intros Hreg Hext Hall.
  assert (Hu : extensionBehavior st !! ext = None).
  { apply eq_None_not_Some. rewrite registered_lookup by done.
    rewrite Hext. by intros []. }
  pose proof (unregistered_no_propagation st ext Hreg Hu) as Hp.
  assert (E : forall tok b, behavior_of_string tok = Some b ->
            applyDirective line ext tok st =
              match b with
              | EBhRequire => emit (UnsupportedExtensionError (currentLoc st) ext) st
              | EBhEnable | EBhWarn | EBhDisable =>
                  emit (UnsupportedExtensionWarning (currentLoc st) ext) st
              | _ => st
              end).
  { intros tok b Hb. rewrite (applyDirective_leaf line ext tok b) by done.
    by apply updateExtensionBehavior_missing. }
  pose proof (E "require" _ eq_refl) as E1.
  pose proof (E "disable" _ eq_refl) as E2.
  pose proof (E "enable" _ eq_refl) as E3.
  pose proof (E "warn" _ eq_refl) as E4.
  repeat split; try done.
  repeat constructor; by rewrite ?E1, ?E2, ?E3, ?E4.
Qed.

(** *** Propagation *)

Lemma stores_only_refl b st : stores_only b st st.
Proof. intros k. by left. Qed.

Lemma stores_only_trans b s1 s2 s3 :
  stores_only b s1 s2 -> stores_only b s2 s3 -> stores_only b s1 s3.
Proof.
  intros H12 H23 k.
  destruct (H12 k) as [E12 | [S1 E12]], (H23 k) as [E23 | [S2 E23]].
  - left. congruence.
  - right. split; [by rewrite <- E12 | done].
  - right. split; [done | congruence].
  - right. by split.
Qed.

Lemma stores_only_keeps b s1 s2 k :
  stores_only b s1 s2 ->
  extensionBehavior s1 !! k = Some b -> extensionBehavior s2 !! k = Some b.
Proof. intros H Hk. destruct (H k) as [E | [_ E]]; congruence. Qed.

Lemma stores_only_slot b s1 s2 k :
  stores_only b s1 s2 ->
  is_Some (extensionBehavior s1 !! k) -> is_Some (extensionBehavior s2 !! k).
Proof. intros H Hk. destruct (H k) as [E | [_ E]]; rewrite E; [done | by eexists]. Qed.

Lemma updateExtensionBehavior_stores_only u b st :
  stores_only b st (updateExtensionBehavior u b st).
Proof.
  unfold updateExtensionBehavior.
  destruct (String.eqb u "all").
  - destruct (_ || _); [intros k; left; reflexivity |].
    intros k. simpl. rewrite lookup_fmap.
    destruct (extensionBehavior st !! k); simpl; [right | by left].
    split; [by eexists | done].
  - destruct (extensionBehavior st !! u) as [prev |] eqn:Hu.
    + intros k.
      destruct (TExtensionBehavior_eqb prev EBhDisablePartial),
        (TExtensionBehavior_eqb b EBhEnable || TExtensionBehavior_eqb b EBhRequire);
        simpl;
        (destruct (decide (u = k)) as [<- | Hne];
         [right; split; [by rewrite Hu | apply lookup_insert_eq]
         | left; by apply lookup_insert_ne]).
    + destruct b; intros k; left; reflexivity.
Qed.

Lemma updateExtensionBehavior_sets u b st :
  u <> "all" -> is_Some (extensionBehavior st !! u) ->
  extensionBehavior (updateExtensionBehavior u b st) !! u = Some b.
Proof.
  intros Hall [prev Hu]. unfold updateExtensionBehavior.
  apply String.eqb_neq in Hall. rewrite Hall, Hu.
  destruct (TExtensionBehavior_eqb prev EBhDisablePartial),
    (TExtensionBehavior_eqb b EBhEnable || TExtensionBehavior_eqb b EBhRequire);
    simpl; apply lookup_insert_eq.
Qed.

Lemma updateExtensionBehavior_str_stores_only b tok fuel :
  behavior_of_string tok = Some b ->
  forall line u st st',
    updateExtensionBehavior_str fuel line u tok st = Some st' ->
    stores_only b st st'.
Proof.
  intros Hb. induction fuel as [| fuel IH]; intros line u st st' Hrun;
    [discriminate |].
  rewrite updateExtensionBehavior_str_unfold, Hb in Hrun.
  apply stores_only_trans with (updateExtensionBehavior u b st);
    [apply updateExtensionBehavior_stores_only |].
  revert Hrun. apply pass_on_invariant.
  - apply stores_only_refl.
  - apply stores_only_trans.
  - intros e s s' _ H. by apply (IH line e).
Qed.

Lemma pass_on_stores_only b tok fuel line l st st' :
  behavior_of_string tok = Some b ->
  pass_on (fun e s => updateExtensionBehavior_str fuel line e tok s) l (Some st)
    = Some st' ->
  stores_only b st st'.
Proof.
  intros Hb. apply pass_on_invariant.
  - apply stores_only_refl.
  - apply stores_only_trans.
  - intros e s s' _ H.
    by apply (updateExtensionBehavior_str_stores_only b tok fuel Hb line e).
Qed.

Lemma updateExtensionBehavior_str_sets b tok fuel line u st st' :
  behavior_of_string tok = Some b ->
  u <> "all" -> is_Some (extensionBehavior st !! u) ->
  updateExtensionBehavior_str fuel line u tok st = Some st' ->
  extensionBehavior st' !! u = Some b.
Proof.
  intros Hb Hall Hu Hrun. destruct fuel as [| fuel]; [discriminate |].
  rewrite updateExtensionBehavior_str_unfold, Hb in Hrun.
  apply (pass_on_stores_only b tok fuel line _ _ _ Hb) in Hrun.
  apply (stores_only_keeps b _ _ _ Hrun).
  by apply updateExtensionBehavior_sets.
Qed.

(** The run of a directive, cut at one of the identifiers it is passed on
    to: the state before that call still has the slots of the start, and
    what the call stores is kept to the end. *)
Lemma updateExtensionBehavior_str_at b tok fuel line u x st st' :
  behavior_of_string tok = Some b ->
  In x (propagates_to u) ->
  updateExtensionBehavior_str (S fuel) line u tok st = Some st' ->
  exists s1 s2,
    stores_only b st s1
    /\ updateExtensionBehavior_str fuel line x tok s1 = Some s2
    /\ stores_only b s2 st'.
Proof.
  intros Hb Hin Hrun.
  rewrite updateExtensionBehavior_str_unfold, Hb in Hrun.
  apply in_split in Hin. destruct Hin as (l1 & l2 & Hl). rewrite Hl in Hrun.
  apply pass_on_split in Hrun. destruct Hrun as (s1 & s2 & H1 & H2 & H3).
  exists s1, s2. split; [| split; [exact H2 |]].
  - apply stores_only_trans with (updateExtensionBehavior u b st);
      [apply updateExtensionBehavior_stores_only |].
    by apply (pass_on_stores_only b tok fuel line l1).
  - by apply (pass_on_stores_only b tok fuel line l2).
Qed.

(** A directive reaches every identifier of the implication set that has a
    slot. *)
Lemma updateExtensionBehavior_str_closure b tok u e :
  behavior_of_string tok = Some b ->
  implies u e -> e <> "all" ->
  forall fuel line st st',
    is_Some (extensionBehavior st !! e) ->
    updateExtensionBehavior_str fuel line u tok st = Some st' ->
    extensionBehavior st' !! e = Some b.
Proof.
  intros Hb Himp Hall.
  induction Himp as [u e Hin | u v e Hin Himp IH];
    intros fuel line st st' He Hrun;
    (destruct fuel as [| fuel]; [discriminate |]);
    destruct (updateExtensionBehavior_str_at b tok fuel line u _ st st' Hb Hin Hrun)
      as (s1 & s2 & R1 & Hcall & R3);
    apply (stores_only_keeps b _ _ _ R3);
    pose proof (stores_only_slot b st s1 e R1 He) as He1.
  - by apply (updateExtensionBehavior_str_sets b tok fuel line e s1 s2).
  - by apply (IH Hall fuel line s1 s2).
Qed.

Lemma implies_registered u e : implies u e -> is_Some (Registry !! e).
Proof.
  induction 1 as [u e Hin | u v e Hin Himp IH]; [| exact IH].
  by apply (propagated_registered u).
Qed.

Lemma registered_not_all e : is_Some (Registry !! e) -> e <> "all".
Proof. intros [x Hx] ->. rewrite Registry_all in Hx. discriminate. Qed.

(** C4: a directive on a propagating identifier stores the directive's
    behaviour for the identifier itself and for every identifier of its
    transitive implication set; for "GL_ANDROID_extension_pack_es31a" these
    are GL_EXT_geometry_shader, GL_EXT_shader_io_blocks and ten others.  The
    behaviour is any of the four a directive can name, Enable and Disable
    among them. *)
Theorem propagation_closure line u tok b st :
  registered st -> behavior_of_string tok = Some b ->
  (forall e, implies u e ->
     extensionBehavior (applyDirective line u tok st) !! e = Some b)
  /\ (propagates_to u <> [] ->
      extensionBehavior (applyDirective line u tok st) !! u = Some b)
  /\ Forall
       (fun e =>
          extensionBehavior
            (applyDirective line "GL_ANDROID_extension_pack_es31a" tok st) !! e
          = Some b)
       ("GL_ANDROID_extension_pack_es31a" :: extension_pack_es31a_implied)
  /\ length extension_pack_es31a_implied = 12
  /\ (forall e, In e extension_pack_es31a_implied <->
                In e (propagates_to "GL_ANDROID_extension_pack_es31a")).
Proof.
  intros Hreg Hb.
  assert (Hrun : forall v,
    updateExtensionBehavior_str directive_depth line v tok st
      = Some (applyDirective line v tok st))
    by (intros v; by apply applyDirective_complete).
  assert (C : forall v e, implies v e ->
     extensionBehavior (applyDirective line v tok st) !! e = Some b).
  { intros v e Himp. pose proof (implies_registered v e Himp) as He.
    apply (updateExtensionBehavior_str_closure b tok v e Hb Himp
             (registered_not_all e He) directive_depth line st); [| apply Hrun].
    by apply registered_lookup. }
  assert (S : forall v, propagates_to v <> [] ->
      extensionBehavior (applyDirective line v tok st) !! v = Some b).
  { intros v Hv. pose proof (propagating_registered v Hv) as He.
    apply (updateExtensionBehavior_str_sets b tok directive_depth line v st);
      [done | by apply registered_not_all | by apply registered_lookup | apply Hrun]. }
  split; [apply C |]. split; [apply S |]. split; [| split; [reflexivity | done]].
  constructor; [by apply S |].
  apply Forall_forall. intros e He. apply C. apply implies_edge.
  by apply list_elem_of_In.
Qed.

(** ** requireExtensions *)

Lemma checkExtensionsRequested_warn_spec loc extensions featureDesc :
  forall warned st,
    checkExtensionsRequested_warn loc extensions featureDesc warned st =
      (warned || existsb (let_through st) extensions,
       set_infoSink
         (infoSink st ++ flat_map (warn_calls loc featureDesc st) extensions)
         st).
Proof.
  induction extensions as [| e rest IH]; intros warned st; simpl.
  - by rewrite orb_false_r, set_infoSink_nil.
  - unfold getExtensionBehavior, warn_calls at 1, let_through at 1 3,
      promoted at 1 2 3, stored_warn at 1 2.
    destruct (extensionBehavior st !! e) as [[]|] eqn:He; simpl;
      try (rewrite IH; reflexivity).
    + rewrite IH, orb_true_r. unfold message.
      rewrite infoSink_emit, <- app_assoc. reflexivity.
    + destruct (relaxedErrors st) eqn:Hr; simpl.
      * rewrite IH, orb_true_r. unfold message.
        rewrite !infoSink_emit, <- !app_assoc. reflexivity.
      * rewrite IH. reflexivity.
Qed.

Lemma list_extensions_spec extensions :
  forall st,
    list_extensions extensions st =
      set_infoSink
        (infoSink st ++ map (fun e => CallMessage EPrefixNone e None) extensions)
        st.
Proof.
  unfold list_extensions.
  induction extensions as [| e rest IH]; intros st; simpl.
  - by rewrite set_infoSink_nil.
  - rewrite IH. unfold message_noloc. rewrite infoSink_emit, <- app_assoc.
    reflexivity.
Qed.

Lemma existsb_requested st extensions :
  existsb
    (fun e =>
       let behavior := getExtensionBehavior e st in
       TExtensionBehavior_eqb behavior EBhEnable
       || TExtensionBehavior_eqb behavior EBhRequire) extensions
  = existsb (requested st) extensions.
Proof.
  cbv zeta. induction extensions as [| e rest IH]; [reflexivity |].
  simpl. rewrite IH. f_equal. unfold requested, getExtensionBehavior.
  by destruct (extensionBehavior st !! e) as [[]|].
Qed.

(** What [requireExtensions] records, case by case. *)
Lemma requireExtensions_emitted loc extensions featureDesc st :
  emitted st (requireExtensions loc extensions featureDesc st) =
    (if existsb (requested st) extensions then []
     else flat_map (warn_calls loc featureDesc st) extensions
          ++ (if existsb (let_through st) extensions then []
              else missing_report loc featureDesc extensions)).
Proof.
  unfold requireExtensions, checkExtensionsRequested.
  rewrite existsb_requested.
  destruct (existsb (requested st) extensions); [apply emitted_refl |].
  rewrite checkExtensionsRequested_warn_spec. simpl.
  destruct (existsb (let_through st) extensions).
  - apply emitted_extends. simpl. by rewrite app_nil_r.
  - apply emitted_extends. unfold missing_report.
    destruct extensions as [| e [| e' rest]]; simpl.
    + by rewrite app_nil_r.
    + by rewrite <- app_assoc.
    + rewrite list_extensions_spec. simpl.
      rewrite <- !app_assoc. reflexivity.
Qed.

(** *** An identifier without an entry, compared with one stored as Disable *)

Section MissingVersusDisable.

Variable st : TParseVersions.
Variable ext : string.
Hypothesis Hmissing : extensionBehavior st !! ext = None.

(** The same state with [ext] stored as Disable. *)
Let stD : TParseVersions :=
  set_extensionBehavior (<[ext := EBhDisable]> (extensionBehavior st)) st.

Lemma lookup_stD e :
  extensionBehavior stD !! e =
    if decide (ext = e) then Some EBhDisable else extensionBehavior st !! e.
Proof. unfold stD. simpl. apply lookup_insert. Qed.

Lemma permits_stD e : permits stD e = permits st e.
Proof.
  unfold permits. rewrite lookup_stD.
  destruct (decide (ext = e)) as [<- |]; [by rewrite Hmissing | done].
Qed.

Lemma stored_warn_stD e : stored_warn stD e = stored_warn st e.
Proof.
  unfold stored_warn. rewrite lookup_stD.
  destruct (decide (ext = e)) as [<- |]; [by rewrite Hmissing | done].
Qed.

Lemma requested_stD e : requested stD e = requested st e.
Proof.
  unfold requested. rewrite lookup_stD.
  destruct (decide (ext = e)) as [<- |]; [by rewrite Hmissing | done].
Qed.

Lemma promoted_stD e :
  relaxedErrors st = false -> promoted stD e = promoted st e.
Proof.
  intros Hr. unfold promoted. rewrite lookup_stD.
  destruct (decide (ext = e)) as [<- |]; [by rewrite Hmissing | done].
Qed.

Lemma existsb_eq {A} (f g : A -> bool) l :
  (forall a, f a = g a) -> existsb f l = existsb g l.
Proof. intros H. induction l; simpl; [done | by rewrite H, IHl]. Qed.

Lemma filter_eq {A} (f g : A -> bool) l :
  (forall a, f a = g a) -> List.filter f l = List.filter g l.
Proof. intros H. induction l; simpl; [done | by rewrite H, IHl]. Qed.

Lemma missing_like_disable_profileRequires loc profileMask minVersion extensions featureDesc :
  emitted st (profileRequires loc profileMask minVersion extensions featureDesc st)
  = emitted stD (profileRequires loc profileMask minVersion extensions featureDesc stD).
Proof.
  rewrite !profileRequires_emitted. unfold permitted.
  rewrite (existsb_eq (permits stD) (permits st)) by apply permits_stD.
  rewrite (filter_eq (stored_warn stD) (stored_warn st)) by apply stored_warn_stD.
  reflexivity.
Qed.

Lemma missing_like_disable_requireExtensions loc extensions featureDesc :
  relaxedErrors st = false ->
  emitted st (requireExtensions loc extensions featureDesc st)
  = emitted stD (requireExtensions loc extensions featureDesc stD).
Proof.
  intros Hr. rewrite !requireExtensions_emitted.
  rewrite (existsb_eq (requested stD) (requested st)) by apply requested_stD.
  assert (L : forall e, let_through stD e = let_through st e).
  { intros e. unfold let_through. by rewrite promoted_stD, stored_warn_stD. }
  rewrite (existsb_eq (let_through stD) (let_through st)) by apply L.
  rewrite (flat_map_ext (warn_calls loc featureDesc stD)
             (warn_calls loc featureDesc st)); [reflexivity |].
  intros e. unfold warn_calls. by rewrite L, promoted_stD.
Qed.

Lemma missing_not_promoted loc featureDesc :
  emitted st (requireExtensions loc [ext] featureDesc st)
  = [MissingExtensionError loc featureDesc ext].
Proof.
  rewrite requireExtensions_emitted. simpl.
  unfold requested, warn_calls, let_through, promoted, stored_warn.
  rewrite Hmissing. reflexivity.
Qed.

Lemma disable_promoted loc featureDesc :
  relaxedErrors st = true ->
  emitted stD (requireExtensions loc [ext] featureDesc stD)
  = [MustBeEnabledNotice loc; UsageWarning loc featureDesc ext].
Proof.
  intros Hr. rewrite requireExtensions_emitted. simpl.
  unfold requested, warn_calls, let_through, promoted, stored_warn.
  rewrite lookup_stD. destruct (decide (ext = ext)); [| done].
  simpl. rewrite Hr. reflexivity.
Qed.

End MissingVersusDisable.

(** C1 (amended): an identifier without an entry answers [EBhMissing], and
    the gate lets it through no more than one stored as Disable:
    [extensionsTurnedOn] and [profileRequires] give the same result for
    both, and so does [requireExtensions] when [relaxedErrors] is off.
    Under [relaxedErrors], [requireExtensions] promotes only the extension
    stored as Disable: for the identifier without an entry, alone in the
    list, it records the [MissingExtensionError]. *)
Theorem missing_versus_disable st ext :
  extensionBehavior st !! ext = None ->
  getExtensionBehavior ext st = EBhMissing
  /\ extensionTurnedOn ext st = false
  /\ (let stD :=
        set_extensionBehavior (<[ext := EBhDisable]> (extensionBehavior st)) st in
      getExtensionBehavior ext stD = EBhDisable
        /\ extensionTurnedOn ext stD = false
        /\ (forall extensions,
              extensionsTurnedOn extensions st = extensionsTurnedOn extensions stD)
        /\ (forall loc profileMask minVersion extensions featureDesc,
              emitted st
                (profileRequires loc profileMask minVersion extensions featureDesc st)
              = emitted stD
                  (profileRequires loc profileMask minVersion extensions featureDesc stD))
        /\ (relaxedErrors st = false ->
            forall loc extensions featureDesc,
              emitted st (requireExtensions loc extensions featureDesc st)
              = emitted stD (requireExtensions loc extensions featureDesc stD))
        /\ (relaxedErrors st = true ->
            forall loc featureDesc,
              emitted st (requireExtensions loc [ext] featureDesc st)
                = [MissingExtensionError loc featureDesc ext]
              /\ emitted stD (requireExtensions loc [ext] featureDesc stD)
                = [MustBeEnabledNotice loc; UsageWarning loc featureDesc ext])).
Proof.
  intros Hmissing.
  split; [unfold getExtensionBehavior; by rewrite Hmissing |].
  split; [unfold extensionTurnedOn, getExtensionBehavior; by rewrite Hmissing |].
  intros stD. subst stD.
  split; [unfold getExtensionBehavior; simpl; by rewrite lookup_insert_eq |].
  split; [unfold extensionTurnedOn, getExtensionBehavior; simpl;
          by rewrite lookup_insert_eq |].
  split.
  { intros extensions. unfold extensionsTurnedOn. symmetry.
    apply existsb_eq. intros e.
    pose proof (permits_stD st ext Hmissing e) as H.
    unfold permits in H. unfold extensionTurnedOn, getExtensionBehavior.
    destruct (extensionBehavior st !! e) as [[]|],
      (extensionBehavior (set_extensionBehavior
         (<[ext:=EBhDisable]> (extensionBehavior st)) st) !! e) as [[]|];
      done. }
  split; [intros; by apply missing_like_disable_profileRequires |].
  split; [intros; by apply missing_like_disable_requireExtensions |].
  intros Hr loc featureDesc.
  split; [by apply missing_not_promoted | by apply disable_promoted].
Qed.

(** ** The compile configuration is never written *)

Ltac by_cases :=
  repeat match goal with
         | |- context [if ?c then _ else _] => destruct c
         | |- context [match ?x with _ => _ end] => destruct x
         end;
  reflexivity.

Lemma configuration_requireProfile loc m d st :
  configuration (requireProfile loc m d st) = configuration st.
Proof. unfold requireProfile. by_cases. Qed.

Lemma configuration_profileRequires loc m v es d st :
  configuration (profileRequires loc m v es d st) = configuration st.
Proof.
  unfold profileRequires. destruct (profile_in_mask st m); [| reflexivity].
  rewrite profileRequires_loop_spec. by_cases.
Qed.

Lemma configuration_requireExtensions loc es d st :
  configuration (requireExtensions loc es d st) = configuration st.
Proof.
  unfold requireExtensions, checkExtensionsRequested.
  destruct (existsb _ es); [reflexivity |].
  rewrite checkExtensionsRequested_warn_spec.
  destruct (_ || _); [reflexivity |].
  destruct es as [| e [| e' rest]]; rewrite ?list_extensions_spec; reflexivity.
Qed.

Lemma configuration_ppRequireExtensions loc es d st :
  configuration (ppRequireExtensions loc es d st) = configuration st.
Proof.
  unfold ppRequireExtensions, checkExtensionsRequested.
  destruct (existsb _ es); [reflexivity |].
  rewrite checkExtensionsRequested_warn_spec.
  destruct (_ || _); [reflexivity |].
  destruct es as [| e [| e' rest]]; rewrite ?list_extensions_spec; reflexivity.
Qed.

Lemma configuration_updateExtensionBehavior e b st :
  configuration (updateExtensionBehavior e b st) = configuration st.
Proof. unfold updateExtensionBehavior. by_cases. Qed.

Lemma configuration_updateExtensionBehavior_str fuel :
  forall line e tok st st',
    updateExtensionBehavior_str fuel line e tok st = Some st' ->
    configuration st' = configuration st.
Proof.
  induction fuel as [| fuel IH]; intros line e tok st st' Hrun; [discriminate |].
  rewrite updateExtensionBehavior_str_unfold in Hrun.
  destruct (behavior_of_string tok) as [b |]; [| by injection Hrun as <-].
  rewrite <- (configuration_updateExtensionBehavior e b st).
  revert Hrun.
  apply (pass_on_invariant (fun s s' => configuration s' = configuration s)).
  - reflexivity.
  - intros a b' c Hab Hbc. congruence.
  - intros x s s' _ H. by apply (IH line x tok).
Qed.

Lemma configuration_applyDirective line e tok st :
  configuration (applyDirective line e tok st) = configuration st.
Proof.
  apply (configuration_updateExtensionBehavior_str directive_depth line e tok).
  by apply applyDirective_complete.
Qed.

Lemma configuration_profileRequires_single loc m v e d st :
  configuration (profileRequires_single loc m v e d st) = configuration st.
Proof. apply configuration_profileRequires. Qed.

Ltac unchanged :=
  rewrite ?configuration_profileRequires_single, ?configuration_requireProfile,
    ?configuration_requireExtensions; reflexivity.

Lemma configuration_run_op o st : configuration (run_op o st) = configuration st.
Proof.
  destruct o; simpl;
    first
      [ apply configuration_requireProfile
      | apply configuration_profileRequires
      | apply configuration_requireExtensions
      | apply configuration_ppRequireExtensions
      | apply configuration_updateExtensionBehavior
      | apply configuration_applyDirective
      | reflexivity
      | idtac ].
  - unfold requireStage. by_cases.
  - unfold checkDeprecated. by_cases.
  - unfold requireNotRemoved. by_cases.
  - unfold fullIntegerCheck. unchanged.
  - unfold doubleCheck. unchanged.
  - unfold int64Check. destruct builtIn; simpl; unchanged.
  - unfold int16Check. destruct builtIn; simpl; unchanged.
  - unfold float16Check. destruct builtIn; simpl; unchanged.
  - unfold spvRemoved. by_cases.
  - unfold vulkanRemoved. by_cases.
  - unfold requireVulkan. by_cases.
  - unfold requireSpv. by_cases.
Qed.

Lemma configuration_run_ops ops :
  forall st, configuration (run_ops ops st) = configuration st.
Proof.
  unfold run_ops. induction ops as [| o ops IH]; intros st; [reflexivity |].
  simpl. rewrite IH. apply configuration_run_op.
Qed.

(** ** getPreamble *)

Lemma getPreamble_inputs st1 st2 p1 p2 :
  profile st1 = profile st2 -> version st1 = version st2 ->
  spvVersion st1 = spvVersion st2 ->
  getPreamble st1 p1 = getPreamble st2 p2.
Proof.
  intros Hp Hv Hs. unfold getPreamble. rewrite Hp, Hv, Hs. reflexivity.
Qed.

(** C8: the preamble is a function of the profile, the version and the
    target configuration alone.  Two compile units that agree on these
    obtain the same text, whatever their tables of behaviours and their other
    members hold, whatever the string passed in held before, and whatever
    gate and directive operations were run beforehand. *)
Theorem getPreamble_deterministic st1 st2 ops1 ops2 p1 p2 :
  profile st1 = profile st2 -> version st1 = version st2 ->
  spvVersion st1 = spvVersion st2 ->
  getPreamble (run_ops ops1 st1) p1 = getPreamble (run_ops ops2 st2) p2.
Proof.
  intros Hp Hv Hs.
  pose proof (configuration_run_ops ops1 st1) as C1.
  pose proof (configuration_run_ops ops2 st2) as C2.
  unfold configuration in C1, C2.
  apply getPreamble_inputs; congruence.
Qed.

(** *** Texts and their lines *)

Lemma append_String c (a b : string) : String c a +:+ b = String c (a +:+ b).
Proof. reflexivity. Qed.

Lemma append_empty_l (b : string) : "" +:+ b = b.
Proof. reflexivity. Qed.

Lemma append_assoc (a b c : string) : (a +:+ b) +:+ c = a +:+ (b +:+ c).
Proof.
  induction a as [| x a IH]; [reflexivity |].
  by rewrite !append_String, IH.
Qed.

Lemma append_empty_r (a : string) : a +:+ "" = a.
Proof.
  induction a as [| x a IH]; [reflexivity |]. by rewrite append_String, IH.
Qed.

Lemma lines_String_cons c s : lines (String c s) <> [].
Proof. simpl. destruct (Ascii.eqb c newline); [done |]. by destruct (lines s). Qed.

Lemma lines_append a b :
  terminatedb a = true -> lines (a +:+ b) = lines a ++ lines b.
Proof.
  induction a as [| c a IH]; intros Ht; [reflexivity |].
  destruct a as [| c' a'].
  - simpl in Ht. rewrite append_String, append_empty_l. simpl. by rewrite Ht.
  - assert (Ha : terminatedb (String c' a') = true) by exact Ht.
    specialize (IH Ha).
    change (String c (String c' a') +:+ b) with (String c (String c' a' +:+ b)).
    change (lines (String c (String c' a' +:+ b))) with
      (if Ascii.eqb c newline then EmptyString :: lines (String c' a' +:+ b)
       else match lines (String c' a' +:+ b) with
            | [] => [String c EmptyString]
            | l :: ls => String c l :: ls
            end).
    change (lines (String c (String c' a'))) with
      (if Ascii.eqb c newline then EmptyString :: lines (String c' a')
       else match lines (String c' a') with
            | [] => [String c EmptyString]
            | l :: ls => String c l :: ls
            end).
    rewrite IH. pose proof (lines_String_cons c' a') as Hne.
    destruct (Ascii.eqb c newline); [reflexivity |].
    destruct (lines (String c' a')); [done | reflexivity].
Qed.

Lemma terminatedb_append a b :
  terminatedb a = true -> terminatedb b = true -> terminatedb (a +:+ b) = true.
Proof.
  intros Ha Hb. induction a as [| c a IH]; [exact Hb |].
  destruct a as [| c' a'].
  - simpl in Ha. rewrite append_String, append_empty_l.
    destruct b; [exact Ha | exact Hb].
  - rewrite append_String. specialize (IH Ha). rewrite append_String in *.
    exact IH.
Qed.

Lemma terminatedb_ln s : terminatedb (ln s) = true.
Proof.
  unfold ln. induction s as [| c s IH]; [reflexivity |].
  rewrite append_String. destruct s; [reflexivity |].
  rewrite append_String in *. exact IH.
Qed.

Lemma lines_ln s : no_newlineb s = true -> lines (ln s) = [s].
Proof.
  unfold ln. induction s as [| c s IH]; intros Hs; [reflexivity |].
  simpl in Hs. apply andb_true_iff in Hs. destruct Hs as [Hc Hs].
  apply negb_true_iff in Hc. rewrite append_String. simpl.
  rewrite Hc, (IH Hs). reflexivity.
Qed.

Lemma no_newlineb_append a b :
  no_newlineb a = true -> no_newlineb b = true -> no_newlineb (a +:+ b) = true.
Proof.
  intros Ha Hb. induction a as [| c a IH]; [exact Hb |].
  rewrite append_String. simpl in *.
  apply andb_true_iff in Ha. destruct Ha as [Hc Ha]. by rewrite Hc, IH.
Qed.

Lemma no_newlineb_take n : forall s,
  no_newlineb s = true -> no_newlineb (string_take n s) = true.
Proof.
  induction n as [| n IH]; intros [| c s] Hs; try reflexivity.
  simpl in *. apply andb_true_iff in Hs. destruct Hs as [Hc Hs].
  by rewrite Hc, IH.
Qed.

Lemma no_newlineb_uint d : no_newlineb (NilEmpty.string_of_uint d) = true.
Proof. induction d; simpl; auto. Qed.

Lemma no_newlineb_snprintf_d size n : no_newlineb (snprintf_d size n) = true.
Proof.
  unfold snprintf_d, String_of_int. apply no_newlineb_take.
  destruct (Z.to_int n); simpl; apply no_newlineb_uint.
Qed.

Lemma inb_In l ls : inb l ls = true -> In l ls.
Proof.
  unfold inb. intros H. apply existsb_exists in H. destruct H as (x & Hx & E).
  apply String.eqb_eq in E. by subst.
Qed.

Lemma In_inb l ls : In l ls -> inb l ls = true.
Proof.
  unfold inb. intros H. apply existsb_exists. exists l. split; [done |].
  apply String.eqb_refl.
Qed.

(** *** Covering the preamble *)

Lemma covered_block S b :
  terminatedb b && forallb (fun l => inb l S) (lines b) = true -> covered S b.
Proof.
  intros H. apply andb_true_iff in H. destruct H as [Ht Hl].
  split; [exact Ht |]. intros l Hin. left. apply inb_In.
  rewrite forallb_forall in Hl. by apply Hl.
Qed.

Lemma covered_append S a b : covered S a -> covered S b -> covered S (a +:+ b).
Proof.
  intros [Ta La] [Tb Lb]. split; [by apply terminatedb_append |].
  intros l. rewrite lines_append by done. rewrite in_app_iff. intros [H | H]; auto.
Qed.

Lemma covered_if S (c : bool) a b :
  covered S a -> covered S b -> covered S (if c then a else b).
Proof. by destruct c. Qed.

Lemma covered_target S pre size n :
  pre = "#define VULKAN " \/ pre = "#define GL_SPIRV " ->
  covered S (pre +:+ ln (snprintf_d size n)).
Proof.
  intros Hpre. unfold ln. rewrite <- append_assoc.
  fold (ln (pre +:+ snprintf_d size n)).
  split; [apply terminatedb_ln |].
  rewrite lines_ln.
  - intros l [<- | []]. right. exists (snprintf_d size n).
    destruct Hpre as [-> | ->]; auto.
  - apply no_newlineb_append; [| apply no_newlineb_snprintf_d].
    by destruct Hpre as [-> | ->].
Qed.

Ltac cover :=
  lazymatch goal with
  | |- covered _ (if _ then _ else _) => apply covered_if; cover
  | |- covered _ (_ +:+ ln (snprintf_d _ _)) => apply covered_target; auto
  | |- covered _ (_ +:+ _) => apply covered_append; cover
  | |- covered _ _ => apply covered_block; vm_compute; reflexivity
  end.

Lemma getPreamble_es_covered st p :
  profile st = EEsProfile -> covered es_macro_lines (getPreamble st p).
Proof.
  intros Hp. unfold getPreamble. rewrite Hp.
  cbn [EProfile_eqb negb andb orb]. cbv zeta. cover.
Qed.

Lemma getPreamble_desktop_covered st p :
  profile st <> EEsProfile -> covered desktop_macro_lines (getPreamble st p).
Proof.
  intros Hp. unfold getPreamble.
  assert (E : EProfile_eqb (profile st) EEsProfile = false)
    by (destruct (profile st); done).
  rewrite E. cbn [negb andb orb]. cbv zeta. cover.
Qed.

Lemma starts_self h : starts h h.
Proof. exists "". by rewrite append_empty_r. Qed.

Lemma starts_append h x y : starts h x -> starts h (x +:+ y).
Proof. intros [r ->]. exists (r +:+ y). apply append_assoc. Qed.

Lemma starts_if h (c : bool) x y : starts h x -> starts h y -> starts h (if c then x else y).
Proof. by destruct c. Qed.

Lemma getPreamble_es_starts st p :
  profile st = EEsProfile -> starts preamble_es (getPreamble st p).
Proof.
  intros Hp. unfold getPreamble. rewrite Hp.
  cbn [EProfile_eqb negb andb orb]. cbv zeta.
  repeat lazymatch goal with
         | |- starts _ (if _ then _ else _) => apply starts_if
         | |- starts _ (_ +:+ _) => apply starts_append
         | |- starts ?h ?h => apply starts_self
         end.
Qed.

Lemma shared_macro_lines_only l :
  In l es_macro_lines -> In l desktop_macro_lines -> In l shared_macro_lines.
Proof.
  intros Hes Hd. apply inb_In. apply In_inb in Hd. revert l Hes Hd.
  assert (H : forallb
                (fun l => implb (inb l desktop_macro_lines) (inb l shared_macro_lines))
                es_macro_lines = true) by (vm_compute; reflexivity).
  rewrite forallb_forall in H. intros l Hes Hd. specialize (H l Hes).
  rewrite Hd in H. exact H.
Qed.

Lemma GL_ES_not_target : ~ target_line "#define GL_ES 1".
Proof. intros [n [H | H]]; rewrite !append_String in H; discriminate. Qed.

(** C2 (amended): between the preamble of an ES compile unit and that of a
    non-ES one, the only macro-definition lines in common are the eight that
    do not depend on the profile (GL_FRAGMENT_PRECISION_HIGH,
    GL_EXT_shader_non_constant_global_initializers, the device-group and
    multiview pair, the OVR-multiview pair, the two GOOGLE lines) and the
    target lines VULKAN and GL_SPIRV; every other line is in one of the two
    at most, and the GL_ES line is in every ES preamble and in no other. *)
Theorem es_and_desktop_preambles st1 st2 p1 p2 :
  profile st1 = EEsProfile -> profile st2 <> EEsProfile ->
  (forall l,
     In l (lines (getPreamble st1 p1)) -> In l (lines (getPreamble st2 p2)) ->
     In l shared_macro_lines \/ target_line l)
  /\ In "#define GL_ES 1" (lines (getPreamble st1 p1))
  /\ ~ In "#define GL_ES 1" (lines (getPreamble st2 p2)).
Proof.
  intros H1 H2.
  destruct (getPreamble_es_covered st1 p1 H1) as [_ C1].
  destruct (getPreamble_desktop_covered st2 p2 H2) as [_ C2].
  split; [| split].
  - intros l L1 L2.
    destruct (C1 l L1) as [E | T]; [| right; exact T].
    destruct (C2 l L2) as [D | T]; [| right; exact T].
    left. apply shared_macro_lines_only; assumption.
  - destruct (getPreamble_es_starts st1 p1 H1) as [r ->].
    rewrite lines_append by (vm_compute; reflexivity).
    apply in_or_app. left. vm_compute. left. reflexivity.
  - intros L2. destruct (C2 _ L2) as [D | T].
    + apply In_inb in D. vm_compute in D. discriminate.
    + exact (GL_ES_not_target T).
Qed.


(** * Further properties of the code *)

(** ** The table after a directive *)

Lemma fmap_const_twice (b : TExtensionBehavior) (x : option TExtensionBehavior) :
  (fun _ => b) <$> ((fun _ => b) <$> x) = (fun _ => b) <$> x.
Proof. by destruct x. Qed.

Lemma inb_cons k x l : inb k (x :: l) = String.eqb k x || inb k l.
Proof. reflexivity. Qed.

Lemma inb_app k l1 l2 : inb k (l1 ++ l2) = inb k l1 || inb k l2.
Proof. unfold inb. apply existsb_app. Qed.

Lemma inb_true_iff k l : inb k l = true <-> In k l.
Proof. split; [apply inb_In | apply In_inb]. Qed.

Lemma updateExtensionBehavior_lookup u b st k :
  u <> "all" ->
  extensionBehavior (updateExtensionBehavior u b st) !! k =
    if String.eqb k u then (fun _ => b) <$> (extensionBehavior st !! k)
    else extensionBehavior st !! k.
Proof.
  intros Hall. unfold updateExtensionBehavior.
  apply String.eqb_neq in Hall. rewrite Hall.
  destruct (String.eqb_spec k u) as [-> | Hne].
  - destruct (extensionBehavior st !! u) as [prev |] eqn:Hu.
    + destruct (TExtensionBehavior_eqb prev EBhDisablePartial),
        (TExtensionBehavior_eqb b EBhEnable || TExtensionBehavior_eqb b EBhRequire);
        simpl; by rewrite lookup_insert_eq.
    + destruct b; simpl; by rewrite Hu.
  - destruct (extensionBehavior st !! u) as [prev |] eqn:Hu.
    + destruct (TExtensionBehavior_eqb prev EBhDisablePartial),
        (TExtensionBehavior_eqb b EBhEnable || TExtensionBehavior_eqb b EBhRequire);
        simpl; by rewrite lookup_insert_ne.
    + by destruct b.
Qed.

Lemma propagated_not_all u c : In c (propagates_to u) -> c <> "all".
Proof.
  unfold propagates_to.
  repeat match goal with
         | |- context [String.eqb u ?s] =>
             destruct (String.eqb_spec u s) as [-> | ?];
             [simpl; intros H; intuition (subst; discriminate) |]
         end.
  intros [].
Qed.

Lemma pass_on_lookup b (f : string -> TParseVersions -> option TParseVersions)
    (g : string -> list string) k :
  forall l,
    (forall c s s', In c l -> f c s = Some s' ->
       extensionBehavior s' !! k =
         if inb k (g c) then (fun _ => b) <$> (extensionBehavior s !! k)
         else extensionBehavior s !! k) ->
    forall s s',
      pass_on f l (Some s) = Some s' ->
      extensionBehavior s' !! k =
        if inb k (flat_map g l) then (fun _ => b) <$> (extensionBehavior s !! k)
        else extensionBehavior s !! k.
Proof.
  induction l as [| c l IH]; intros H s s' Hrun.
  - by injection Hrun as <-.
  - rewrite pass_on_cons in Hrun.
    destruct (f c s) as [s1 |] eqn:Hf; [| by rewrite pass_on_None in Hrun].
    simpl. rewrite inb_app.
    rewrite (IH (fun c' a a' Hin => H c' a a' (or_intror Hin)) s1 s' Hrun).
    rewrite (H c s s1 (or_introl eq_refl) Hf).
    destruct (inb k (g c)), (inb k (flat_map g l)); simpl;
      by rewrite ?fmap_const_twice.
Qed.

Lemma updateExtensionBehavior_str_lookup b tok k fuel :
  behavior_of_string tok = Some b ->
  forall line u st st',
    u <> "all" ->
    updateExtensionBehavior_str fuel line u tok st = Some st' ->
    extensionBehavior st' !! k =
      if inb k (reaches fuel u) then (fun _ => b) <$> (extensionBehavior st !! k)
      else extensionBehavior st !! k.
Proof.
  intros Hb. induction fuel as [| fuel IH]; intros line u st st' Hall Hrun;
    [discriminate |].
  rewrite updateExtensionBehavior_str_unfold, Hb in Hrun.
  apply (pass_on_lookup b _ (reaches fuel) k) in Hrun.
  - rewrite Hrun, updateExtensionBehavior_lookup by done.
    simpl reaches. rewrite inb_cons.
    destruct (String.eqb k u), (inb k (flat_map (reaches fuel) (propagates_to u)));
      simpl; by rewrite ?fmap_const_twice.
  - intros c s s' Hin Hc. apply (IH line c); [| done].
    by apply (propagated_not_all u).
Qed.

Lemma reaches_self fuel u : 1 <= fuel -> In u (reaches fuel u).
Proof. destruct fuel; [lia |]. intros _. by left. Qed.

Lemma reaches_implies fuel :
  forall u k, In k (reaches fuel u) -> k = u \/ implies u k.
Proof.
  induction fuel as [| fuel IH]; intros u k; [intros [] |].
  simpl. intros [<- | Hin]; [by left | right].
  apply in_flat_map in Hin. destruct Hin as (c & Hc & Hk).
  destruct (IH c k Hk) as [-> | Himp].
  - by apply implies_edge.
  - by apply implies_chain with c.
Qed.

Lemma implies_reaches u k :
  implies u k -> forall fuel, depth u <= fuel -> In k (reaches fuel u).
Proof.
  induction 1 as [u e Hin | u v e Hin Himp IH]; intros fuel Hd;
    (destruct fuel as [| fuel]; [pose proof (depth_bounds u); lia |]);
    simpl; right; apply in_flat_map.
  - exists e. split; [done |]. apply reaches_self.
    pose proof (depth_bounds e). pose proof (propagates_to_depth u e Hin). lia.
  - exists v. split; [done |]. apply IH.
    pose proof (propagates_to_depth u v Hin). lia.
Qed.

Lemma reaches_iff u k :
  In k (reaches directive_depth u) <-> k = u \/ implies u k.
Proof.
  split; [apply reaches_implies |].
  pose proof (depth_bounds u) as Hd.
  intros [-> | Himp].
  - apply reaches_self. unfold directive_depth. lia.
  - apply implies_reaches; [done | lia].
Qed.

Lemma applyDirective_lookup line u tok b st k :
  u <> "all" -> behavior_of_string tok = Some b ->
  extensionBehavior (applyDirective line u tok st) !! k =
    if inb k (reaches directive_depth u)
    then (fun _ => b) <$> (extensionBehavior st !! k)
    else extensionBehavior st !! k.
Proof.
  intros Hall Hb.
  apply (updateExtensionBehavior_str_lookup b tok k directive_depth Hb line u);
    [done |].
  by apply applyDirective_complete.
Qed.

(** X1: after a directive with one of the four behaviours on an identifier
    other than "all", a slot of the table holds the directive's behaviour if
    its identifier is the directive's or is in its transitive implication
    set, and holds what it held before otherwise; no slot is added or
    removed. *)
Theorem directive_table line u tok b st k :
  u <> "all" -> behavior_of_string tok = Some b ->
  (k = u \/ implies u k ->
   extensionBehavior (applyDirective line u tok st) !! k
     = (fun _ => b) <$> (extensionBehavior st !! k))
  /\ (~ (k = u \/ implies u k) ->
      extensionBehavior (applyDirective line u tok st) !! k
        = extensionBehavior st !! k).
Proof.
  intros Hall Hb. rewrite (applyDirective_lookup line u tok b st k Hall Hb).
  rewrite <- reaches_iff, <- inb_true_iff.
  destruct (inb k (reaches directive_depth u)); split; intros H; congruence.
Qed.

Lemma applyDirective_invalid line u tok st :
  behavior_of_string tok = None ->
  applyDirective line u tok st = emit (InvalidBehaviorError (currentLoc st) tok) st.
Proof.
  intros Hb. unfold applyDirective, directive_depth.
  by rewrite updateExtensionBehavior_str_unfold, Hb.
Qed.

Lemma applyDirective_all line tok b st :
  behavior_of_string tok = Some b ->
  applyDirective line "all" tok st = updateExtensionBehavior "all" b st.
Proof. intros Hb. by apply applyDirective_leaf. Qed.

Lemma updateExtensionBehavior_all_table b st :
  extensionBehavior (updateExtensionBehavior "all" b st) =
    if TExtensionBehavior_eqb b EBhRequire || TExtensionBehavior_eqb b EBhEnable
    then extensionBehavior st
    else (fun _ => b) <$> extensionBehavior st.
Proof.
  unfold updateExtensionBehavior. simpl.
  by destruct (TExtensionBehavior_eqb b EBhRequire || TExtensionBehavior_eqb b EBhEnable).
Qed.

(** X2: a directive applied a second time leaves the table as the first
    application left it, whatever the identifier (an ordinary one, a
    propagating one, "all", one without an entry) and whatever the behaviour
    text (also one that is not recognised). *)
Theorem directive_idempotent line u tok st :
  extensionBehavior (applyDirective line u tok (applyDirective line u tok st))
  = extensionBehavior (applyDirective line u tok st).
Proof.
  destruct (behavior_of_string tok) as [b |] eqn:Hb;
    [| by rewrite !applyDirective_invalid].
  destruct (String.eqb_spec u "all") as [-> | Hall].
  - rewrite !(applyDirective_all line tok b) by done.
    rewrite !updateExtensionBehavior_all_table.
    destruct (TExtensionBehavior_eqb b EBhRequire || TExtensionBehavior_eqb b EBhEnable);
      [done |].
    apply map_eq. intros k. rewrite !lookup_fmap. apply fmap_const_twice.
  - apply map_eq. intros k.
    rewrite (applyDirective_lookup line u tok b _ k Hall Hb).
    rewrite (applyDirective_lookup line u tok b st k Hall Hb).
    destruct (inb k (reaches directive_depth u)); [apply fmap_const_twice | done].
Qed.

(** X3: the calls a directive makes on itself are at most three deep: run
    with any bound that is at least the depth of its identifier, the function
    returns, and it returns the same state for all such bounds. *)
Theorem directive_terminates n line u tok st :
  depth u <= n ->
  depth u <= directive_depth
  /\ updateExtensionBehavior_str n line u tok st
     = Some (applyDirective line u tok st).
Proof.
  intros Hn. pose proof (depth_bounds u) as Hd. split; [lia |].
  rewrite (updateExtensionBehavior_str_fuel n directive_depth) by lia.
  apply applyDirective_complete. lia.
Qed.

(** ** Directives: errors, round trip, requested identifiers *)

Lemma behavior_of_string_None tok :
  behavior_of_string tok = None <->
  ~ In tok ["require"; "enable"; "disable"; "warn"].
Proof.
  unfold behavior_of_string.
  repeat match goal with
         | |- context [String.eqb ?s tok] =>
             destruct (String.eqb_spec s tok) as [<- | ?];
             [split; [discriminate | intros H; exfalso; apply H; simpl; auto 6] |]
         end.
  split; [| reflexivity].
  intros _ H. simpl in H. intuition congruence.
Qed.

(** X4: a directive whose behaviour text is none of "require", "enable",
    "disable" and "warn" (the comparison is exact, so "Enable" is none of
    them) records the "behavior not supported" error and does nothing else:
    nothing is stored, nothing is requested and nothing is passed on, also
    for "all" and for a propagating identifier. *)
Theorem unrecognised_behavior_directive line u tok st :
  ~ In tok ["require"; "enable"; "disable"; "warn"] ->
  applyDirective line u tok st
    = emit (InvalidBehaviorError (currentLoc st) tok) st
  /\ extensionBehavior (applyDirective line u tok st) = extensionBehavior st
  /\ requestedExtensions (applyDirective line u tok st) = requestedExtensions st.
Proof.
  intros H. apply behavior_of_string_None in H.
  by rewrite applyDirective_invalid.
Qed.

(** X5: storing and reading back.  For an identifier that has a slot and is
    not "all", the single update stores the behaviour it is given:
    [getExtensionBehavior] answers it afterwards, [extensionTurnedOn] is true
    exactly for Enable, Require and Warn, and the answer for every other
    identifier is what it was. *)
Theorem update_then_get e b st :
  e <> "all" -> is_Some (extensionBehavior st !! e) ->
  getExtensionBehavior e (updateExtensionBehavior e b st) = b
  /\ extensionTurnedOn e (updateExtensionBehavior e b st)
     = (TExtensionBehavior_eqb b EBhEnable || TExtensionBehavior_eqb b EBhRequire
        || TExtensionBehavior_eqb b EBhWarn)
  /\ (forall e', e' <> e ->
        getExtensionBehavior e' (updateExtensionBehavior e b st)
        = getExtensionBehavior e' st).
Proof.
  intros Hall [prev Hp].
  assert (G : getExtensionBehavior e (updateExtensionBehavior e b st) = b).
  { unfold getExtensionBehavior.
    rewrite updateExtensionBehavior_lookup, String.eqb_refl, Hp by done.
    reflexivity. }
  split; [exact G |]. split.
  - unfold extensionTurnedOn. rewrite G. by destruct b.
  - intros e' Hne. unfold getExtensionBehavior.
    rewrite updateExtensionBehavior_lookup by done.
    apply String.eqb_neq in Hne. by rewrite Hne.
Qed.

(** X6: the warning about partial support is given when the slot holds
    DisablePartial at the time of the update, and only then: an update of
    such a slot records it (and nothing else), and once the slot holds
    another behaviour a further update records nothing. *)
Theorem partial_support_warning e b b' st :
  e <> "all" -> extensionBehavior st !! e = Some EBhDisablePartial ->
  b <> EBhDisablePartial ->
  emitted st (updateExtensionBehavior e b st)
    = [PartialSupportWarning (currentLoc st) e]
  /\ emitted (updateExtensionBehavior e b st)
       (updateExtensionBehavior e b' (updateExtensionBehavior e b st)) = [].
Proof.
  intros Hall Hp Hb.
  assert (L : extensionBehavior (updateExtensionBehavior e b st) !! e = Some b).
  { rewrite updateExtensionBehavior_lookup, String.eqb_refl, Hp by done.
    reflexivity. }
  split.
  - unfold updateExtensionBehavior. apply String.eqb_neq in Hall.
    rewrite Hall, Hp. simpl. apply emitted_extends.
    by destruct (TExtensionBehavior_eqb b EBhEnable || TExtensionBehavior_eqb b EBhRequire).
  - remember (updateExtensionBehavior e b st) as s1 eqn:Hs1.
    unfold updateExtensionBehavior at 1. apply String.eqb_neq in Hall.
    rewrite Hall, L.
    assert (E : TExtensionBehavior_eqb b EBhDisablePartial = false)
      by (by destruct b).
    rewrite E. apply emitted_extends. rewrite app_nil_r.
    by destruct (TExtensionBehavior_eqb b' EBhEnable || TExtensionBehavior_eqb b' EBhRequire).
Qed.

Lemma requests_only_refl b st : requests_only b st st.
Proof. split; [apply stores_only_refl |]. split; [done | by left]. Qed.

Lemma requests_only_trans b s1 s2 s3 :
  requests_only b s1 s2 -> requests_only b s2 s3 -> requests_only b s1 s3.
Proof.
  intros (S12 & I12 & A12) (S23 & I23 & A23).
  split; [by apply stores_only_trans with s2 |].
  split; [set_solver |].
  intros k Hk. destruct (A23 k Hk) as [H2 | [Hr H2]]; [| right; by split].
  destruct (A12 k H2) as [H1 | [Hr H1]]; [by left | right].
  split; [done |]. by apply (stores_only_keeps b s2 s3).
Qed.

Lemma updateExtensionBehavior_requests_only u b st :
  requests_only b st (updateExtensionBehavior u b st).
Proof.
  split; [apply updateExtensionBehavior_stores_only |].
  unfold updateExtensionBehavior. fold (requests b).
  destruct (String.eqb u "all").
  - destruct (_ || _); simpl; split; (done || by left).
  - destruct (extensionBehavior st !! u) as [prev |] eqn:Hu.
    + destruct (TExtensionBehavior_eqb prev EBhDisablePartial),
        (requests b) eqn:Hr; simpl; (split; [set_solver |]); intros k Hk;
        try (by left);
        (apply elem_of_union in Hk; destruct Hk as [Hk | Hk]; [| by left]);
        apply elem_of_singleton in Hk; subst k; right;
        (split; [done | apply lookup_insert_eq]).
    + destruct b; simpl; split; (done || by left).
Qed.

Lemma updateExtensionBehavior_str_requests_only b tok fuel :
  behavior_of_string tok = Some b ->
  forall line u st st',
    updateExtensionBehavior_str fuel line u tok st = Some st' ->
    requests_only b st st'.
Proof.
  intros Hb. induction fuel as [| fuel IH]; intros line u st st' Hrun;
    [discriminate |].
  rewrite updateExtensionBehavior_str_unfold, Hb in Hrun.
  apply requests_only_trans with (updateExtensionBehavior u b st);
    [apply updateExtensionBehavior_requests_only |].
  revert Hrun. apply pass_on_invariant.
  - apply requests_only_refl.
  - apply requests_only_trans.
  - intros e s s' _ H. by apply (IH line e).
Qed.

Lemma applyDirective_requests_only line u tok b st :
  behavior_of_string tok = Some b ->
  requests_only b st (applyDirective line u tok st).
Proof.
  intros Hb.
  apply (updateExtensionBehavior_str_requests_only b tok directive_depth Hb line u).
  by apply applyDirective_complete.
Qed.

(** X7: the set of requested identifiers under directives.  A directive
    never takes an identifier out of the set; an identifier that it puts in
    has its slot set to Enable or Require by that directive; and a directive
    with "disable" or "warn" leaves the set as it is. *)
Theorem directive_requested line u tok st :
  requestedExtensions st ⊆ requestedExtensions (applyDirective line u tok st)
  /\ (forall k,
        k ∈ requestedExtensions (applyDirective line u tok st) ->
        k ∈ requestedExtensions st
        \/ extensionBehavior (applyDirective line u tok st) !! k = Some EBhEnable
        \/ extensionBehavior (applyDirective line u tok st) !! k = Some EBhRequire)
  /\ requestedExtensions (applyDirective line u "disable" st) = requestedExtensions st
  /\ requestedExtensions (applyDirective line u "warn" st) = requestedExtensions st.
Proof.
  assert (Q : forall t b, behavior_of_string t = Some b -> requests b = false ->
            requestedExtensions (applyDirective line u t st) = requestedExtensions st).
  { intros t b Hb Hr.
    destruct (applyDirective_requests_only line u t b st Hb) as (_ & I & A).
    apply set_eq. intros k. split; [| apply I].
    intros Hk. destruct (A k Hk) as [H | [H _]]; [done | congruence]. }
  split; [| split; [| split; [by apply (Q "disable" EBhDisable)
                             | by apply (Q "warn" EBhWarn)]]].
  - destruct (behavior_of_string tok) as [b |] eqn:Hb.
    + by destruct (applyDirective_requests_only line u tok b st Hb) as (_ & I & _).
    + by rewrite applyDirective_invalid.
  - intros k Hk. destruct (behavior_of_string tok) as [b |] eqn:Hb.
    + destruct (applyDirective_requests_only line u tok b st Hb) as (_ & _ & A).
      destruct (A k Hk) as [H | [Hr H]]; [by left | right].
      rewrite H. unfold requests in Hr. destruct b; try discriminate; auto.
    + rewrite applyDirective_invalid in Hk by done. by left.
Qed.

(** ** What the operations leave alone *)

Lemma only_sink_refl st : only_sink st st.
Proof. split; [apply set_infoSink_same | exists []; by rewrite app_nil_r]. Qed.

Lemma only_sink_trans s1 s2 s3 :
  only_sink s1 s2 -> only_sink s2 s3 -> only_sink s1 s3.
Proof.
  intros [E12 [l12 L12]] [E23 [l23 L23]]. split.
  - change (set_infoSink (infoSink s1) (set_infoSink (infoSink s2) s3) = s1).
    rewrite E23. exact E12.
  - exists (l12 ++ l23). by rewrite L23, L12, app_assoc.
Qed.

Lemma only_sink_set st l : only_sink st (set_infoSink (infoSink st ++ l) st).
Proof. split; [by destruct st | by exists l]. Qed.

Lemma only_sink_emit c st : only_sink st (emit c st).
Proof. apply only_sink_set. Qed.

Lemma only_sink_fields s s' :
  only_sink s s' ->
  extensionBehavior s' = extensionBehavior s
  /\ requestedExtensions s' = requestedExtensions s
  /\ configuration s' = configuration s.
Proof.
  intros [E _].
  split; [exact (f_equal extensionBehavior E) |].
  split; [exact (f_equal requestedExtensions E) |].
  exact (f_equal configuration E).
Qed.

Ltac sink_cases :=
  repeat match goal with
         | |- context [if ?c then _ else _] => destruct c
         | |- context [match ?x with _ => _ end] => destruct x
         end;
  first [apply only_sink_refl | apply only_sink_emit | apply only_sink_set].

Lemma only_sink_requireProfile loc m d st :
  only_sink st (requireProfile loc m d st).
Proof. unfold requireProfile. sink_cases. Qed.

Lemma only_sink_profileRequires loc m v es d st :
  only_sink st (profileRequires loc m v es d st).
Proof.
  unfold profileRequires. destruct (profile_in_mask st m); [| apply only_sink_refl].
  rewrite profileRequires_loop_spec.
  destruct (negb _); [| apply only_sink_set].
  eapply only_sink_trans; [apply only_sink_set | apply only_sink_emit].
Qed.

Lemma only_sink_profileRequires_single loc m v e d st :
  only_sink st (profileRequires_single loc m v e d st).
Proof. apply only_sink_profileRequires. Qed.

Lemma only_sink_requireExtensions loc es d st :
  only_sink st (requireExtensions loc es d st).
Proof.
  unfold requireExtensions, checkExtensionsRequested.
  destruct (existsb _ es); [apply only_sink_refl |].
  rewrite checkExtensionsRequested_warn_spec.
  destruct (_ || _); [apply only_sink_set |].
  eapply only_sink_trans; [apply only_sink_set |].
  destruct es as [| e [| e' rest]]; rewrite ?list_extensions_spec;
    first [apply only_sink_emit
          | eapply only_sink_trans; [apply only_sink_emit | apply only_sink_set]].
Qed.

Lemma only_sink_ppRequireExtensions loc es d st :
  only_sink st (ppRequireExtensions loc es d st).
Proof.
  unfold ppRequireExtensions, checkExtensionsRequested.
  destruct (existsb _ es); [apply only_sink_refl |].
  rewrite checkExtensionsRequested_warn_spec.
  destruct (_ || _); [apply only_sink_set |].
  eapply only_sink_trans; [apply only_sink_set |].
  destruct es as [| e [| e' rest]]; rewrite ?list_extensions_spec;
    first [apply only_sink_emit
          | eapply only_sink_trans; [apply only_sink_emit | apply only_sink_set]].
Qed.

Ltac sink_chain :=
  repeat first
    [ apply only_sink_refl
    | apply only_sink_profileRequires_single
    | apply only_sink_requireProfile
    | apply only_sink_requireExtensions
    | eapply only_sink_trans;
      [| first [ apply only_sink_profileRequires_single
               | apply only_sink_requireProfile
               | apply only_sink_requireExtensions ] ] ].

Lemma only_sink_run_op o st : is_check o = true -> only_sink st (run_op o st).
Proof.
  destruct o; simpl; try discriminate; intros _;
    first
      [ apply only_sink_requireProfile
      | apply only_sink_profileRequires
      | apply only_sink_requireExtensions
      | apply only_sink_ppRequireExtensions
      | idtac ].
  - unfold requireStage. sink_cases.
  - unfold checkDeprecated. sink_cases.
  - unfold requireNotRemoved. sink_cases.
  - unfold unimplemented. apply only_sink_emit.
  - unfold fullIntegerCheck. sink_chain.
  - unfold doubleCheck. sink_chain.
  - unfold int64Check. destruct builtIn; simpl; sink_chain.
  - unfold int16Check. destruct builtIn; simpl; sink_chain.
  - unfold float16Check. destruct builtIn; simpl; sink_chain.
  - unfold spvRemoved. sink_cases.
  - unfold vulkanRemoved. sink_cases.
  - unfold requireVulkan. sink_cases.
  - unfold requireSpv. sink_cases.
Qed.

(** X8: the checks of the gate write nothing but the sink.  For every
    operation other than the two updates and the initialisation, putting the
    old sink back into the state after the call gives the state before the
    call: the table, the requested set and the configuration are untouched,
    and the sink after the call is the old sink followed by the new calls. *)
Theorem checks_only_write_the_sink o st :
  is_check o = true ->
  set_infoSink (infoSink st) (run_op o st) = st
  /\ extensionBehavior (run_op o st) = extensionBehavior st
  /\ requestedExtensions (run_op o st) = requestedExtensions st
  /\ infoSink (run_op o st) = infoSink st ++ emitted st (run_op o st).
Proof.
  intros H. pose proof (only_sink_run_op o st H) as S.
  destruct (only_sink_fields _ _ S) as (T & R & _).
  destruct S as [E [l L]].
  repeat split; try done.
  by rewrite (emitted_extends st (run_op o st) l L).
Qed.

Lemma sink_grows_refl st : sink_grows st st.
Proof. exists []. by rewrite app_nil_r. Qed.

Lemma sink_grows_trans s1 s2 s3 :
  sink_grows s1 s2 -> sink_grows s2 s3 -> sink_grows s1 s3.
Proof.
  intros [l12 L12] [l23 L23]. exists (l12 ++ l23). by rewrite L23, L12, app_assoc.
Qed.

Lemma sink_grows_updateExtensionBehavior u b st :
  sink_grows st (updateExtensionBehavior u b st).
Proof.
  unfold updateExtensionBehavior.
  repeat match goal with
         | |- context [if ?c then _ else _] => destruct c
         | |- context [match ?x with _ => _ end] => destruct x
         end;
    first [ apply sink_grows_refl
          | exists []; simpl; by rewrite app_nil_r
          | eexists; reflexivity ].
Qed.

Lemma sink_grows_applyDirective line u tok st :
  sink_grows st (applyDirective line u tok st).
Proof.
  assert (G : forall fuel l e s s',
            updateExtensionBehavior_str fuel l e tok s = Some s' -> sink_grows s s').
  { induction fuel as [| fuel IH]; intros l e s s' Hrun; [discriminate |].
    rewrite updateExtensionBehavior_str_unfold in Hrun.
    destruct (behavior_of_string tok) as [b |];
      [| injection Hrun as <-; by eexists].
    apply sink_grows_trans with (updateExtensionBehavior e b s);
      [apply sink_grows_updateExtensionBehavior |].
    revert Hrun. apply pass_on_invariant.
    - apply sink_grows_refl.
    - apply sink_grows_trans.
    - intros x a a' _ H. by apply (IH l x). }
  apply (G directive_depth line u). by apply applyDirective_complete.
Qed.

Lemma sink_grows_run_op o st : sink_grows st (run_op o st).
Proof.
  destruct (is_check o) eqn:Hc.
  - by destruct (only_sink_run_op o st Hc) as [_ G].
  - destruct o; try discriminate; simpl.
    + exists []. simpl. by rewrite app_nil_r.
    + apply sink_grows_updateExtensionBehavior.
    + apply sink_grows_applyDirective.
Qed.

(** X9: no operation ever takes a call back.  After any sequence of gate
    and directive operations, the sink holds the calls it held before, in
    the same order, followed by those of the sequence. *)
Theorem sink_only_grows ops st :
  infoSink (run_ops ops st) = infoSink st ++ emitted st (run_ops ops st).
Proof.
  assert (G : sink_grows st (run_ops ops st)).
  { unfold run_ops. revert st. induction ops as [| o ops IH]; intros st;
      [apply sink_grows_refl |].
    simpl. apply sink_grows_trans with (run_op o st);
      [apply sink_grows_run_op | apply IH]. }
  destruct G as [l L]. by rewrite (emitted_extends _ _ l L).
Qed.

(** ** The slots of the table *)

Lemma assign_all_snoc l k v m :
  assign_all (l ++ [(k, v)]) m = <[k := v]> (assign_all l m).
Proof. unfold assign_all. by rewrite fold_left_app. Qed.

Lemma assign_all_lookup l m k :
  assign_all l m !! k =
    match assign_all l ∅ !! k with
    | Some v => Some v
    | None => m !! k
    end.
Proof.
  induction l as [| [k' v] l IH] using rev_ind.
  - unfold assign_all. simpl. by rewrite lookup_empty.
  - rewrite !assign_all_snoc.
    destruct (decide (k' = k)) as [-> | Hne].
    + by rewrite !lookup_insert_eq.
    + by rewrite !lookup_insert_ne.
Qed.

Lemma assign_all_lookup_Some l m k v :
  assign_all l m !! k = Some v -> In (k, v) l \/ m !! k = Some v.
Proof.
  induction l as [| [k' v'] l IH] using rev_ind.
  - unfold assign_all. simpl. by right.
  - rewrite assign_all_snoc.
    destruct (decide (k' = k)) as [-> | Hne].
    + rewrite lookup_insert_eq. intros [= ->]. left. apply in_or_app. right. by left.
    + rewrite lookup_insert_ne by done. intros H.
      destruct (IH H) as [Hin | Hm]; [left; apply in_or_app; by left | by right].
Qed.

Lemma initializeExtensionBehavior_table st :
  extensionBehavior (initializeExtensionBehavior st) = Registry ∪ extensionBehavior st.
Proof.
  apply map_eq. intros k.
  change (extensionBehavior (initializeExtensionBehavior st))
    with (assign_all defaults (extensionBehavior st)).
  rewrite assign_all_lookup, lookup_union.
  fold Registry. by destruct (Registry !! k), (extensionBehavior st !! k).
Qed.

(** X10: initialisation, also when it is run again later.  The table after
    [initializeExtensionBehavior] is the Registry laid over the table before:
    every registered identifier is back at its default, whatever directives
    came before, every other slot is kept, and a second run changes
    nothing. *)
Theorem initialize_resets_registered st :
  extensionBehavior (initializeExtensionBehavior st) = Registry ∪ extensionBehavior st
  /\ (forall k v, Registry !! k = Some v ->
        extensionBehavior (initializeExtensionBehavior st) !! k = Some v)
  /\ (forall k, Registry !! k = None ->
        extensionBehavior (initializeExtensionBehavior st) !! k
        = extensionBehavior st !! k)
  /\ initializeExtensionBehavior (initializeExtensionBehavior st)
     = initializeExtensionBehavior st.
Proof.
  split; [apply initializeExtensionBehavior_table |].
  split; [| split].
  - intros k v Hk. rewrite initializeExtensionBehavior_table.
    apply lookup_union_Some_l. exact Hk.
  - intros k Hk. rewrite initializeExtensionBehavior_table.
    rewrite lookup_union, Hk. by destruct (extensionBehavior st !! k).
  - transitivity
      (set_extensionBehavior
         (extensionBehavior
            (initializeExtensionBehavior (initializeExtensionBehavior st))) st);
      [reflexivity |].
    rewrite !initializeExtensionBehavior_table, (assoc_L (∪)), (idemp_L (∪)).
    rewrite <- initializeExtensionBehavior_table. reflexivity.
Qed.

Lemma stores_only_dom b s s' :
  stores_only b s s' -> dom (extensionBehavior s') = dom (extensionBehavior s).
Proof.
  intros H. apply set_eq. intros k. rewrite !elem_of_dom.
  destruct (H k) as [E | [S E]]; rewrite E; [done |].
  split; [done | by eexists].
Qed.

Lemma applyDirective_dom line u tok st :
  dom (extensionBehavior (applyDirective line u tok st)) = dom (extensionBehavior st).
Proof.
  destruct (behavior_of_string tok) as [b |] eqn:Hb;
    [| by rewrite applyDirective_invalid].
  apply (stores_only_dom b).
  apply (updateExtensionBehavior_str_stores_only b tok directive_depth Hb line u).
  by apply applyDirective_complete.
Qed.

Lemma run_op_dom o st :
  o <> OpInitializeExtensionBehavior ->
  dom (extensionBehavior (run_op o st)) = dom (extensionBehavior st).
Proof.
  intros Hinit. destruct (is_check o) eqn:Hc.
  - destruct (only_sink_fields _ _ (only_sink_run_op o st Hc)) as (E & _).
    by rewrite E.
  - destruct o; try discriminate; [by destruct Hinit | |].
    + apply (stores_only_dom behavior), updateExtensionBehavior_stores_only.
    + apply applyDirective_dom.
Qed.

Lemma registered_run_op o st : registered st -> registered (run_op o st).
Proof.
  unfold registered. intros H.
  assert (D : o = OpInitializeExtensionBehavior \/ o <> OpInitializeExtensionBehavior)
    by (destruct o; first [left; reflexivity | right; discriminate]).
  destruct D as [-> | Hne].
  - change (run_op OpInitializeExtensionBehavior st)
      with (initializeExtensionBehavior st).
    rewrite initializeExtensionBehavior_table, dom_union_L, H.
    apply (idemp_L (∪)).
  - rewrite run_op_dom; assumption.
Qed.

(** X11: the table never gains or loses a slot.  Every operation other than
    the initialisation keeps the set of identifiers that have a slot, and a
    compile unit whose table has the Registry's identifiers keeps exactly
    these through any sequence of operations, the initialisation included. *)
Theorem slots_are_kept ops st :
  registered st ->
  registered (run_ops ops st)
  /\ (forall o, o <> OpInitializeExtensionBehavior ->
        dom (extensionBehavior (run_op o st)) = dom (extensionBehavior st)).
Proof.
  intros H. split; [| intros o Ho; by apply run_op_dom].
  unfold run_ops. revert st H. induction ops as [| o ops IH]; intros st H; [done |].
  simpl. apply IH. by apply registered_run_op.
Qed.

Lemma defaults_not_missing k : ~ In (k, EBhMissing) defaults.
Proof.
  intros H.
  assert (F : forallb (fun kv => negb (TExtensionBehavior_eqb kv.2 EBhMissing))
                defaults = true)
    by (unfold defaults; destruct AMD_EXTENSIONS, NV_EXTENSIONS; vm_compute;
        reflexivity).
  rewrite forallb_forall in F. specialize (F _ H). discriminate.
Qed.

Lemma missing_free_stores_only b s s' :
  b <> EBhMissing -> stores_only b s s' -> missing_free s -> missing_free s'.
Proof.
  intros Hb H M k. destruct (H k) as [E | [_ E]]; rewrite E; [apply M |].
  congruence.
Qed.

Lemma behavior_of_string_not_missing tok b :
  behavior_of_string tok = Some b -> b <> EBhMissing.
Proof.
  unfold behavior_of_string.
  repeat match goal with
         | |- context [if ?c then _ else _] => destruct c
         end; congruence.
Qed.

Lemma missing_free_applyDirective line u tok st :
  missing_free st -> missing_free (applyDirective line u tok st).
Proof.
  destruct (behavior_of_string tok) as [b |] eqn:Hb;
    [| by rewrite applyDirective_invalid].
  apply (missing_free_stores_only b); [by apply (behavior_of_string_not_missing tok) |].
  apply (updateExtensionBehavior_str_stores_only b tok directive_depth Hb line u).
  by apply applyDirective_complete.
Qed.

Lemma apply_directives_invariant (P : TParseVersions -> Prop) :
  (forall line u tok st, P st -> P (applyDirective line u tok st)) ->
  forall ds st, P st -> P (apply_directives ds st).
Proof.
  intros Hstep. unfold apply_directives.
  induction ds as [| [[line u] tok] ds IH]; intros st H; [done |].
  simpl. apply IH. by apply Hstep.
Qed.

(** X12: [EBhMissing] is never stored.  In a compile unit that starts from
    the defaults and runs any sequence of directives, [getExtensionBehavior]
    answers [EBhMissing] for exactly the identifiers that are not in the
    Registry. *)
Theorem missing_iff_unregistered ds e p v target fc sw rx :
  getExtensionBehavior e (apply_directives ds (compile_unit p v target fc sw rx))
    = EBhMissing
  <-> Registry !! e = None.
Proof.
  set (st0 := compile_unit p v target fc sw rx).
  assert (M0 : missing_free st0).
  { intros k Hk.
    change (extensionBehavior st0) with (assign_all defaults ∅) in Hk.
    apply assign_all_lookup_Some in Hk. destruct Hk as [Hk | Hk].
    - by apply defaults_not_missing in Hk.
    - by rewrite lookup_empty in Hk. }
  assert (R0 : registered st0) by reflexivity.
  pose proof (apply_directives_invariant missing_free
                missing_free_applyDirective ds st0 M0) as M.
  pose proof (apply_directives_invariant registered
                (fun line u tok st H =>
                   registered_run_op (OpApplyDirective line u tok) st H)
                ds st0 R0) as R.
  pose proof (registered_lookup _ e R) as RL.
  unfold getExtensionBehavior.
  destruct (extensionBehavior (apply_directives ds st0) !! e) as [b |] eqn:E.
  - split.
    + intros ->. by destruct (M e).
    + intros HN. assert (S : is_Some (Registry !! e)) by (apply RL; by eexists).
      rewrite HN in S. by destruct S.
  - split; [| done]. intros _. apply eq_None_not_Some. intros S.
    apply RL in S. by destruct S.
Qed.

(** ** Further properties of the gate *)

Lemma filter_is_error_warn_calls loc featureDesc st extensions :
  List.filter is_error (flat_map (warn_calls loc featureDesc st) extensions) = [].
Proof.
  induction extensions as [| e rest IH]; [reflexivity |].
  simpl. rewrite List.filter_app, IH, app_nil_r. unfold warn_calls.
  by destruct (promoted st e), (let_through st e).
Qed.

Lemma filter_is_error_missing_report loc featureDesc extensions :
  List.filter is_error (missing_report loc featureDesc extensions) =
    [CallError loc "required extension not requested:" featureDesc
       (match extensions with [e] => e | _ => "Possible extensions include:" end)].
Proof.
  unfold missing_report.
  assert (N : forall l : list string,
            List.filter is_error (map (fun e => CallMessage EPrefixNone e None) l) = [])
    by (induction l; simpl; auto).
  destruct extensions as [| e [| e' rest]]; simpl; try reflexivity.
  by rewrite N.
Qed.

(** X13: [requireExtensions] records an error exactly when no listed
    extension is stored as Enable, Require or Warn and none is stored as
    Disable under [relaxedErrors]; an empty list therefore always gives the
    error.  When some listed extension is stored as Enable or Require, the
    function returns before the warnings: nothing at all is recorded, not
    even for another listed extension stored as Warn.  The error names the
    extension when the list has one element and announces the list
    otherwise. *)
Theorem requireExtensions_outcome loc extensions featureDesc st :
  List.filter is_error (emitted st (requireExtensions loc extensions featureDesc st)) =
    (if existsb (requested st) extensions || existsb (let_through st) extensions
     then []
     else [CallError loc "required extension not requested:" featureDesc
             (match extensions with
              | [e] => e
              | _ => "Possible extensions include:"
              end)])
  /\ (existsb (requested st) extensions = true ->
      requireExtensions loc extensions featureDesc st = st)
  /\ List.filter is_error (emitted st (requireExtensions loc [] featureDesc st))
     = [CallError loc "required extension not requested:" featureDesc
          "Possible extensions include:"].
Proof.
  assert (E : forall es,
    List.filter is_error (emitted st (requireExtensions loc es featureDesc st)) =
    (if existsb (requested st) es || existsb (let_through st) es
     then []
     else [CallError loc "required extension not requested:" featureDesc
             (match es with [e] => e | _ => "Possible extensions include:" end)])).
  { intros es. rewrite requireExtensions_emitted.
    destruct (existsb (requested st) es); [reflexivity |].
    rewrite List.filter_app, filter_is_error_warn_calls. simpl.
    destruct (existsb (let_through st) es); [reflexivity |].
    apply filter_is_error_missing_report. }
  split; [apply E |]. split; [| apply (E [])].
  intros H. unfold requireExtensions, checkExtensionsRequested.
  by rewrite existsb_requested, H.
Qed.

Lemma map_to_pp_unchanged l :
  List.filter is_error l = [] -> map to_pp l = l.
Proof.
  induction l as [| c l IH]; [reflexivity |]. simpl.
  destruct c; simpl; try discriminate; intros H; by rewrite IH.
Qed.

(** X14: [ppRequireExtensions] is [requireExtensions] with [ppError] in
    place of [error]: the two record the same calls, one for one, but for the
    entry point of the error, and both leave the state otherwise alone. *)
Theorem ppRequireExtensions_mirrors loc extensions featureDesc st :
  emitted st (ppRequireExtensions loc extensions featureDesc st)
  = map to_pp (emitted st (requireExtensions loc extensions featureDesc st))
  /\ set_infoSink (infoSink st) (ppRequireExtensions loc extensions featureDesc st)
     = set_infoSink (infoSink st) (requireExtensions loc extensions featureDesc st).
Proof.
  split.
  - rewrite requireExtensions_emitted.
    unfold ppRequireExtensions, checkExtensionsRequested.
    rewrite existsb_requested.
    destruct (existsb (requested st) extensions); [apply emitted_refl |].
    rewrite checkExtensionsRequested_warn_spec. simpl.
    rewrite map_app,
      (map_to_pp_unchanged _ (filter_is_error_warn_calls loc featureDesc st extensions)).
    destruct (existsb (let_through st) extensions).
    + apply emitted_extends. simpl. by rewrite app_nil_r.
    + apply emitted_extends. unfold missing_report.
      destruct extensions as [| e [| e' rest]]; simpl.
      * by rewrite app_nil_r.
      * by rewrite <- app_assoc.
      * rewrite list_extensions_spec. simpl. rewrite <- !app_assoc. simpl.
        do 4 f_equal. rewrite map_map. reflexivity.
  - destruct (only_sink_ppRequireExtensions loc extensions featureDesc st) as [-> _].
    by destruct (only_sink_requireExtensions loc extensions featureDesc st) as [-> _].
Qed.

Lemma extensionsTurnedOn_permits extensions st :
  extensionsTurnedOn extensions st = existsb (permits st) extensions.
Proof.
  unfold extensionsTurnedOn. induction extensions as [| e rest IH]; [reflexivity |].
  simpl. rewrite IH. f_equal. unfold extensionTurnedOn, getExtensionBehavior, permits.
  by destruct (extensionBehavior st !! e) as [[]|].
Qed.

(** X15: [profileRequires] and [extensionsTurnedOn] agree on the
    extensions: inside the mask, [profileRequires] records its error exactly
    when the version test fails and [extensionsTurnedOn] is false for the
    same list; with a [minVersion] of zero or less the version plays no
    part. *)
Theorem profileRequires_extensionsTurnedOn loc profileMask minVersion extensions featureDesc st :
  List.filter is_error
    (emitted st (profileRequires loc profileMask minVersion extensions featureDesc st))
  = (if profile_allowed (profile st) profileMask
        && negb ((0 <? minVersion)%Z && (minVersion <=? version st)%Z)
        && negb (extensionsTurnedOn extensions st)
     then [VersionOrExtensionError loc featureDesc]
     else [])
  /\ ((minVersion <=? 0)%Z = true ->
      List.filter is_error
        (emitted st (profileRequires loc profileMask minVersion extensions featureDesc st))
      = (if profile_allowed (profile st) profileMask
            && negb (extensionsTurnedOn extensions st)
         then [VersionOrExtensionError loc featureDesc]
         else [])).
Proof.
  assert (E : List.filter is_error
    (emitted st (profileRequires loc profileMask minVersion extensions featureDesc st))
  = (if profile_allowed (profile st) profileMask
        && negb ((0 <? minVersion)%Z && (minVersion <=? version st)%Z)
        && negb (extensionsTurnedOn extensions st)
     then [VersionOrExtensionError loc featureDesc]
     else [])).
  { rewrite profileRequires_emitted, extensionsTurnedOn_permits.
    destruct (profile_allowed (profile st) profileMask); [| reflexivity].
    rewrite List.filter_app, filter_is_error_usage. unfold permitted.
    by destruct ((0 <? minVersion)%Z && (minVersion <=? version st)%Z),
      (existsb (permits st) extensions). }
  split; [exact E |]. intros Hm. rewrite E.
  assert (Z0 : (0 <? minVersion)%Z = false) by lia.
  rewrite Z0. simpl. by rewrite andb_true_r.
Qed.

(** ** Masks *)

Lemma land_bit_testbit (i m : Z) :
  (0 <= i)%Z -> negb (Z.land (Z.shiftl 1 i) m =? 0)%Z = Z.testbit m i.
Proof.
  intros Hi. rewrite Z.shiftl_1_l.
  destruct (Z.testbit m i) eqn:Hb.
  - apply negb_true_iff, Z.eqb_neq. intros H0.
    assert (Ht : Z.testbit (Z.land (2 ^ i) m) i = true).
    { rewrite Z.land_spec, Hb, Z.pow2_bits_true; [reflexivity | lia]. }
    rewrite H0, Z.bits_0 in Ht. discriminate.
  - apply negb_false_iff, Z.eqb_eq. apply Z.bits_inj'. intros n Hn.
    rewrite Z.land_spec, Z.bits_0.
    destruct (Z.eq_dec n i) as [-> | Hne].
    + rewrite Hb. apply andb_false_r.
    + rewrite Z.pow2_bits_false; [reflexivity | lia].
Qed.

Lemma profile_index_nonneg p : (0 <= profile_index p)%Z.
Proof. destruct p; simpl; lia. Qed.

Lemma language_index_nonneg l : (0 <= language_index l)%Z.
Proof. destruct l; simpl; lia. Qed.

(** X16: profile masks behave as sets of profiles under the bit operations
    the source applies to them: the mask of one profile admits that profile
    only, masks joined with [|] admit what either admits, and the complement
    [~] of a mask admits what the mask does not (so [~EEsProfile] is every
    profile but ES). *)
Theorem profile_mask_operations st (q : EProfile) (m1 m2 : Z) :
  profile_in_mask st (profile_bits q) = EProfile_eqb (profile st) q
  /\ profile_in_mask st (Z.lor m1 m2)
     = profile_in_mask st m1 || profile_in_mask st m2
  /\ profile_in_mask st (Z.lnot m1) = negb (profile_in_mask st m1)
  /\ profile_in_mask st (Z.lnot (profile_bits EEsProfile))
     = negb (EProfile_eqb (profile st) EEsProfile).
Proof.
  rewrite !profile_in_mask_allowed. unfold profile_allowed.
  pose proof (profile_index_nonneg (profile st)) as Hi.
  assert (B : Z.testbit (profile_bits q) (profile_index (profile st))
              = EProfile_eqb (profile st) q)
    by (destruct (profile st), q; reflexivity).
  split; [exact B |].
  split; [apply Z.lor_spec |].
  split; [by apply Z.lnot_spec |].
  rewrite Z.lnot_spec by done. f_equal. by destruct (profile st).
Qed.

(** X17: [requireStage] records one stage error when the bit of the active
    stage is not in the mask and nothing when it is; the entry point for one
    stage records the error exactly when the active stage is another one. *)
Theorem requireStage_outcome loc languageMask stage featureDesc st :
  emitted st (requireStage loc languageMask featureDesc st)
  = (if stage_allowed (language st) languageMask then []
     else [StageError loc featureDesc (StageName (language st))])
  /\ emitted st (requireStage_single loc stage featureDesc st)
     = (if EShLanguage_eqb (language st) stage then []
        else [StageError loc featureDesc (StageName (language st))]).
Proof.
  assert (E : forall m,
    emitted st (requireStage loc m featureDesc st)
    = (if stage_allowed (language st) m then []
       else [StageError loc featureDesc (StageName (language st))])).
  { intros m. unfold requireStage, stage_allowed.
    rewrite <- (land_bit_testbit _ m (language_index_nonneg (language st))).
    destruct (Z.land _ m =? 0)%Z; simpl; [apply emitted_emit | apply emitted_refl]. }
  split; [apply E |].
  unfold requireStage_single. rewrite E.
  assert (B : stage_allowed (language st) (Z.shiftl 1 (language_index stage))
              = EShLanguage_eqb (language st) stage)
    by (destruct (language st), stage; reflexivity).
  by rewrite B.
Qed.

(** ** The checks of the basic types *)

Lemma emitted_trans a b c :
  sink_grows a b -> sink_grows b c -> emitted a c = emitted a b ++ emitted b c.
Proof.
  intros [l1 L1] [l2 L2].
  rewrite (emitted_extends a b l1 L1), (emitted_extends b c l2 L2).
  apply emitted_extends. by rewrite L2, L1, app_assoc.
Qed.

Lemma profileRequires_single_null loc m v op st :
  profileRequires_single loc m v None op st =
    if profile_allowed (profile st) m
       && negb ((0 <? v)%Z && (v <=? version st)%Z)
    then emit (VersionOrExtensionError loc op) st
    else st.
Proof.
  unfold profileRequires_single, profileRequires.
  rewrite profile_in_mask_allowed.
  destruct (profile_allowed (profile st) m); [| reflexivity]. simpl.
  by destruct ((0 <? v)%Z && (v <=? version st)%Z).
Qed.

(** X18: [fullIntegerCheck] records the version error for the profile
    "none" below version 130 and for the ES profile below version 300, and
    nothing in any other case: the core and compatibility profiles pass at
    every version. *)
Theorem fullIntegerCheck_outcome loc op st :
  fullIntegerCheck loc op st =
    (if match profile st with
        | ENoProfile => (version st <? 130)%Z
        | EEsProfile => (version st <? 300)%Z
        | _ => false
        end
     then emit (VersionOrExtensionError loc op) st
     else st).
Proof.
  unfold fullIntegerCheck. rewrite !profileRequires_single_null.
  destruct (profile st) eqn:Hp; unfold profile_allowed; simpl; rewrite ?Hp; simpl;
    try reflexivity.
  - destruct (130 <=? version st)%Z eqn:H1, (version st <? 130)%Z eqn:H2;
      simpl; rewrite ?Hp; simpl; try reflexivity; lia.
  - destruct (300 <=? version st)%Z eqn:H1, (version st <? 300)%Z eqn:H2;
      simpl; try reflexivity; lia.
Qed.

Lemma type_check_chain loc op v st :
  (0 < v)%Z ->
  let st1 :=
    requireProfile loc
      (Z.lor (profile_bits ECoreProfile) (profile_bits ECompatibilityProfile)) op st in
  let st2 := profileRequires_single loc (profile_bits ECoreProfile) v None op st1 in
  let st3 := profileRequires_single loc (profile_bits ECompatibilityProfile) v None op st2 in
  st3 = set_infoSink (infoSink st ++ type_check_calls ProfileName loc op v st) st.
Proof.
  intros Hv. cbv zeta. rewrite !profileRequires_single_null.
  unfold requireProfile. rewrite profile_in_mask_allowed.
  assert (Z0 : (0 <? v)%Z = true) by lia. rewrite Z0.
  unfold type_check_calls, profile_allowed.
  destruct (profile st) eqn:Hp; simpl; rewrite ?Hp; simpl;
    try (destruct (v <=? version st)%Z; simpl; rewrite ?Hp; simpl);
    rewrite ?set_infoSink_nil; reflexivity.
Qed.

(** X19: [doubleCheck] records one error about the profile for the profiles
    "none" and ES, one error about the version for the core and compatibility
    profiles below version 400, and nothing otherwise; never more than one
    call. *)
Theorem doubleCheck_outcome loc op st :
  doubleCheck loc op st
  = set_infoSink (infoSink st ++ type_check_calls ProfileName loc op 400 st) st
  /\ length (type_check_calls ProfileName loc op 400 st) <= 1.
Proof.
  split.
  - unfold doubleCheck. apply (type_check_chain loc op 400 st). lia.
  - unfold type_check_calls.
    destruct (profile st); try destruct (400 <=? version st)%Z; simpl; lia.
Qed.

(** X20: [int64Check] checks nothing for a built-in.  Otherwise it records
    first what [requireExtensions] records for GL_ARB_gpu_shader_int64 and
    then, independently of the extension, one error about the profile
    outside core and compatibility or one about the version below 450: an
    enabled extension does not make up for the version. *)
Theorem int64Check_outcome loc op st :
  int64Check loc op true st = st
  /\ emitted st (int64Check loc op false st)
     = emitted st (requireExtensions loc [E_GL_ARB_gpu_shader_int64] "shader int64" st)
       ++ type_check_calls ProfileName loc op 450 st.
Proof.
  split; [reflexivity |].
  unfold int64Check. simpl negb. cbv iota.
  set (st1 := requireExtensions loc [E_GL_ARB_gpu_shader_int64] "shader int64" st).
  pose proof (type_check_chain loc op 450 st1 eq_refl) as C. cbv zeta in C.
  rewrite C.
  destruct (only_sink_fields st st1
              (only_sink_requireExtensions loc _ "shader int64" st)) as (_ & _ & Hc).
  assert (T : type_check_calls ProfileName loc op 450 st1
              = type_check_calls ProfileName loc op 450 st).
  { unfold type_check_calls. unfold configuration in Hc.
    injection Hc as Hp Hv _ _ _ _ _ _. by rewrite Hp, Hv. }
  rewrite T.
  destruct (only_sink_requireExtensions loc [E_GL_ARB_gpu_shader_int64]
              "shader int64" st) as [_ [l L]].
  fold st1 in L. rewrite (emitted_extends st st1 l L).
  apply emitted_extends. simpl. by rewrite L, app_assoc.
Qed.

(** ** requireNotRemoved and the target checks *)

Lemma string_take_length n s : String.length (string_take n s) <= n.
Proof.
  revert s. induction n as [| n IH]; intros [| c s]; simpl; try lia.
  specialize (IH s). lia.
Qed.

(** X21: [requireNotRemoved] records one error when the active profile is in
    the mask and the version has reached the version of removal, and nothing
    otherwise.  The text that names the profile and the version is cut to
    the 59 characters that fit the buffer. *)
Theorem requireNotRemoved_outcome loc profileMask removedVersion featureDesc st :
  exists buf : string,
    emitted st (requireNotRemoved loc profileMask removedVersion featureDesc st)
    = (if profile_allowed (profile st) profileMask
          && (removedVersion <=? version st)%Z
       then [RemovedFeatureError loc featureDesc buf]
       else [])
    /\ String.length buf <= 59
    /\ buf = string_take 59
               (ProfileName (profile st) +:+ " profile; removed in version "
                  +:+ String_of_int removedVersion).
Proof.
  eexists. split; [| split; [| reflexivity]].
  - unfold requireNotRemoved. rewrite profile_in_mask_allowed.
    destruct (profile_allowed (profile st) profileMask); simpl;
      [| apply emitted_refl].
    destruct (removedVersion <=? version st)%Z; [| apply emitted_refl].
    apply emitted_emit.
  - apply string_take_length.
Qed.

(** X22: the checks on the target.  [spvRemoved] and [requireSpv] are
    complementary: for every target exactly one of them records an error.
    [requireVulkan] and [vulkanRemoved] never both record one, and both are
    silent exactly for a Vulkan version that is not zero and below 100. *)
Theorem target_checks loc op st :
  (emitted st (spvRemoved loc op st) = [] <-> emitted st (requireSpv loc op st) <> [])
  /\ ~ (emitted st (requireVulkan loc op st) <> []
        /\ emitted st (vulkanRemoved loc op st) <> [])
  /\ (emitted st (requireVulkan loc op st) = []
      /\ emitted st (vulkanRemoved loc op st) = []
      <-> vulkan (spvVersion st) <> 0%Z /\ (vulkan (spvVersion st) < 100)%Z).
Proof.
  unfold spvRemoved, requireSpv, requireVulkan, vulkanRemoved.
  destruct (Z.eqb_spec (spv (spvVersion st)) 0) as [Hs | Hs];
    destruct (Z.eqb_spec (vulkan (spvVersion st)) 0) as [Hv | Hv];
    destruct (Z.leb_spec 100 (vulkan (spvVersion st))) as [Hr | Hr];
    simpl; unfold error; rewrite ?emitted_refl, ?emitted_emit;
    repeat split;
    intuition (first [discriminate | lia | congruence]).
Qed.

(** ** The preamble, line by line *)

Lemma unlines_lines p : terminatedb p = true -> unlines (lines p) = p.
Proof.
  induction p as [| c p IH]; intros Ht; [reflexivity |].
  assert (Hp : terminatedb p = true).
  { destruct p; [reflexivity | exact Ht]. }
  specialize (IH Hp).
  change (lines (String c p)) with
    (if Ascii.eqb c newline then EmptyString :: lines p
     else match lines p with
          | [] => [String c EmptyString]
          | l :: ls => String c l :: ls
          end).
  destruct (Ascii.eqb_spec c newline) as [-> | Hc].
  - simpl unlines. rewrite IH. reflexivity.
  - destruct p as [| c' p'].
    + simpl in Ht. apply Ascii.eqb_eq in Ht. contradiction.
    + pose proof (lines_String_cons c' p') as Hne.
      destruct (lines (String c' p')) as [| l ls]; [done |].
      simpl unlines in *. unfold ln in *.
      rewrite append_String. rewrite append_String. by rewrite <- IH.
Qed.

Lemma has_lines_block b : terminatedb b = true -> has_lines (lines b) b.
Proof. by split. Qed.

Lemma has_lines_append L1 L2 a b :
  has_lines L1 a -> has_lines L2 b -> has_lines (L1 ++ L2) (a +:+ b).
Proof.
  intros [Ta <-] [Tb <-]. split; [by apply terminatedb_append |].
  by apply lines_append.
Qed.

Lemma has_lines_ln s : no_newlineb s = true -> has_lines [s] (ln s).
Proof. intros H. split; [apply terminatedb_ln | by apply lines_ln]. Qed.

Lemma has_lines_target pre size n :
  no_newlineb pre = true ->
  has_lines [pre +:+ snprintf_d size n] (pre +:+ ln (snprintf_d size n)).
Proof.
  intros Hpre. unfold ln. rewrite <- append_assoc.
  apply has_lines_ln, no_newlineb_append; [done | apply no_newlineb_snprintf_d].
Qed.

Lemma has_lines_option L X (c : bool) p x :
  has_lines L p -> has_lines X x ->
  has_lines (L ++ (if c then X else [])) (if c then p +:+ x else p).
Proof.
  intros Hp Hx. destruct c; [by apply has_lines_append |].
  by rewrite app_nil_r.
Qed.

Lemma has_lines_pair a b :
  no_newlineb a = true -> no_newlineb b = true ->
  has_lines [a; b] (ln a +:+ ln b).
Proof. intros Ha Hb. apply (has_lines_append [a] [b]); by apply has_lines_ln. Qed.

Lemma has_lines_head st :
  has_lines
    (if EProfile_eqb (profile st) EEsProfile then lines preamble_es
     else lines preamble_desktop
            ++ (if AMD_EXTENSIONS then lines preamble_AMD else [])
            ++ (if NV_EXTENSIONS then lines preamble_NV else [])
            ++ (if (150 <=? version st)%Z
                then "#define GL_core_profile 1"
                     :: (if EProfile_eqb (profile st) ECompatibilityProfile
                         then ["#define GL_compatibility_profile 1"] else [])
                else []))
    (if EProfile_eqb (profile st) EEsProfile then preamble_es
     else
       if (150 <=? version st)%Z then
         if EProfile_eqb (profile st) ECompatibilityProfile
         then ((preamble_desktop
                  +:+ (if AMD_EXTENSIONS then preamble_AMD else "")
                  +:+ (if NV_EXTENSIONS then preamble_NV else ""))
                 +:+ ln "#define GL_core_profile 1")
                +:+ ln "#define GL_compatibility_profile 1"
         else (preamble_desktop
                 +:+ (if AMD_EXTENSIONS then preamble_AMD else "")
                 +:+ (if NV_EXTENSIONS then preamble_NV else ""))
                +:+ ln "#define GL_core_profile 1"
       else preamble_desktop
              +:+ (if AMD_EXTENSIONS then preamble_AMD else "")
              +:+ (if NV_EXTENSIONS then preamble_NV else "")).
Proof.
  destruct (EProfile_eqb (profile st) EEsProfile);
    [apply has_lines_block; vm_compute; reflexivity |].
  assert (D : has_lines
                (lines preamble_desktop
                   ++ (if AMD_EXTENSIONS then lines preamble_AMD else [])
                   ++ (if NV_EXTENSIONS then lines preamble_NV else []))
                (preamble_desktop
                   +:+ (if AMD_EXTENSIONS then preamble_AMD else "")
                   +:+ (if NV_EXTENSIONS then preamble_NV else ""))).
  { apply has_lines_append; [apply has_lines_block; vm_compute; reflexivity |].
    apply has_lines_append;
      [destruct AMD_EXTENSIONS | destruct NV_EXTENSIONS];
      apply has_lines_block; vm_compute; reflexivity. }
  destruct (150 <=? version st)%Z.
  - destruct (EProfile_eqb (profile st) ECompatibilityProfile).
    + rewrite !app_assoc.
      change ("#define GL_core_profile 1" :: ["#define GL_compatibility_profile 1"])
        with (["#define GL_core_profile 1"] ++ ["#define GL_compatibility_profile 1"]).
      rewrite !app_assoc.
      apply has_lines_append; [| by apply has_lines_ln].
      apply has_lines_append; [| by apply has_lines_ln].
      rewrite <- !app_assoc. exact D.
    + rewrite !app_assoc.
      apply has_lines_append; [| by apply has_lines_ln].
      rewrite <- !app_assoc. exact D.
  - rewrite !app_assoc, app_nil_r. rewrite <- !app_assoc. exact D.
Qed.

Lemma getPreamble_has_lines st p : has_lines (preamble_lines st) (getPreamble st p).
Proof.
  unfold getPreamble, preamble_lines. cbv zeta.
  generalize (has_lines_head st).
  generalize (if EProfile_eqb (profile st) EEsProfile then lines preamble_es
     else lines preamble_desktop
            ++ (if AMD_EXTENSIONS then lines preamble_AMD else [])
            ++ (if NV_EXTENSIONS then lines preamble_NV else [])
            ++ (if (150 <=? version st)%Z
                then "#define GL_core_profile 1"
                     :: (if EProfile_eqb (profile st) ECompatibilityProfile
                         then ["#define GL_compatibility_profile 1"] else [])
                else [])).
  generalize (if EProfile_eqb (profile st) EEsProfile then preamble_es
     else
       if (150 <=? version st)%Z then
         if EProfile_eqb (profile st) ECompatibilityProfile
         then ((preamble_desktop
                  +:+ (if AMD_EXTENSIONS then preamble_AMD else "")
                  +:+ (if NV_EXTENSIONS then preamble_NV else ""))
                 +:+ ln "#define GL_core_profile 1")
                +:+ ln "#define GL_compatibility_profile 1"
         else (preamble_desktop
                 +:+ (if AMD_EXTENSIONS then preamble_AMD else "")
                 +:+ (if NV_EXTENSIONS then preamble_NV else ""))
                +:+ ln "#define GL_core_profile 1"
       else preamble_desktop
              +:+ (if AMD_EXTENSIONS then preamble_AMD else "")
              +:+ (if NV_EXTENSIONS then preamble_NV else "")).
  intros P0 L0 H0.
  rewrite !app_assoc.
  apply has_lines_option; [| by apply has_lines_target].
  apply has_lines_option; [| by apply has_lines_target].
  apply has_lines_append; [| by apply has_lines_pair].
  apply has_lines_option; [| by apply has_lines_pair].
  apply has_lines_option; [| by apply has_lines_pair].
  exact H0.
Qed.

Lemma forallb_Forall {A} (f : A -> bool) l :
  forallb f l = true -> Forall (fun x => f x = true) l.
Proof.
  intros H. apply Forall_forall. intros x Hx.
  rewrite forallb_forall in H. apply H. by apply list_elem_of_In.
Qed.

Ltac each_line :=
  lazymatch goal with
  | |- Forall _ (_ ++ _) => apply Forall_app; split; each_line
  | |- Forall _ (if ?c then _ else _) => destruct c; each_line
  | |- Forall _ (_ :: (if ?c then _ else _)) => destruct c; each_line
  | |- Forall _ _ => apply forallb_Forall; vm_compute; reflexivity
  end.

(** X23: the text of the preamble.  [getPreamble] leaves in the string
    exactly the lines of [preamble_lines], in that order, each ended by a
    new-line and nothing after the last; every line is a definition, that
    is, begins with "#define ". *)
Theorem getPreamble_text st p :
  getPreamble st p = unlines (preamble_lines st)
  /\ lines (getPreamble st p) = preamble_lines st
  /\ Forall (fun l => String.prefix "#define " l = true) (preamble_lines st).
Proof.
  destruct (getPreamble_has_lines st p) as [T L].
  split; [by rewrite <- L, unlines_lines |]. split; [exact L |].
  unfold preamble_lines. cbv zeta. each_line.
Qed.

Lemma nodupb_NoDup ls : nodupb ls = true -> NoDup ls.
Proof.
  induction ls as [| l ls IH]; [constructor |].
  simpl. intros H. apply andb_true_iff in H. destruct H as [Hl Hls].
  constructor; [| by apply IH].
  intros Hin. apply list_elem_of_In, In_inb in Hin. by rewrite Hin in Hl.
Qed.

Lemma option_sublist {A} (c : bool) (X : list A) :
  (if c then X else []) `sublist_of` X.
Proof. destruct c; [reflexivity | apply sublist_nil_l]. Qed.

Lemma preamble_lines_sublist st :
  preamble_lines st `sublist_of`
    (if EProfile_eqb (profile st) EEsProfile
     then all_es_lines
            ("#define VULKAN " +:+ snprintf_d 12 (vulkanGlsl (spvVersion st)))
            ("#define GL_SPIRV " +:+ snprintf_d 12 (openGl (spvVersion st)))
     else all_desktop_lines
            ("#define VULKAN " +:+ snprintf_d 12 (vulkanGlsl (spvVersion st)))
            ("#define GL_SPIRV " +:+ snprintf_d 12 (openGl (spvVersion st)))).
Proof.
  unfold preamble_lines, all_es_lines, all_desktop_lines. cbv zeta.
  destruct (EProfile_eqb (profile st) EEsProfile);
    repeat first
      [ apply option_sublist
      | reflexivity
      | apply sublist_app ].
  destruct (150 <=? version st)%Z; [| apply sublist_nil_l].
  apply sublist_skip || apply sublist_cons.
  apply (option_sublist _ ["#define GL_compatibility_profile 1"]).
Qed.

(** X24: no macro is defined twice.  The lines of a preamble are pairwise
    different, for every profile, version, target and build. *)
Theorem preamble_lines_distinct st p : NoDup (lines (getPreamble st p)).
Proof.
  destruct (getPreamble_has_lines st p) as [_ ->].
  eapply sublist_NoDup; [| apply preamble_lines_sublist].
  destruct (EProfile_eqb (profile st) EEsProfile);
    apply nodupb_NoDup; vm_compute; reflexivity.
Qed.

Lemma inb_if x (c : bool) A B :
  inb x (if c then A else B) = if c then inb x A else inb x B.
Proof. by destruct c. Qed.

Lemma eqb_append_l pre a b :
  String.eqb (pre +:+ a) (pre +:+ b) = String.eqb a b.
Proof.
  induction pre as [| c pre IH]; [reflexivity |].
  rewrite !append_String. simpl. by rewrite Ascii.eqb_refl.
Qed.

(** Replace the membership tests and comparisons that compute to a truth
    value by that value. *)
Ltac eval_tests :=
  repeat match goal with
         | |- context [inb ?a ?l] =>
             let r := eval vm_compute in (inb a l) in
             lazymatch r with true => idtac | false => idtac end;
             replace (inb a l) with r by (vm_compute; reflexivity)
         | |- context [String.eqb ?a ?b] =>
             let r := eval vm_compute in (String.eqb a b) in
             lazymatch r with true => idtac | false => idtac end;
             replace (String.eqb a b) with r by (vm_compute; reflexivity)
         end.

Lemma if_same {A} (c : bool) (x : A) : (if c then x else x) = x.
Proof. by destruct c. Qed.

Ltac split_tests st :=
  unfold preamble_lines; cbv zeta;
  repeat progress rewrite ?inb_app, ?inb_if, ?inb_cons.

Ltac simplify_tests :=
  repeat (rewrite ?if_same, ?orb_false_r, ?orb_false_l, ?andb_false_r,
            ?andb_true_r).

Ltac decide_tests st :=
  simplify_tests;
  (match goal with |- context [profile st] => destruct (profile st) | _ => idtac end);
  (match goal with
   | |- context [AMD_EXTENSIONS] => destruct AMD_EXTENSIONS
   | _ => idtac end);
  (match goal with
   | |- context [NV_EXTENSIONS] => destruct NV_EXTENSIONS
   | _ => idtac end);
  (match goal with
   | |- context [(150 <=? version st)%Z] => destruct (Z.leb_spec 150 (version st))
   | _ => idtac end);
  (match goal with
   | |- context [(140 <=? version st)%Z] => destruct (Z.leb_spec 140 (version st))
   | _ => idtac end);
  (match goal with
   | |- context [(310 <=? version st)%Z] => destruct (Z.leb_spec 310 (version st))
   | _ => idtac end);
  (match goal with
   | |- context [(300 <=? version st)%Z] => destruct (Z.leb_spec 300 (version st))
   | _ => idtac end);
  (match goal with
   | |- context [(0 <? vulkanGlsl (spvVersion st))%Z] =>
       destruct (Z.ltb_spec 0 (vulkanGlsl (spvVersion st)))
   | _ => idtac end);
  (match goal with
   | |- context [(0 <? openGl (spvVersion st))%Z] =>
       destruct (Z.ltb_spec 0 (openGl (spvVersion st)))
   | _ => idtac end);
  simpl; intuition (first [lia | congruence | discriminate]).

Ltac threshold st :=
  rewrite <- inb_true_iff; split_tests st; eval_tests; decide_tests st.

(** X25: which lines a preamble holds.  The GL_ES line is there exactly for
    the ES profile; the OVR-multiview pair exactly from version 300, for
    every profile; the device-group and multiview pair from version 140
    outside ES and from version 310 in ES; the GL_core_profile line outside
    ES from version 150, and the GL_compatibility_profile line for the
    compatibility profile from version 150; a VULKAN line exactly when
    [vulkanGlsl] is positive and a GL_SPIRV line exactly when [openGl] is,
    each with its number. *)
Theorem preamble_line_conditions st p :
  (In "#define GL_ES 1" (lines (getPreamble st p)) <-> profile st = EEsProfile)
  /\ (In "#define GL_OVR_multiview 1" (lines (getPreamble st p))
      <-> (300 <= version st)%Z)
  /\ (In "#define GL_OVR_multiview2 1" (lines (getPreamble st p))
      <-> (300 <= version st)%Z)
  /\ (In "#define GL_EXT_device_group 1" (lines (getPreamble st p))
      <-> (profile st <> EEsProfile /\ (140 <= version st)%Z)
          \/ (profile st = EEsProfile /\ (310 <= version st)%Z))
  /\ (In "#define GL_EXT_multiview 1" (lines (getPreamble st p))
      <-> (profile st <> EEsProfile /\ (140 <= version st)%Z)
          \/ (profile st = EEsProfile /\ (310 <= version st)%Z))
  /\ (In "#define GL_core_profile 1" (lines (getPreamble st p))
      <-> profile st <> EEsProfile /\ (150 <= version st)%Z)
  /\ (In "#define GL_compatibility_profile 1" (lines (getPreamble st p))
      <-> profile st = ECompatibilityProfile /\ (150 <= version st)%Z)
  /\ (forall n,
        In ("#define VULKAN " +:+ n) (lines (getPreamble st p))
        <-> (0 < vulkanGlsl (spvVersion st))%Z
            /\ n = snprintf_d 12 (vulkanGlsl (spvVersion st)))
  /\ (forall n,
        In ("#define GL_SPIRV " +:+ n) (lines (getPreamble st p))
        <-> (0 < openGl (spvVersion st))%Z
            /\ n = snprintf_d 12 (openGl (spvVersion st))).
Proof.
  destruct (getPreamble_has_lines st p) as [_ ->].
  split; [threshold st |]. split; [threshold st |]. split; [threshold st |].
  split; [threshold st |]. split; [threshold st |]. split; [threshold st |].
  split; [threshold st |]. split.
  - intros n. rewrite <- inb_true_iff. split_tests st.
    rewrite (eqb_append_l "#define VULKAN ").
    set (same := String.eqb n (snprintf_d 12 (vulkanGlsl (spvVersion st)))).
    assert (S : same = true <-> n = snprintf_d 12 (vulkanGlsl (spvVersion st)))
      by apply String.eqb_eq.
    clearbody same. eval_tests. rewrite <- S.
    destruct same; decide_tests st.
  - intros n. rewrite <- inb_true_iff. split_tests st.
    rewrite (eqb_append_l "#define GL_SPIRV ").
    set (same := String.eqb n (snprintf_d 12 (openGl (spvVersion st)))).
    assert (S : same = true <-> n = snprintf_d 12 (openGl (spvVersion st)))
      by apply String.eqb_eq.
    clearbody same. eval_tests. rewrite <- S.
    destruct same; decide_tests st.
Qed.

(** ** More on the extension queries *)

Lemma warn_calls_none loc featureDesc st extensions :
  existsb (let_through st) extensions = false ->
  flat_map (warn_calls loc featureDesc st) extensions = [].
Proof.
  induction extensions as [| e rest IH]; [reflexivity |].
  simpl. intros H. apply orb_false_iff in H. destruct H as [He Hr].
  rewrite (IH Hr), app_nil_r. unfold warn_calls.
  unfold let_through in He. apply orb_false_iff in He. destruct He as [Hp Hw].
  unfold let_through. by rewrite Hp, Hw.
Qed.

(** X26: the result of [checkExtensionsRequested].  It is true exactly when
    some listed extension is stored as Enable or Require, or as Warn, or as
    Disable under [relaxedErrors]; the calls it records are the warnings of
    [requireExtensions], which adds its error exactly when the result is
    false. *)
Theorem checkExtensionsRequested_result loc extensions featureDesc st :
  (checkExtensionsRequested loc extensions featureDesc st).1
  = existsb (requested st) extensions || existsb (let_through st) extensions
  /\ ((checkExtensionsRequested loc extensions featureDesc st).1 = true ->
      requireExtensions loc extensions featureDesc st
      = (checkExtensionsRequested loc extensions featureDesc st).2)
  /\ ((checkExtensionsRequested loc extensions featureDesc st).1 = false ->
      emitted st (requireExtensions loc extensions featureDesc st)
      = missing_report loc featureDesc extensions).
Proof.
  assert (R : (checkExtensionsRequested loc extensions featureDesc st).1
    = existsb (requested st) extensions || existsb (let_through st) extensions).
  { unfold checkExtensionsRequested. rewrite existsb_requested.
    destruct (existsb (requested st) extensions); [reflexivity |].
    by rewrite checkExtensionsRequested_warn_spec. }
  split; [exact R |]. split.
  - intros H. unfold requireExtensions.
    destruct (checkExtensionsRequested loc extensions featureDesc st) as [r s].
    simpl in *. by rewrite H.
  - intros H. rewrite R in H. apply orb_false_iff in H. destruct H as [H1 H2].
    rewrite requireExtensions_emitted, H1, H2.
    by rewrite (warn_calls_none loc featureDesc st extensions H2).
Qed.

Lemma defaults_values k v :
  In (k, v) defaults -> v = EBhDisable \/ v = EBhDisablePartial.
Proof.
  intros H.
  assert (F : forallb
                (fun kv => TExtensionBehavior_eqb kv.2 EBhDisable
                           || TExtensionBehavior_eqb kv.2 EBhDisablePartial)
                defaults = true)
    by (unfold defaults; destruct AMD_EXTENSIONS, NV_EXTENSIONS; vm_compute;
        reflexivity).
  rewrite forallb_forall in F. specialize (F _ H). simpl in F.
  destruct v; try discriminate; auto.
Qed.

(** X27: a compile unit starts with every extension off.  Right after the
    initialisation no identifier is turned on, so [profileRequires] accepts a
    feature inside the mask on the version alone, and [requireExtensions]
    records its error for every list unless [relaxedErrors] is set. *)
Theorem fresh_unit_all_off p v target fc sw rx extensions :
  let st := compile_unit p v target fc sw rx in
  extensionsTurnedOn extensions st = false
  /\ (forall loc profileMask minVersion featureDesc,
        List.filter is_error
          (emitted st
             (profileRequires loc profileMask minVersion extensions featureDesc st))
        = if profile_allowed p profileMask
             && negb ((0 <? minVersion)%Z && (minVersion <=? v)%Z)
          then [VersionOrExtensionError loc featureDesc] else [])
  /\ (rx = false ->
      forall loc featureDesc,
        emitted st (requireExtensions loc extensions featureDesc st)
        = missing_report loc featureDesc extensions).
Proof.
  intros st.
  assert (V : forall e, extensionBehavior st !! e = None
                        \/ extensionBehavior st !! e = Some EBhDisable
                        \/ extensionBehavior st !! e = Some EBhDisablePartial).
  { intros e. change (extensionBehavior st) with (assign_all defaults ∅).
    destruct (assign_all defaults ∅ !! e) as [b |] eqn:E; [right | by left].
    apply assign_all_lookup_Some in E. destruct E as [E | E].
    - apply defaults_values in E. destruct E as [-> | ->]; auto.
    - by rewrite lookup_empty in E. }
  assert (P : forall es, existsb (permits st) es = false).
  { induction es as [| e es IH]; [reflexivity |]. simpl. rewrite IH.
    unfold permits. by destruct (V e) as [-> | [-> | ->]]. }
  assert (Q : forall es, existsb (requested st) es = false).
  { induction es as [| e es IH]; [reflexivity |]. simpl. rewrite IH.
    unfold requested. by destruct (V e) as [-> | [-> | ->]]. }
  split; [by rewrite extensionsTurnedOn_permits |]. split.
  - intros loc profileMask minVersion featureDesc.
    rewrite profileRequires_emitted.
    change (profile st) with p. change (version st) with v.
    destruct (profile_allowed p profileMask); [| reflexivity].
    rewrite List.filter_app, filter_is_error_usage. unfold permitted.
    rewrite P, orb_false_r. change (version st) with v.
    by destruct ((0 <? minVersion)%Z && (minVersion <=? v)%Z).
  - intros -> loc featureDesc. rewrite requireExtensions_emitted, Q.
    assert (L : forall e, promoted st e = false /\ let_through st e = false).
    { intros e. unfold let_through, promoted, stored_warn.
      change (relaxedErrors st) with false.
      by destruct (V e) as [-> | [-> | ->]]. }
    assert (T : existsb (let_through st) extensions = false).
    { induction extensions as [| e rest IH]; [reflexivity |].
      simpl. destruct (L e) as [_ ->]. exact IH. }
    by rewrite (warn_calls_none loc featureDesc st extensions T), T.
Qed.

(** X28: the directive on "all" and the queries.  After "all : disable" no
    identifier is turned on; after "all : warn" an identifier is turned on
    exactly when it has a slot, and [getExtensionBehavior] answers Warn for
    it. *)
Theorem queries_after_directive_on_all line e st :
  extensionTurnedOn e (applyDirective line "all" "disable" st) = false
  /\ extensionTurnedOn e (applyDirective line "all" "warn" st)
     = bool_decide (is_Some (extensionBehavior st !! e))
  /\ (is_Some (extensionBehavior st !! e) ->
      getExtensionBehavior e (applyDirective line "all" "warn" st) = EBhWarn
      /\ getExtensionBehavior e (applyDirective line "all" "disable" st) = EBhDisable).
Proof.
  assert (T : forall tok b, behavior_of_string tok = Some b -> requests b = false ->
            extensionBehavior (applyDirective line "all" tok st) !! e
            = (fun _ => b) <$> (extensionBehavior st !! e)).
  { intros tok b Hb Hr. rewrite (applyDirective_all line tok b) by done.
    rewrite updateExtensionBehavior_all_table.
    unfold requests in Hr. rewrite orb_comm in Hr. rewrite Hr.
    apply lookup_fmap. }
  pose proof (T "disable" EBhDisable eq_refl eq_refl) as Td.
  pose proof (T "warn" EBhWarn eq_refl eq_refl) as Tw.
  unfold extensionTurnedOn, getExtensionBehavior. rewrite Td, Tw.
  destruct (extensionBehavior st !! e) as [b |]; simpl;
    repeat split; try done; by intros [? ?].
Qed.

(** X29: the last directive wins.  Two directives in a row on the same
    identifier, other than "all", leave the table as the second one alone
    does, also when the identifier propagates. *)
Theorem last_directive_wins line1 line2 u tok1 tok2 b1 b2 st :
  u <> "all" ->
  behavior_of_string tok1 = Some b1 -> behavior_of_string tok2 = Some b2 ->
  extensionBehavior (applyDirective line2 u tok2 (applyDirective line1 u tok1 st))
  = extensionBehavior (applyDirective line2 u tok2 st).
Proof.
  intros Hall H1 H2. apply map_eq. intros k.
  rewrite (applyDirective_lookup line2 u tok2 b2 _ k Hall H2).
  rewrite (applyDirective_lookup line1 u tok1 b1 st k Hall H1).
  rewrite (applyDirective_lookup line2 u tok2 b2 st k Hall H2).
  destruct (inb k (reaches directive_depth u)); [| done].
  by destruct (extensionBehavior st !! k).
Qed.

End Versions.

(** * Examples *)

(** The two worked examples of the specification for the gate. *)
Example profileRequires_permitted_by_extension :
  let st :=
    applyDirective 1%Z "GL_ARB_gpu_shader5" "enable"
      (compile_unit false false ECoreProfile 330 (mkSpvVersion 0 0 0 0)
         false false false) in
  extensionBehavior st !! "GL_ARB_gpu_shader5" = Some EBhEnable
  /\ emitted st
       (profileRequires 5%Z (profile_bits ECoreProfile) 400
          ["GL_ARB_gpu_shader5"] "feature" st) = [].
Proof. vm_compute. split; reflexivity. Qed.

Example requireExtensions_disabled_not_relaxed :
  let st :=
    compile_unit false false EEsProfile 100 (mkSpvVersion 0 0 0 0)
      false false false in
  extensionBehavior st !! "GL_OES_standard_derivatives" = Some EBhDisable
  /\ emitted st
       (requireExtensions 5%Z ["GL_OES_standard_derivatives"] "feature" st)
     = [MissingExtensionError 5%Z "feature" "GL_OES_standard_derivatives"].
Proof. vm_compute. split; reflexivity. Qed.

(** C1, as stated, fails: under [relaxedErrors], [requireExtensions] on the
    single identifier "GL_EXT_not_in_table", which has no entry, records the
    [MissingExtensionError], whereas on GL_OES_texture_3D, stored as Disable,
    it records the notice and the usage warning and no error. *)
Lemma missing_not_promoted_under_relaxedErrors :
  let st :=
    compile_unit false false EEsProfile 100 (mkSpvVersion 0 0 0 0) false false true in
  extensionBehavior st !! "GL_EXT_not_in_table" = None
  /\ extensionBehavior st !! "GL_OES_texture_3D" = Some EBhDisable
  /\ relaxedErrors st = true
  /\ emitted st (requireExtensions 7%Z ["GL_EXT_not_in_table"] "feature" st)
     = [MissingExtensionError 7%Z "feature" "GL_EXT_not_in_table"]
  /\ emitted st (requireExtensions 7%Z ["GL_OES_texture_3D"] "feature" st)
     = [MustBeEnabledNotice 7%Z; UsageWarning 7%Z "feature" "GL_OES_texture_3D"].
Proof. vm_compute. repeat split; reflexivity. Qed.

Lemma missing_versus_disable_witness :
  let st :=
    compile_unit false false EEsProfile 100 (mkSpvVersion 0 0 0 0) false false true in
  extensionBehavior st !! "GL_EXT_not_in_table" = None
  /\ extensionTurnedOn "GL_EXT_not_in_table" st = false.
Proof.
  intros st.
  assert (H : extensionBehavior st !! "GL_EXT_not_in_table" = None)
    by (vm_compute; reflexivity).
  split; [exact H |].
  exact (proj1 (proj2 (missing_versus_disable st "GL_EXT_not_in_table" H))).
Defined.

(** C2, as stated, fails: the line that defines GL_FRAGMENT_PRECISION_HIGH
    is in the preamble of an ES compile unit and in that of a core one. *)
Lemma es_and_core_share_a_line :
  let es :=
    compile_unit false false EEsProfile 310 (mkSpvVersion 0 0 0 0) false false false in
  let core :=
    compile_unit false false ECoreProfile 450 (mkSpvVersion 0 0 0 0) false false false in
  profile es = EEsProfile /\ profile core <> EEsProfile
  /\ In "#define GL_FRAGMENT_PRECISION_HIGH 1" (lines (getPreamble false false es ""))
  /\ In "#define GL_FRAGMENT_PRECISION_HIGH 1" (lines (getPreamble false false core "")).
Proof.
  intros es core. split; [reflexivity |]. split; [discriminate |].
  split; apply inb_In; vm_compute; reflexivity.
Qed.

Lemma es_and_desktop_preambles_witness :
  let es :=
    compile_unit false false EEsProfile 310 (mkSpvVersion 0 100 100 0) false false false in
  let core :=
    compile_unit true true ECoreProfile 450 (mkSpvVersion 0 100 100 0) false false false in
  profile es = EEsProfile /\ profile core <> EEsProfile
  /\ ~ In "#define GL_ES 1" (lines (getPreamble true true core "")).
Proof.
  intros es core.
  assert (H1 : profile es = EEsProfile) by reflexivity.
  assert (H2 : profile core <> EEsProfile) by discriminate.
  split; [exact H1 |]. split; [exact H2 |].
  exact (proj2 (proj2 (es_and_desktop_preambles true true es core "" "" H1 H2))).
Defined.

Lemma propagation_closure_witness :
  let st :=
    compile_unit false false EEsProfile 310 (mkSpvVersion 0 0 0 0) false false false in
  registered false false st
  /\ behavior_of_string "enable" = Some EBhEnable
  /\ extensionBehavior
       (applyDirective 1%Z "GL_ANDROID_extension_pack_es31a" "enable" st)
       !! "GL_EXT_shader_io_blocks" = Some EBhEnable.
Proof.
  intros st.
  assert (H1 : registered false false st) by reflexivity.
  assert (H2 : behavior_of_string "enable" = Some EBhEnable) by reflexivity.
  split; [exact H1 |]. split; [exact H2 |].
  apply (proj1 (propagation_closure false false 1%Z
                  "GL_ANDROID_extension_pack_es31a" "enable" EBhEnable st H1 H2)).
  apply implies_edge. vm_compute. do 8 right. left. reflexivity.
Defined.

Lemma unknown_extension_directive_witness :
  let st :=
    compile_unit false false EEsProfile 310 (mkSpvVersion 0 0 0 0) false false false in
  registered false false st
  /\ Registry false false !! "GL_EXT_not_in_table" = None
  /\ "GL_EXT_not_in_table" <> "all"
  /\ applyDirective 1%Z "GL_EXT_not_in_table" "require" st
     = emit (UnsupportedExtensionError (currentLoc st) "GL_EXT_not_in_table") st.
Proof.
  intros st.
  assert (H1 : registered false false st) by reflexivity.
  assert (H2 : Registry false false !! "GL_EXT_not_in_table" = None)
    by (vm_compute; reflexivity).
  assert (H3 : "GL_EXT_not_in_table" <> "all") by discriminate.
  split; [exact H1 |]. split; [exact H2 |]. split; [exact H3 |].
  exact (proj1 (unknown_extension_directive false false 1%Z
                  "GL_EXT_not_in_table" st H1 H2 H3)).
Defined.

Lemma getPreamble_deterministic_witness :
  let a :=
    compile_unit false false ECoreProfile 450 (mkSpvVersion 0 100 100 0) false false false in
  let b :=
    compile_unit false false ECoreProfile 450 (mkSpvVersion 0 100 100 0) true true true in
  profile a = profile b /\ version a = version b /\ spvVersion a = spvVersion b
  /\ getPreamble false false
       (run_ops false false profile_names
          [OpApplyDirective 1%Z "all" "warn"; OpRequireProfile 2%Z 8%Z "feature"] a)
       "left over"
     = getPreamble false false (run_ops false false profile_names [] b) "".
Proof.
  intros a b.
  assert (H1 : profile a = profile b) by reflexivity.
  assert (H2 : version a = version b) by reflexivity.
  assert (H3 : spvVersion a = spvVersion b) by reflexivity.
  split; [exact H1 |]. split; [exact H2 |]. split; [exact H3 |].
  exact (getPreamble_deterministic false false profile_names a b _ _ _ _ H1 H2 H3).
Defined.

(** * Examples for the further properties *)

Lemma directive_table_witness :
  let st :=
    compile_unit false false EEsProfile 310 (mkSpvVersion 0 0 0 0) false false false in
  "GL_OES_geometry_shader" <> "all"
  /\ behavior_of_string "warn" = Some EBhWarn
  /\ extensionBehavior (applyDirective 1%Z "GL_OES_geometry_shader" "warn" st)
       !! "GL_OES_geometry_shader"
     = (fun _ => EBhWarn) <$> (extensionBehavior st !! "GL_OES_geometry_shader").
Proof.
  intros st.
  assert (H1 : "GL_OES_geometry_shader" <> "all") by discriminate.
  assert (H2 : behavior_of_string "warn" = Some EBhWarn) by reflexivity.
  split; [exact H1 |]. split; [exact H2 |].
  apply (proj1 (directive_table 1%Z "GL_OES_geometry_shader" "warn"
                  EBhWarn st "GL_OES_geometry_shader" H1 H2)).
  left. reflexivity.
Defined.

Lemma directive_terminates_witness :
  let st :=
    compile_unit false false EEsProfile 310 (mkSpvVersion 0 0 0 0) false false false in
  depth "GL_ANDROID_extension_pack_es31a" <= 5
  /\ updateExtensionBehavior_str 5 1%Z "GL_ANDROID_extension_pack_es31a" "enable" st
     = Some (applyDirective 1%Z "GL_ANDROID_extension_pack_es31a" "enable" st).
Proof.
  intros st.
  assert (H : depth "GL_ANDROID_extension_pack_es31a" <= 5) by (vm_compute; lia).
  split; [exact H |].
  exact (proj2 (directive_terminates 5 1%Z
                  "GL_ANDROID_extension_pack_es31a" "enable" st H)).
Defined.

Lemma unrecognised_behavior_directive_witness :
  let st :=
    compile_unit false false EEsProfile 310 (mkSpvVersion 0 0 0 0) false false false in
  ~ In "Enable" ["require"; "enable"; "disable"; "warn"]
  /\ applyDirective 1%Z "GL_ANDROID_extension_pack_es31a" "Enable" st
     = emit (InvalidBehaviorError (currentLoc st) "Enable") st.
Proof.
  intros st.
  assert (H : ~ In "Enable" ["require"; "enable"; "disable"; "warn"])
    by (simpl; intuition discriminate).
  split; [exact H |].
  exact (proj1 (unrecognised_behavior_directive 1%Z
                  "GL_ANDROID_extension_pack_es31a" "Enable" st H)).
Defined.

Lemma update_then_get_witness :
  let st :=
    compile_unit false false ECoreProfile 450 (mkSpvVersion 0 0 0 0) false false false in
  "GL_ARB_viewport_array" <> "all"
  /\ is_Some (extensionBehavior st !! "GL_ARB_viewport_array")
  /\ getExtensionBehavior "GL_ARB_viewport_array"
       (updateExtensionBehavior "GL_ARB_viewport_array" EBhRequire st) = EBhRequire.
Proof.
  intros st.
  assert (H1 : "GL_ARB_viewport_array" <> "all") by discriminate.
  assert (H2 : is_Some (extensionBehavior st !! "GL_ARB_viewport_array"))
    by (exists EBhDisable; vm_compute; reflexivity).
  split; [exact H1 |]. split; [exact H2 |].
  exact (proj1 (update_then_get "GL_ARB_viewport_array" EBhRequire st H1 H2)).
Defined.

Lemma partial_support_warning_witness :
  let st :=
    compile_unit false false ECoreProfile 330 (mkSpvVersion 0 0 0 0) false false false in
  "GL_ARB_gpu_shader5" <> "all"
  /\ extensionBehavior st !! "GL_ARB_gpu_shader5" = Some EBhDisablePartial
  /\ EBhEnable <> EBhDisablePartial
  /\ emitted st (updateExtensionBehavior "GL_ARB_gpu_shader5" EBhEnable st)
     = [PartialSupportWarning (currentLoc st) "GL_ARB_gpu_shader5"].
Proof.
  intros st.
  assert (H1 : "GL_ARB_gpu_shader5" <> "all") by discriminate.
  assert (H2 : extensionBehavior st !! "GL_ARB_gpu_shader5" = Some EBhDisablePartial)
    by (vm_compute; reflexivity).
  assert (H3 : EBhEnable <> EBhDisablePartial) by discriminate.
  split; [exact H1 |]. split; [exact H2 |]. split; [exact H3 |].
  exact (proj1 (partial_support_warning "GL_ARB_gpu_shader5" EBhEnable EBhDisable
                  st H1 H2 H3)).
Defined.

Lemma checks_only_write_the_sink_witness :
  let st :=
    compile_unit false false EEsProfile 100 (mkSpvVersion 0 0 0 0) false false false in
  let o := OpRequireExtensions 3%Z ["GL_OES_standard_derivatives"] "feature" in
  is_check o = true
  /\ extensionBehavior (run_op false false profile_names o st)
     = extensionBehavior st.
Proof.
  intros st o.
  assert (H : is_check o = true) by reflexivity.
  split; [exact H |].
  exact (proj1 (proj2 (checks_only_write_the_sink false false profile_names o st H))).
Defined.

Lemma slots_are_kept_witness :
  let st :=
    compile_unit false false EEsProfile 310 (mkSpvVersion 0 0 0 0) false false false in
  registered false false st
  /\ registered false false
       (run_ops false false profile_names
          [OpApplyDirective 1%Z "all" "warn";
           OpUpdateExtensionBehavior "GL_EXT_not_in_table" EBhEnable;
           OpInitializeExtensionBehavior] st).
Proof.
  intros st.
  assert (H : registered false false st) by reflexivity.
  split; [exact H |].
  exact (proj1 (slots_are_kept false false profile_names _ st H)).
Defined.

Lemma last_directive_wins_witness :
  let st :=
    compile_unit false false EEsProfile 310 (mkSpvVersion 0 0 0 0) false false false in
  "GL_EXT_geometry_shader" <> "all"
  /\ behavior_of_string "enable" = Some EBhEnable
  /\ behavior_of_string "disable" = Some EBhDisable
  /\ extensionBehavior
       (applyDirective 2%Z "GL_EXT_geometry_shader" "disable"
          (applyDirective 1%Z "GL_EXT_geometry_shader" "enable" st))
     = extensionBehavior (applyDirective 2%Z "GL_EXT_geometry_shader" "disable" st).
Proof.
  intros st.
  assert (H1 : "GL_EXT_geometry_shader" <> "all") by discriminate.
  assert (H2 : behavior_of_string "enable" = Some EBhEnable) by reflexivity.
  assert (H3 : behavior_of_string "disable" = Some EBhDisable) by reflexivity.
  split; [exact H1 |]. split; [exact H2 |]. split; [exact H3 |].
  exact (last_directive_wins 1%Z 2%Z "GL_EXT_geometry_shader"
           "enable" "disable" EBhEnable EBhDisable st H1 H2 H3).
Defined.
